(** * 64drive USB tool: the device protocol engine of [src/main.c]

    A shallow embedding of the command codec ([swap_endian],
    [device_send_cmd]), the handshake ([device_get_version]), the transfer
    engine ([device_upload], [device_download]) and the CIC selector
    ([device_set_cic]), together with the properties of them that the
    specification states; then of the set-up of the device ([device_open],
    [device_init], [setup_device]), of [list_devices] and of the option
    loop of [main], with further properties of the code.

    Conventions.  C integers are mathematical integers ([Z]) with the
    conversions of the C types written out: [u32] is the conversion to
    [uint32_t], [s32] the conversion to [int] as gcc performs it.  Bytes
    are integers in [0, 256).  Arrays are lists updated by index. *)

From Stdlib Require Import ZArith List Lia Bool Ascii.
From coqutil Require Import Z.bitblast.
From stdpp Require Import base list strings.

Local Open Scope Z_scope.

(** ** Machine integers *)

Module Int.

Definition u8 (z : Z) : Z := z mod 2 ^ 8.
Definition u32 (z : Z) : Z := z mod 2 ^ 32.
Definition s32 (z : Z) : Z := (z + 2 ^ 31) mod 2 ^ 32 - 2 ^ 31.

Definition is_u8 (z : Z) : Prop := 0 <= z < 2 ^ 8.
Definition is_u32 (z : Z) : Prop := 0 <= z < 2 ^ 32.

(** Byte number [k] of a word, byte 0 being the least significant. *)
Definition byte_of (v : Z) (k : Z) : Z := Z.land (Z.shiftr v (8 * k)) 255.

(** A character constant, as the [int] it is in C. *)
Definition char (c : ascii) : Z := Z.of_N (N_of_ascii c).

(** The four bytes of a word, most significant first. *)
Definition be_bytes (v : Z) : list Z :=
  [byte_of v 3; byte_of v 2; byte_of v 1; byte_of v 0].

(** The four bytes of a word, least significant first. *)
Definition le_bytes (v : Z) : list Z :=
  [byte_of v 0; byte_of v 1; byte_of v 2; byte_of v 3].

End Int.
Export Int.

(** ** Host memory layout

    [device_send_cmd] and [device_get_version] access byte buffers through
    [uint32_t*] casts, so what they put in and take out of a buffer depends
    on the byte order of the host. *)

Inductive byte_order := LittleEndian | BigEndian.

(** [*(uint32_t* )&buf[pos] = v] *)
Definition store_u32 (host : byte_order) (buf : list Z) (pos : nat) (v : Z)
  : list Z :=
  match host with
  | LittleEndian =>
      <[pos + 3 := byte_of v 3]> (<[pos + 2 := byte_of v 2]>
        (<[pos + 1 := byte_of v 1]> (<[pos := byte_of v 0]> buf)))
  | BigEndian =>
      <[pos + 3 := byte_of v 0]> (<[pos + 2 := byte_of v 1]>
        (<[pos + 1 := byte_of v 2]> (<[pos := byte_of v 3]> buf)))
  end%nat.

(** [*(uint32_t* )&buf[pos]] *)
Definition load_u32 (host : byte_order) (buf : list Z) (pos : nat) : Z :=
  let b (i : nat) := buf !!! (pos + i)%nat in
  match host with
  | LittleEndian =>
      Z.lor (Z.lor (Z.lor (b 0%nat) (Z.shiftl (b 1%nat) 8))
        (Z.shiftl (b 2%nat) 16)) (Z.shiftl (b 3%nat) 24)
  | BigEndian =>
      Z.lor (Z.lor (Z.lor (b 3%nat) (Z.shiftl (b 2%nat) 8))
        (Z.shiftl (b 1%nat) 16)) (Z.shiftl (b 0%nat) 24)
  end.

(** ** 64drive.h *)

Definition DEV_MAGIC : Z := 0x55444556.
Definition DEV_CMD_LOADRAM : Z := 0x20.
Definition DEV_CMD_DUMPRAM : Z := 0x30.
Definition DEV_CMD_SETCIC : Z := 0x72.
Definition DEV_CMD_GETVER : Z := 0x80.
Definition DEV_CMD_PI_RD_32 : Z := 0x90.

Definition BANK_CARTROM : Z := 1.
Definition BANK_LAST : Z := 7.

Definition CIC_6101 : Z := 0.
Definition CIC_6102 : Z := 1.
Definition CIC_7101 : Z := 2.
Definition CIC_7102 : Z := 3.
Definition CIC_X103 : Z := 4.
Definition CIC_X105 : Z := 5.
Definition CIC_X106 : Z := 6.
Definition CIC_5101 : Z := 7.
Definition CIC_LAST : Z := 8.

(** ** main.c: tables *)

(** [cic_types]: the pairs [(num, cic)]; the terminating [{0, 0, NULL}]
    entry is the end of the list. *)
Definition cic_types : list (Z * Z) :=
  [ (6101, CIC_6101); (6102, CIC_6102); (7101, CIC_7101); (7102, CIC_7102);
    (103, CIC_X103); (105, CIC_X105); (106, CIC_X106); (5101, CIC_5101) ].

(** The search of [main]'s [case 'c']: entry [i] is taken when its number is
    [num], or when [num] is the index [i] itself. *)
Fixpoint find_cic (table : list (Z * Z)) (i : Z) (num : Z) : option Z :=
  match table with
  | [] => None
  | (n, cic) :: rest =>
      if (n =? num) || ((num <? CIC_LAST) && (num =? i)) then Some cic
      else find_cic rest (i + 1) num
  end.

(** ** main.c: [swap_endian] (lines 49-54) *)

Definition swap_endian (val : Z) : Z :=
  Z.lor (Z.lor (Z.lor
    (u32 (Z.shiftl val 24))
    (Z.land (u32 (Z.shiftl val 8)) 0x00ff0000))
    (Z.land (Z.shiftr val 8) 0x0000ff00))
    (Z.shiftr val 24).

(** ** main.c: the frame of [device_send_cmd] (lines 96-112)

    [tx_buf] after the [memset], the four header stores and the parameter
    loop; [cmd_frame] is the prefix of it that is handed to
    [ftdi_write_data].  [params] is read at the indices below [nParams]. *)

Definition fill_params (host : byte_order) (nParams : nat) (params : list Z)
    (tx_buf : list Z) : list Z :=
  fold_left
    (fun buf i => store_u32 host buf (4 + 4 * i) (swap_endian (params !!! i)))
    (seq 0 nParams) tx_buf.

Definition tx_buf_of (host : byte_order) (cmd : Z) (nParams : nat)
    (params : list Z) : list Z :=
  let tx_buf := replicate 32 0 in
  let tx_buf := <[0%nat := u8 cmd]> tx_buf in
  let tx_buf := <[1%nat := char "C"]> tx_buf in
  let tx_buf := <[2%nat := char "M"]> tx_buf in
  let tx_buf := <[3%nat := char "D"]> tx_buf in
  fill_params host nParams params tx_buf.

Definition cmd_frame (host : byte_order) (cmd : Z) (nParams : nat)
    (params : list Z) : list Z :=
  take (4 + nParams * 4) (tx_buf_of host cmd nParams params).

(** ** The world outside the program

    What the program does to its environment is recorded as a trace of
    events: every call of libftdi with what it returned, every [usleep],
    and every line printed. *)

(** A buffer handed to [ftdi_write_data]: a command frame is tracked byte by
    byte; of the [malloc]ed transfer buffer only the length matters here. *)
Inductive buffer :=
| Bytes (bs : list Z)
| Payload.

Inductive message :=
(* stderr *)
| TooManyParams
| SendCmdWriteFailed (cmd : Z)
| SendCmdReadFailed (cmd : Z)
| GetVersionFailed
| IncorrectMagic (magic : Z)
| CommunicationFailure
| UploadOutOfMemory
| UploadSetChunkFailed
| UploadWriteFailed (readPos : Z)
| DownloadOutOfMemory
| DownloadSetChunkFailed
| DownloadReadFailed (readPos : Z)
| CicNotSupported
(* stdout *)
| SendingCommand (cmd : Z)
| ChunkSizeIs (units bytes : Z)
| UploadingKbytes (kbytes offset : Z)
| UploadProgress (percent : Z)
| UploadDone
| DownloadingKbytes (kbytes : Z)
| DownloadProgress (percent : Z)
| DownloadDone
| SelectingCic (cic : Z).

Inductive event :=
| EvWrite (buf : buffer) (size ret : Z)
| EvRead (size ret : Z) (data : list Z)
| EvPurge
| EvWriteChunksize (chunksize ret : Z)
| EvReadChunksize (chunksize ret : Z)
| EvUsleep (usec : Z)
| EvStderr (m : message)
| EvStdout (m : message).

(** The platform the program runs on: the byte order of the host, whether
    [malloc] of a given size succeeds, and the USB link behind libftdi as a
    state machine over the contents [F] of [struct ftdi_context].  Nothing
    is assumed of the link: a call may return any [int] and any bytes. *)
Class Platform (F : Type) := {
  host_order : byte_order;
  malloc_ok : Z -> bool;
  usb_write : F -> buffer -> Z -> F * Z;
  usb_read : F -> Z -> F * (Z * list Z);
  usb_purge : F -> F;
  usb_write_chunksize : F -> Z -> F * Z;
  usb_read_chunksize : F -> Z -> F * Z
}.

(** [sixtyfourDrive] of 64drive.h. *)
Record sixtyfourDrive (F : Type) := mkDrive {
  ftdi : F;
  version : Z;
  variant : Z * Z * Z
}.
Arguments mkDrive {F}.
Arguments ftdi {F}.
Arguments version {F}.
Arguments variant {F}.

(** A [FILE]: its position, its length, and whether it can seek.  A
    regular file can; a pipe or a terminal, such as the [stdin] and [stdout]
    that [main] passes for the name "-", cannot: of such a stream [fpos] is
    the number of bytes read or written so far and [fsize] the number it
    holds in all. *)
Record FILE := mkStream { fpos : Z; fsize : Z; seekable : bool }.

(** A regular file, and a pipe. *)
Definition mkFile (pos size : Z) : FILE := mkStream pos size true.
Definition mkPipe (pos size : Z) : FILE := mkStream pos size false.

(** [ftell(f)]: the position, or -1 on a stream that cannot seek. *)
Definition ftell (f : FILE) : Z := if seekable f then fpos f else -1.
(** [fseek(f, 0, SEEK_END)] and [fseek(f, pos, SEEK_SET)], their results
    dropped as the program drops them: on a stream that cannot seek they
    fail and change nothing. *)
Definition fseek_end (f : FILE) : FILE :=
  if seekable f then mkStream (fsize f) (fsize f) true else f.
Definition fseek_set (f : FILE) (pos : Z) : FILE :=
  if seekable f then mkStream pos (fsize f) true else f.
(** [fread(buffer, n, 1, f)]: up to [n] bytes, fewer at the end of file. *)
Definition fread (f : FILE) (n : Z) : FILE :=
  mkStream (fpos f + Z.min n (Z.max 0 (fsize f - fpos f))) (fsize f)
    (seekable f).
(** [fwrite(buffer, n, 1, f)] *)
Definition fwrite (f : FILE) (n : Z) : FILE :=
  mkStream (fpos f + n) (Z.max (fsize f) (fpos f + n)) (seekable f).

(** ** A monad for the device functions

    A computation takes the device structure and gives a result, the device
    structure afterwards and the events it caused, oldest first. *)

Definition M (F A : Type) : Type :=
  sixtyfourDrive F -> A * sixtyfourDrive F * list event.

Definition ret {F A} (a : A) : M F A := fun d => (a, d, []).

Definition bind {F A B} (c : M F A) (k : A -> M F B) : M F B :=
  fun d =>
    let '(a, d1, t1) := c d in
    let '(b, d2, t2) := k a d1 in
    (b, d2, t1 ++ t2).

Definition emit {F} (e : event) : M F unit := fun d => (tt, d, [e]).

Definition when {F} (b : bool) (c : M F unit) : M F unit :=
  if b then c else ret tt.

Declare Scope dev_scope.
Delimit Scope dev_scope with dev.
Notation "x <- c ;; k" := (bind c (fun x => k))
  (at level 100, c at next level, right associativity) : dev_scope.
Notation "c ;;; k" := (bind c (fun _ => k))
  (at level 100, right associativity) : dev_scope.
Local Open Scope dev_scope.

Definition result {F A} (r : A * sixtyfourDrive F * list event) : A :=
  fst (fst r).
Definition final {F A} (r : A * sixtyfourDrive F * list event)
  : sixtyfourDrive F := snd (fst r).
Definition trace {F A} (r : A * sixtyfourDrive F * list event) : list event :=
  snd r.

(** The ways out of [device_get_version], one per [return]. *)
Inductive version_exit :=
| VerIoError (err : Z)
| VerCommFailure
| VerOk (response : list Z).

(** The ways out of [device_upload] and [device_download]. *)
Inductive transfer_exit :=
| XferNoMemory
| XferChunksizeError (err : Z)
| XferAborted (n : Z)
| XferDone.

(** The local variables of the chunk loop. *)
Record locals := mkLocals { offset : Z; readPos : Z; file : FILE }.

(** What one iteration of the chunk loop does: it returns [n] from the
    function, or it goes on to the next iteration. *)
Inductive step :=
| Return (n : Z) (l : locals)
| Next (l : locals).

(** [(response[0] << 24) | (response[1] << 16) | (response[2] << 8)] as an
    [int]; a first byte of 0x80 or more overflows the [int], which gcc
    wraps. *)
Definition pack_variant (response : list Z) : Z :=
  s32 (Z.lor (Z.lor (Z.shiftl (response !!! 0%nat) 24)
                    (Z.shiftl (response !!! 1%nat) 16))
             (Z.shiftl (response !!! 2%nat) 8)).

Definition version_status (e : version_exit) : Z :=
  match e with
  | VerIoError err => err
  | VerCommFailure => -1
  | VerOk response => pack_variant response
  end.

Definition transfer_status (e : transfer_exit) : Z :=
  match e with
  | XferNoMemory => -1
  | XferChunksizeError err => err
  | XferAborted n => n
  | XferDone => 0
  end.

(** The chunk size of [device_upload] (lines 199-207) and of
    [device_download] (lines 277-285): the number of 128 KiB units, the
    conversion to bytes in [uint32_t], and the clamp. *)
Definition chunk_units (size : Z) : Z :=
  if 16 * 1024 * 1024 <? size then 32
  else if 2 * 1024 * 1024 <? size then 16
  else 4.

Definition chunk_size (size : Z) : Z :=
  let chunkSize := chunk_units size in
  let chunkSize := u32 (chunkSize * (128 * 1024)) in
  if size <? chunkSize then u32 size else chunkSize.

(** [response] after [ftdi_read_data] has put [data] at its start. *)
Definition received (data resp : list Z) (respLen : Z) : list Z :=
  let data := take (Z.to_nat respLen) data in
  take (length resp) (data ++ drop (length data) resp).

(** ** main.c: the device functions *)

Section Device.

Context {F : Type} `{Platform F}.

(** The global [verbosity]; only [main] changes it. *)
Variable verbosity : Z.

Local Abbreviation M := (M F).

Definition fprintf_stderr (m : message) : M unit := emit (EvStderr m).
Definition printf (m : message) : M unit := emit (EvStdout m).
Definition usleep (usec : Z) : M unit := emit (EvUsleep usec).

Definition ftdi_write_data (buf : buffer) (size : Z) : M Z :=
  fun d =>
    let '(f, r) := usb_write (ftdi d) buf size in
    (r, mkDrive f (version d) (variant d), [EvWrite buf size r]).

Definition ftdi_read_data (size : Z) : M (Z * list Z) :=
  fun d =>
    let '(f, (r, data)) := usb_read (ftdi d) size in
    ((r, data), mkDrive f (version d) (variant d), [EvRead size r data]).

Definition ftdi_usb_purge_buffers : M unit :=
  fun d =>
    (tt, mkDrive (usb_purge (ftdi d)) (version d) (variant d), [EvPurge]).

Definition ftdi_write_data_set_chunksize (chunksize : Z) : M Z :=
  fun d =>
    let '(f, r) := usb_write_chunksize (ftdi d) chunksize in
    (r, mkDrive f (version d) (variant d), [EvWriteChunksize chunksize r]).

Definition ftdi_read_data_set_chunksize (chunksize : Z) : M Z :=
  fun d =>
    let '(f, r) := usb_read_chunksize (ftdi d) chunksize in
    (r, mkDrive f (version d) (variant d), [EvReadChunksize chunksize r]).

Definition get_variant : M (Z * Z * Z) := fun d => (variant d, d, []).
Definition set_variant (v : Z * Z * Z) : M unit :=
  fun d => (tt, mkDrive (ftdi d) (version d) v, []).

(** [device_send_cmd] (lines 94-132): gives the returned [int] and the
    contents of [resp] afterwards. *)
Definition device_send_cmd (cmd : Z) (nParams : nat) (params : list Z)
    (resp : list Z) (respLen : Z) : M (Z * list Z) :=
  if (32 / 4 <=? nParams)%nat then
    fprintf_stderr TooManyParams ;;;
    ret (-1, resp)
  else
    when (2 <? verbosity) (printf (SendingCommand cmd)) ;;;
    err <- ftdi_write_data (Bytes (cmd_frame host_order cmd nParams params))
             (4 + Z.of_nat nParams * 4) ;;
    if err <=? 0 then
      fprintf_stderr (SendCmdWriteFailed cmd) ;;;
      ret (err, resp)
    else if 0 <? respLen then
      r <- ftdi_read_data respLen ;;
      let err := fst r in
      let resp := received (snd r) resp respLen in
      when (err <=? 0) (fprintf_stderr (SendCmdReadFailed cmd)) ;;;
      ret (err, resp)
    else ret (err, resp).

(** The [while(1)] of [device_get_version] (lines 145-170); [None] when
    [fuel] iterations were not enough. *)
Fixpoint get_version_loop (fuel : nat) (tries : Z) (response : list Z)
  : M (option version_exit) :=
  match fuel with
  | O => ret None
  | S fuel =>
      r <- device_send_cmd DEV_CMD_GETVER 0 [] response 64 ;;
      let err := fst r in
      let response := snd r in
      if err <=? 0 then
        fprintf_stderr GetVersionFailed ;;;
        ret (Some (VerIoError err))
      else
        let magic := swap_endian (load_u32 host_order response 4) in
        if magic =? DEV_MAGIC then ret (Some (VerOk response))
        else
          when (0 <? verbosity) (fprintf_stderr (IncorrectMagic magic)) ;;;
          let tries := tries + 1 in
          if 4 <=? tries then
            fprintf_stderr CommunicationFailure ;;;
            ret (Some VerCommFailure)
          else get_version_loop fuel tries response
  end.

(** [device_get_version] (lines 135-179) with its exits named.
    [response] is the content of the array of that name when the function
    starts, which C leaves indeterminate. *)
Definition device_get_version_exit (response : list Z)
  : M (option version_exit) :=
  r <- device_send_cmd DEV_CMD_GETVER 0 [] response 64 ;;
  let err := fst r in
  let response := snd r in
  if err <=? 0 then
    fprintf_stderr GetVersionFailed ;;;
    ret (Some (VerIoError err))
  else
    e <- get_version_loop 4 0 response ;;
    match e with
    | Some (VerOk response) =>
        set_variant
          (response !!! 0%nat, response !!! 1%nat, response !!! 2%nat) ;;;
        ret e
    | _ => ret e
    end.

Definition device_get_version (response : list Z) : M (option Z) :=
  e <- device_get_version_exit response ;;
  ret (option_map version_status e).

(** The [for(tries ...)] of the two transfer functions (lines 233-241 and
    306-314), [xfer] being the raw transfer of the chunk and [n] the
    variable [nSent] or [nRecv]; [tries_left] is [5 - tries]. *)
Fixpoint retry_loop (xfer : M Z) (tries_left : nat) (n : Z) : M Z :=
  match tries_left with
  | O => ret n
  | S tries_left =>
      n <- xfer ;;
      if 0 <? n then ret n
      else
        usleep 10000 ;;;
        ftdi_usb_purge_buffers ;;;
        retry_loop xfer tries_left n
  end.

(** The packed second parameter of LOADRAM and DUMPRAM. *)
Definition size_and_bank (chunkSize bank : Z) : Z :=
  u32 (Z.lor (Z.land chunkSize 0xffffff) (Z.shiftl bank 24)).

(** One iteration of the loop of [device_upload] (lines 228-255).
    [readPos] is an [int64_t]: it stays below [size + 2^31], and the
    additions are taken not to overflow. *)
Definition upload_chunk (chunkSize size bank : Z) (l : locals) : M step :=
  let file := fread (file l) chunkSize in
  let params := [offset l; size_and_bank chunkSize bank] in
  device_send_cmd DEV_CMD_LOADRAM 2 params [] 0 ;;;
  nSent <- retry_loop (ftdi_write_data Payload chunkSize) 5 (-1) ;;
  if nSent <=? 0 then
    fprintf_stderr (UploadWriteFailed (readPos l)) ;;;
    ret (Return nSent (mkLocals (offset l) (readPos l) file))
  else
    let offset := u32 (offset l + nSent) in
    let readPos := readPos l + nSent in
    when (0 <=? verbosity)
      (printf (UploadProgress (Z.quot (readPos * 100) size))) ;;;
    ret (Next (mkLocals offset readPos file)).

Fixpoint upload_loop (fuel : nat) (chunkSize size bank : Z) (l : locals)
  : M (option (transfer_exit * locals)) :=
  if readPos l <? size then
    match fuel with
    | O => ret None
    | S fuel =>
        r <- upload_chunk chunkSize size bank l ;;
        match r with
        | Return nSent l => ret (Some (XferAborted nSent, l))
        | Next l => upload_loop fuel chunkSize size bank l
        end
    end
  else ret (Some (XferDone, l)).

(** The size [device_upload] transfers, and the file after the seeks. *)
Definition upload_size (file : FILE) (size : Z) : Z * FILE :=
  if size <? 0 then
    let cur := ftell file in
    let file := fseek_end file in
    let size := ftell file - cur in
    (size, fseek_set file cur)
  else (size, file).

(** [device_upload] (lines 182-260) with its exits named and its local
    variables at the exit; the loop may take [fuel] iterations. *)
Definition device_upload_exit (fuel : nat) (file : FILE) (size offset bank : Z)
  : M (option (transfer_exit * locals)) :=
  let '(size, file) := upload_size file size in
  let l := mkLocals offset 0 file in
  let chunkSize := chunk_units size in
  when (1 <? verbosity)
    (printf (ChunkSizeIs chunkSize
       (Z.land (u32 (chunkSize * 128 * 1024)) 0xffffff))) ;;;
  let chunkSize := chunk_size size in
  if negb (malloc_ok chunkSize) then
    fprintf_stderr UploadOutOfMemory ;;;
    ret (Some (XferNoMemory, l))
  else
    err <- ftdi_write_data_set_chunksize chunkSize ;;
    if negb (err =? 0) then
      fprintf_stderr UploadSetChunkFailed ;;;
      ret (Some (XferChunksizeError err, l))
    else
      when (0 <? verbosity)
        (printf (UploadingKbytes (Z.quot size 1024) offset)) ;;;
      r <- upload_loop fuel chunkSize size bank l ;;
      match r with
      | Some (XferDone, _) =>
          when (0 <=? verbosity) (printf UploadDone) ;;;
          ret r
      | _ => ret r
      end.

Definition device_upload (fuel : nat) (file : FILE) (size offset bank : Z)
  : M (option Z) :=
  r <- device_upload_exit fuel file size offset bank ;;
  ret (option_map (fun x => transfer_status (fst x)) r).

(** One iteration of the loop of [device_download] (lines 303-329). *)
Definition download_chunk (chunkSize size bank : Z) (l : locals) : M step :=
  let params := [offset l; size_and_bank chunkSize bank] in
  device_send_cmd DEV_CMD_DUMPRAM 2 params [] 0 ;;;
  nRecv <- retry_loop (r <- ftdi_read_data chunkSize ;; ret (fst r)) 5 (-1) ;;
  if nRecv <=? 0 then
    fprintf_stderr (DownloadReadFailed (readPos l)) ;;;
    ret (Return nRecv l)
  else
    let file := fwrite (file l) nRecv in
    let offset := u32 (offset l + nRecv) in
    let readPos := readPos l + nRecv in
    when (0 <=? verbosity)
      (printf (DownloadProgress (Z.quot (readPos * 100) size))) ;;;
    ret (Next (mkLocals offset readPos file)).

Fixpoint download_loop (fuel : nat) (chunkSize size bank : Z) (l : locals)
  : M (option (transfer_exit * locals)) :=
  if readPos l <? size then
    match fuel with
    | O => ret None
    | S fuel =>
        r <- download_chunk chunkSize size bank l ;;
        match r with
        | Return nRecv l => ret (Some (XferAborted nRecv, l))
        | Next l => download_loop fuel chunkSize size bank l
        end
    end
  else ret (Some (XferDone, l)).

(** The size [device_download] transfers. *)
Definition download_size (size : Z) : Z :=
  if size <? 0 then 256 * 1024 * 1024 else size.

(** [device_download] (lines 263-334) with its exits named. *)
Definition device_download_exit (fuel : nat) (file : FILE)
    (size offset bank : Z) : M (option (transfer_exit * locals)) :=
  let size := download_size size in
  let l := mkLocals offset 0 file in
  let chunkSize := chunk_units size in
  when (1 <? verbosity)
    (printf (ChunkSizeIs chunkSize (u32 (chunkSize * 128 * 1024)))) ;;;
  let chunkSize := chunk_size size in
  if negb (malloc_ok chunkSize) then
    fprintf_stderr DownloadOutOfMemory ;;;
    ret (Some (XferNoMemory, l))
  else
    err <- ftdi_read_data_set_chunksize chunkSize ;;
    if negb (err =? 0) then
      fprintf_stderr DownloadSetChunkFailed ;;;
      ret (Some (XferChunksizeError err, l))
    else
      when (0 <? verbosity) (printf (DownloadingKbytes (Z.quot size 1024))) ;;;
      r <- download_loop fuel chunkSize size bank l ;;
      match r with
      | Some (XferDone, _) =>
          when (0 <=? verbosity) (printf DownloadDone) ;;;
          ret r
      | _ => ret r
      end.

Definition device_download (fuel : nat) (file : FILE) (size offset bank : Z)
  : M (option Z) :=
  r <- device_download_exit fuel file size offset bank ;;
  ret (option_map (fun x => transfer_status (fst x)) r).

(** [device_set_cic] (lines 337-347); [1 << 31] is the [int] of lowest
    value. *)
Definition device_set_cic (cic : Z) : M Z :=
  v <- get_variant ;;
  if fst (fst v) =? char "A" then
    fprintf_stderr CicNotSupported ;;;
    ret (-1)
  else
    when (0 <? verbosity) (printf (SelectingCic cic)) ;;;
    let param := u32 (Z.lor (s32 (Z.shiftl 1 31)) cic) in
    r <- device_send_cmd DEV_CMD_SETCIC 1 [param] [] 0 ;;
    ret (fst r).

End Device.

Arguments device_send_cmd {F _} verbosity cmd nParams params resp respLen.
Arguments device_get_version_exit {F _} verbosity response.
Arguments device_get_version {F _} verbosity response.
Arguments device_upload_exit {F _} verbosity fuel file size offset bank.
Arguments device_upload {F _} verbosity fuel file size offset bank.
Arguments device_download_exit {F _} verbosity fuel file size offset bank.
Arguments device_download {F _} verbosity fuel file size offset bank.
Arguments device_set_cic {F _} verbosity cic.

(** ** Reading a trace *)

(** The command frames handed to [ftdi_write_data], oldest first. *)
Fixpoint frames_written (t : list event) : list (list Z) :=
  match t with
  | [] => []
  | EvWrite (Bytes bs) _ _ :: t => bs :: frames_written t
  | _ :: t => frames_written t
  end.

(** What the raw transfers of payload returned, oldest first. *)
Fixpoint payload_returns (t : list event) : list Z :=
  match t with
  | [] => []
  | EvWrite Payload _ r :: t => r :: payload_returns t
  | EvRead _ r _ :: t => r :: payload_returns t
  | _ :: t => payload_returns t
  end.

(** The sizes the raw transfers of payload asked for. *)
Fixpoint payload_requests (t : list event) : list Z :=
  match t with
  | [] => []
  | EvWrite Payload n _ :: t => n :: payload_requests t
  | EvRead n _ _ :: t => n :: payload_requests t
  | _ :: t => payload_requests t
  end.

(** The bytes moved by the chunks: the returns above zero. *)
Definition chunk_bytes (t : list event) : list Z :=
  filter (fun r => 0 < r) (payload_returns t).

Definition sum (l : list Z) : Z := fold_right Z.add 0 l.

(** The calls of libftdi among the events. *)
Definition is_io (e : event) : bool :=
  match e with
  | EvWrite _ _ _ | EvRead _ _ _ | EvPurge
  | EvWriteChunksize _ _ | EvReadChunksize _ _ => true
  | _ => false
  end.

Definition io_events (t : list event) : list event :=
  List.filter is_io t.

(** The responses read back, oldest first. *)
Fixpoint responses_read (t : list event) : list (list Z) :=
  match t with
  | [] => []
  | EvRead _ _ data :: t => data :: responses_read t
  | _ :: t => responses_read t
  end.

(** ** A scripted link

    A link that follows a script: writing a command frame succeeds;
    a raw write of payload returns the next number of [writes], a read the
    next pair of [reads]; when the script is over, a transfer moves all
    that was asked for. *)

Record link := mkLink { writes : list Z; reads : list (Z * list Z) }.

Definition link_write (k : link) (buf : buffer) (size : Z) : link * Z :=
  match buf with
  | Bytes _ => (k, size)
  | Payload =>
      match writes k with
      | [] => (k, size)
      | r :: rest => (mkLink rest (reads k), r)
      end
  end.

Definition link_read (k : link) (size : Z) : link * (Z * list Z) :=
  match reads k with
  | [] => (k, (size, []))
  | r :: rest => (mkLink (writes k) rest, r)
  end.

Definition scripted (host : byte_order) : Platform link :=
  {| host_order := host;
     malloc_ok := fun _ => true;
     usb_write := link_write;
     usb_read := link_read;
     usb_purge := fun k => k;
     usb_write_chunksize := fun k _ => (k, 0);
     usb_read_chunksize := fun k _ => (k, 0) |}.

(** A 64-byte response to GETVER: the three variant bytes, then the second
    word. *)
Definition reply (v0 v1 v2 : Z) (word1 : Z) : Z * list Z :=
  (64, [v0; v1; v2; 0] ++ be_bytes word1 ++ replicate 56 0).

Definition drive0 (k : link) : sixtyfourDrive link := mkDrive k 2 (0, 0, 0).

#[export] Instance little_endian_host : Platform link :=
  scripted LittleEndian.

(** ** Vocabulary for the statements about the handshake *)

(** The lines printed on stderr, oldest first. *)
Fixpoint stderr_lines (t : list event) : list message :=
  match t with
  | [] => []
  | EvStderr m :: t => m :: stderr_lines t
  | _ :: t => stderr_lines t
  end.

(** The contents of the array [response] of [device_get_version] after
    each read, from its contents [resp] before and the bytes read. *)
Fixpoint buffers (resp : list Z) (datas : list (list Z)) : list (list Z) :=
  match datas with
  | [] => []
  | data :: datas =>
      let resp := received data resp 64 in
      resp :: buffers resp datas
  end.

(** [swap_endian(data[1])], the word [device_get_version] compares with
    the magic. *)
Definition magic_word (host : byte_order) (response : list Z) : Z :=
  swap_endian (load_u32 host response 4).

(** Bytes 4 to 7 of a response as a big-endian word. *)
Definition second_word_be (response : list Z) : Z :=
  Z.lor (Z.lor (Z.lor (Z.shiftl (response !!! 4%nat) 24)
                      (Z.shiftl (response !!! 5%nat) 16))
               (Z.shiftl (response !!! 6%nat) 8))
        (response !!! 7%nat).

(** The complaints about the responses [mism], when [verbosity > 0]. *)
Definition mismatch_lines (host : byte_order) (verbosity : Z)
    (mism : list (list Z)) : list message :=
  if 0 <? verbosity
  then map (fun r => IncorrectMagic (magic_word host r)) mism
  else [].

(** What a call of [device_get_version] is, as a relation between the
    array [response] and the device [d] before it, its exit [e], the device
    [d'] after it and its events [t].  The first response read is not
    looked at.  The call leaves through [VerOk r] when [r], read after at
    most three responses without the magic, has it: then the variant is the
    first three bytes of [r].  It leaves through [VerCommFailure] after
    five exchanges, the last four responses without the magic.  It never
    runs out of fuel. *)
Definition handshake_outcome {F : Type} `{Platform F} (verbosity : Z)
    (response : list Z) (d : sixtyfourDrive F) (e : option version_exit)
    (d' : sixtyfourDrive F) (t : list event) : Prop :=
  match e with
  | None => False
  | Some (VerIoError err) => err <= 0
  | Some VerCommFailure =>
      exists first mism,
        buffers response (responses_read t) = first :: mism
        /\ length mism = 4%nat
        /\ Forall (fun r => magic_word host_order r <> DEV_MAGIC) mism
        /\ length (frames_written t) = 5%nat
        /\ stderr_lines t
           = mismatch_lines host_order verbosity mism
             ++ [CommunicationFailure]
        /\ variant d' = variant d
  | Some (VerOk r) =>
      exists first mism,
        buffers response (responses_read t) = first :: mism ++ [r]
        /\ (length mism <= 3)%nat
        /\ Forall (fun r => magic_word host_order r <> DEV_MAGIC) mism
        /\ magic_word host_order r = DEV_MAGIC
        /\ length (frames_written t) = (2 + length mism)%nat
        /\ stderr_lines t = mismatch_lines host_order verbosity mism
        /\ variant d' = (r !!! 0%nat, r !!! 1%nat, r !!! 2%nat)
  end.

(** What the exchanges of a command and its response returned, oldest
    first: for each exchange the result of [device_send_cmd], which is that
    of the write of the frame when it failed and that of the read
    otherwise. *)
Fixpoint exchange_results (t : list event) : list Z :=
  match t with
  | [] => []
  | EvWrite (Bytes _) _ w :: t =>
      if w <=? 0 then w :: exchange_results t else exchange_results t
  | EvRead _ r _ :: t => r :: exchange_results t
  | _ :: t => exchange_results t
  end.

(** A read that delivered at least the first two words of a response. *)
Definition full_response (data : list Z) : Prop :=
  (8 <= length data)%nat /\ Forall is_u8 data.

(** Every read that reports progress delivered at least the first two
    words of a response. *)
Definition full_reads (t : list event) : Prop :=
  Forall (fun e => match e with
                   | EvRead _ r data => 0 < r -> full_response data
                   | _ => True
                   end) t.

(** The response carries the magic as its second big-endian word. *)
Definition has_magic (r : list Z) : Prop := second_word_be r = DEV_MAGIC.

(** The complaints about the responses [mism], when [verbosity > 0]. *)
Definition mismatch_reports (verbosity : Z) (mism : list (list Z))
  : list message :=
  if 0 <? verbosity
  then map (fun r => IncorrectMagic (second_word_be r)) mism
  else [].

(** A call of [device_get_version] told by what the device sent: its exit
    [e], the [int] it returns, the device before and after, and its events.
    [reads] are the responses in the order they were read and [sts] what
    the exchanges returned.  An exchange that returns zero or less ends the
    call with that value, whatever was read before.  Otherwise the first
    response is not looked at; the call accepts the first of the next four
    that has the magic and takes the variant from it; when none of the four
    has it, the call ends with -1 after five exchanges. *)
Definition handshake_responses {F : Type} (verbosity : Z)
    (e : option version_exit) (status : option Z)
    (d d' : sixtyfourDrive F) (t : list event) : Prop :=
  let sts := exchange_results t in
  let reads := responses_read t in
  length (frames_written t) = length sts
  /\ match e with
     | None => False
     | Some (VerIoError err) =>
         status = Some err /\ err <= 0
         /\ exists oks,
              sts = oks ++ [err]
              /\ Forall (fun s => 0 < s) oks
              /\ (length oks <= 4)%nat
              /\ Forall (fun r => ~ has_magic r)
                   (take (length oks - 1) (drop 1 reads))
              /\ variant d' = variant d
     | Some VerCommFailure =>
         status = Some (-1)
         /\ Forall (fun s => 0 < s) sts
         /\ length sts = 5%nat
         /\ exists first mism,
              reads = first :: mism
              /\ length mism = 4%nat
              /\ Forall (fun r => ~ has_magic r) mism
              /\ stderr_lines t
                 = mismatch_reports verbosity mism ++ [CommunicationFailure]
              /\ variant d' = variant d
     | Some (VerOk _) =>
         Forall (fun s => 0 < s) sts
         /\ exists first mism resp,
              reads = first :: mism ++ [resp]
              /\ (length mism <= 3)%nat
              /\ Forall (fun r => ~ has_magic r) mism
              /\ has_magic resp
              /\ length sts = (2 + length mism)%nat
              /\ stderr_lines t = mismatch_reports verbosity mism
              /\ variant d' = (resp !!! 0%nat, resp !!! 1%nat, resp !!! 2%nat)
              /\ status = Some (pack_variant resp)
     end.

(** ** Vocabulary for the statements about the chunk loop *)

(** [e] is a raw transfer of payload that asked for [chunkSize] bytes and
    returned [r]. *)
Definition is_attempt (chunkSize r : Z) (e : event) : Prop :=
  e = EvWrite Payload chunkSize r \/ exists data, e = EvRead chunkSize r data.

Definition failed_attempt (chunkSize : Z) (e : event) : Prop :=
  exists r, r <= 0 /\ is_attempt chunkSize r e.

(** Attempts that failed, each followed by the wait of 10 ms and the
    purge. *)
Definition backoff (attempts : list event) : list event :=
  flat_map (fun e => [e; EvUsleep 10000; EvPurge]) attempts.

(** No call of libftdi that moves payload, and no frame. *)
Definition silent (t : list event) : Prop :=
  payload_returns t = [] /\ payload_requests t = [] /\ frames_written t = [].

(** What one iteration of a chunk loop is, as a relation between the local
    variables [l] before it, what it does ([r]) and its events ([t]):
    the command [cmd] with the parameters [offset] and size-and-bank goes
    out once ([pre]); then either five attempts fail and the iteration
    returns after the complaint [failmsg readPos], the local variables
    unchanged but for the file; or fewer than five fail, one moves
    [n > 0] bytes, and [offset] and [readPos] advance by [n]. *)
Definition chunk_outcome (host : byte_order) (failmsg : Z -> message)
    (cmd chunkSize bank : Z) (l : locals) (r : step) (t : list event)
  : Prop :=
  exists pre fails,
    payload_returns pre = [] /\ payload_requests pre = []
    /\ frames_written pre
       = [cmd_frame host cmd 2 [offset l; size_and_bank chunkSize bank]]
    /\ Forall (failed_attempt chunkSize) fails
    /\ ((exists n f,
           r = Return n (mkLocals (offset l) (readPos l) f)
           /\ n <= 0 /\ length fails = 5%nat
           /\ t = pre ++ backoff fails
                  ++ [EvStderr (failmsg (readPos l))])
        \/ (exists n f e post,
              r = Next (mkLocals (u32 (offset l + n)) (readPos l + n) f)
              /\ 0 < n /\ (length fails < 5)%nat
              /\ is_attempt chunkSize n e /\ silent post
              /\ t = pre ++ backoff fails ++ [e] ++ post)).

(** A frame of the command [cmd] that carries the size [chunkSize] and the
    bank [bank], at whatever offset. *)
Definition is_chunk_frame (host : byte_order) (cmd chunkSize bank : Z)
    (fr : list Z) : Prop :=
  exists o, fr = cmd_frame host cmd 2 [o; size_and_bank chunkSize bank].

(** What a whole call of size [size] at [offset0] is, as a relation between
    its exit [e], its local variables [l'] then and its events [t]: at most
    [size] frames; [readPos] is the sum of the bytes the chunks moved and
    [offset] has advanced by it; every raw transfer asked for the one chunk
    size of the call, and every frame carries it; the loop is left with
    [readPos] at [size] or beyond, or after five failed attempts and the
    complaint that tells [readPos]. *)
Definition call_outcome {F : Type} `{Platform F}
    (failmsg : Z -> message) (cmd : Z)
    (size offset0 bank : Z) (e : transfer_exit) (l' : locals)
    (t : list event) : Prop :=
  (length (frames_written t) <= Z.to_nat size)%nat
  /\ readPos l' = sum (chunk_bytes t)
  /\ offset l' = u32 (offset0 + sum (chunk_bytes t))
  /\ Forall (eq (chunk_size size)) (payload_requests t)
  /\ Forall (is_chunk_frame host_order cmd (chunk_size size) bank)
       (frames_written t)
  /\ match e with
     | XferDone => size <= readPos l'
     | XferAborted n =>
         n <= 0 /\ readPos l' < size
         /\ exists before fails,
              t = before ++ backoff fails
                  ++ [EvStderr (failmsg (readPos l'))]
              /\ length fails = 5%nat
              /\ Forall (failed_attempt (chunk_size size)) fails
              /\ readPos l' = sum (chunk_bytes before)
     | XferNoMemory => malloc_ok (chunk_size size) = false
     | XferChunksizeError err => err <> 0
     end.

(** The shape the two chunk loops share. *)
Fixpoint chunk_loop {F} (chunk : locals -> M F step) (fuel : nat) (size : Z)
    (l : locals) : M F (option (transfer_exit * locals)) :=
  if readPos l <? size then
    match fuel with
    | O => ret None
    | S fuel =>
        r <- chunk l ;;
        match r with
        | Return n l => ret (Some (XferAborted n, l))
        | Next l => chunk_loop chunk fuel size l
        end
    end
  else ret (Some (XferDone, l)).

(** ** main.c: finding and setting up the device

    [fail_ftdi] (lines 57-60), [device_open], [device_init] and
    [setup_device] (lines 350-429).  They use calls of libftdi that the
    device functions above do not use; those calls and what is printed
    here are events of their own, and the events of [device_get_version]
    are carried among them. *)

(** <stdlib.h> of glibc. *)
Definition EXIT_SUCCESS : Z := 0.
Definition EXIT_FAILURE : Z := 1.

(** <libftdi1/ftdi.h>, [enum ftdi_mpsse_mode]. *)
Definition BITMODE_RESET : Z := 0x00.
Definition BITMODE_SYNCFF : Z := 0x40.

(** The table [devices] of [device_open]: vendor, product, hardware
    version, description; the terminating entry is the end of the list. *)
Definition devices : list (Z * Z * Z * string) :=
  [ (0x0403, 0x6014, 2, "64drive USB device");
    (0x0403, 0x6010, 1, "64drive USB device A") ].

Inductive setup_message :=
(* stderr *)
| FailFtdi (msg : string)
| DeviceOpenError
| DeviceNotFound
(* stdout *)
| FoundVersion (version : Z)
| ResettingDevice
| SettingSynchronousMode
| PurgingBuffers.

Inductive setup_event :=
| SeNew (ok : bool)
| SeOpenDesc (vendor product : Z) (description : string) (ret : Z)
| SeReset (ret : Z)
| SeSetBitmode (bitmask mode ret : Z)
| SeSetLatencyTimer (latency ret : Z)
| SePurgeBuffers (ret : Z)
| SeFree
| SeDeinit
| SeStderr (m : setup_message)
| SeStdout (m : setup_message)
| SeDevice (e : event).

(** The rest of libftdi, as a state machine over the same contents [F] of
    [struct ftdi_context]: [ftdi_new] gives a context or NULL; the other
    calls return an [int], of which nothing is assumed. *)
Class Driver (F : Type) := {
  new_context : option F;
  usb_open_desc : F -> Z -> Z -> string -> F * Z;
  usb_reset : F -> F * Z;
  usb_set_bitmode : F -> Z -> Z -> F * Z;
  usb_set_latency_timer : F -> Z -> F * Z;
  usb_purge_result : F -> Z
}.

(** The monad of the set-up: as [M], over the events of the set-up. *)
Definition SM (F A : Type) : Type :=
  sixtyfourDrive F -> A * sixtyfourDrive F * list setup_event.

Definition sret {F A} (a : A) : SM F A := fun d => (a, d, []).

Definition sbind {F A B} (c : SM F A) (k : A -> SM F B) : SM F B :=
  fun d =>
    let '(a, d1, t1) := c d in
    let '(b, d2, t2) := k a d1 in
    (b, d2, t1 ++ t2).

Definition semit {F} (e : setup_event) : SM F unit := fun d => (tt, d, [e]).

Definition swhen {F} (b : bool) (c : SM F unit) : SM F unit :=
  if b then c else sret tt.

(** A device function, run within the set-up. *)
Definition device {F A} (c : M F A) : SM F A :=
  fun d => let '(a, d1, t) := c d in (a, d1, map SeDevice t).

Declare Scope setup_scope.
Delimit Scope setup_scope with setup.
Notation "x <- c ;; k" := (sbind c (fun x => k))
  (at level 100, c at next level, right associativity) : setup_scope.
Notation "c ;;; k" := (sbind c (fun _ => k))
  (at level 100, right associativity) : setup_scope.

Definition sresult {F A} (r : A * sixtyfourDrive F * list setup_event) : A :=
  fst (fst r).
Definition sfinal {F A} (r : A * sixtyfourDrive F * list setup_event)
  : sixtyfourDrive F := snd (fst r).
Definition strace {F A} (r : A * sixtyfourDrive F * list setup_event)
  : list setup_event := snd r.

Section Setup.

Context {F : Type} `{Platform F} `{Driver F}.
Variable verbosity : Z.

Local Open Scope setup_scope.
Local Abbreviation SM := (SM F).

Definition setup_stderr (m : setup_message) : SM unit := semit (SeStderr m).
Definition setup_printf (m : setup_message) : SM unit := semit (SeStdout m).

Definition ftdi_usb_open_desc (vendor product : Z) (description : string)
  : SM Z :=
  fun d =>
    let '(f, r) := usb_open_desc (ftdi d) vendor product description in
    (r, mkDrive f (version d) (variant d),
     [SeOpenDesc vendor product description r]).

Definition ftdi_usb_reset : SM Z :=
  fun d =>
    let '(f, r) := usb_reset (ftdi d) in
    (r, mkDrive f (version d) (variant d), [SeReset r]).

Definition ftdi_set_bitmode (bitmask mode : Z) : SM Z :=
  fun d =>
    let '(f, r) := usb_set_bitmode (ftdi d) bitmask mode in
    (r, mkDrive f (version d) (variant d), [SeSetBitmode bitmask mode r]).

Definition ftdi_set_latency_timer (latency : Z) : SM Z :=
  fun d =>
    let '(f, r) := usb_set_latency_timer (ftdi d) latency in
    (r, mkDrive f (version d) (variant d), [SeSetLatencyTimer latency r]).

(** [ftdi_usb_purge_buffers] where its result is looked at. *)
Definition ftdi_usb_purge_buffers_result : SM Z :=
  fun d =>
    let r := usb_purge_result (ftdi d) in
    (r, mkDrive (usb_purge (ftdi d)) (version d) (variant d),
     [SePurgeBuffers r]).

Definition ftdi_free : SM unit := semit SeFree.
Definition ftdi_deinit : SM unit := semit SeDeinit.

Definition get_version_field : SM Z := fun d => (version d, d, []).
Definition set_version_field (v : Z) : SM unit :=
  fun d => (tt, mkDrive (ftdi d) v (variant d), []).

(** [fail_ftdi] (lines 57-60). *)
Definition fail_ftdi (msg : string) : SM Z :=
  setup_stderr (FailFtdi msg) ;;;
  sret EXIT_FAILURE.

(** [device_open] (lines 350-376), over the entries of the table that
    are left. *)
Fixpoint device_open_from (table : list (Z * Z * Z * string)) : SM Z :=
  match table with
  | [] => sret 0
  | (vid, pid, ver, descr) :: table =>
      err <- ftdi_usb_open_desc vid pid descr ;;
      if err =? 0 then
        set_version_field ver ;;;
        get_version_field
      else
        swhen (negb (err =? -3)) (setup_stderr DeviceOpenError) ;;;
        device_open_from table
  end.

Definition device_open : SM Z := device_open_from devices.

(** [device_init] (lines 379-401); first its lines 393-400, which follow
    both branches of the test of the version. *)
Definition device_init_latency_and_purge : SM Z :=
  err <- ftdi_set_latency_timer 255 ;;
  if negb (err =? 0) then fail_ftdi "ftdi_set_latency_timer"
  else
    swhen (1 <? verbosity) (setup_printf PurgingBuffers) ;;;
    err <- ftdi_usb_purge_buffers_result ;;
    if negb (err =? 0) then fail_ftdi "ftdi_usb_purge_buffers"
    else sret 1.

Definition device_init : SM Z :=
  swhen (1 <? verbosity) (setup_printf ResettingDevice) ;;;
  err <- ftdi_usb_reset ;;
  if negb (err =? 0) then fail_ftdi "ftdi_usb_reset"
  else
    v <- get_version_field ;;
    if v =? 2 then
      swhen (1 <? verbosity) (setup_printf SettingSynchronousMode) ;;;
      err <- ftdi_set_bitmode 0xFF BITMODE_RESET ;;
      if negb (err =? 0) then fail_ftdi "ftdi_set_bitmode(BITMODE_RESET)"
      else
        err <- ftdi_set_bitmode 0xFF BITMODE_SYNCFF ;;
        if negb (err =? 0) then fail_ftdi "ftdi_set_bitmode(BITMODE_SYNCFF)"
        else device_init_latency_and_purge
    else device_init_latency_and_purge.

(** [setup_device] (lines 404-429) once [ftdi_new] has given a context;
    [response] is what the array of [device_get_version] holds at first.
    The result is [None] only if [device_get_version] does not return. *)
Definition setup_device_opened (response : list Z) : SM (option Z) :=
  ver <- device_open ;;
  if ver <? 1 then
    setup_stderr DeviceNotFound ;;;
    ftdi_free ;;;
    sret (Some EXIT_FAILURE)
  else
    v <- get_version_field ;;
    swhen (0 <? verbosity) (setup_printf (FoundVersion v)) ;;;
    ok <- device_init ;;
    if ok =? 0 then
      ftdi_deinit ;;;
      sret (Some EXIT_FAILURE)
    else
      status <- device (device_get_version verbosity response) ;;
      match status with
      | None => sret None
      | Some status =>
          if status <=? 0 then
            ftdi_deinit ;;;
            sret (Some EXIT_FAILURE)
          else sret (Some EXIT_SUCCESS)
      end.

(** [setup_device]: [version] and [variant] are the fields of [*device]
    as the caller left them; the structure afterwards is [None] when
    [device->ftdi] is NULL. *)
Definition setup_device (version : Z) (variant : Z * Z * Z)
    (response : list Z)
  : option Z * option (sixtyfourDrive F) * list setup_event :=
  match new_context with
  | None =>
      (* [fail_ftdi(NULL, "ftdi_new")] *)
      (Some EXIT_FAILURE, None, [SeNew false; SeStderr (FailFtdi "ftdi_new")])
  | Some f =>
      let '(r, d, t) :=
        setup_device_opened response (mkDrive f version variant) in
      (r, Some d, SeNew true :: t)
  end.

End Setup.

Arguments device_open {F _} d.
Arguments device_init {F _ _} verbosity d.
Arguments setup_device_opened {F _ _} verbosity response d.
Arguments setup_device {F _ _} verbosity version variant response.

(** The events of the device functions among those of the set-up. *)
Fixpoint device_events (t : list setup_event) : list event :=
  match t with
  | [] => []
  | SeDevice e :: t => e :: device_events t
  | _ :: t => device_events t
  end.

(** What the calls of libftdi made by the set-up itself returned, oldest
    first. *)
Fixpoint setup_returns (t : list setup_event) : list Z :=
  match t with
  | [] => []
  | SeOpenDesc _ _ _ r :: t | SeReset r :: t | SeSetBitmode _ _ r :: t
  | SeSetLatencyTimer _ r :: t | SePurgeBuffers r :: t =>
      r :: setup_returns t
  | _ :: t => setup_returns t
  end.

(** The lines the set-up itself printed on stderr, oldest first. *)
Fixpoint setup_stderr_lines (t : list setup_event) : list setup_message :=
  match t with
  | [] => []
  | SeStderr m :: t => m :: setup_stderr_lines t
  | _ :: t => setup_stderr_lines t
  end.

(** The attempts to open a device: product id and result. *)
Fixpoint opens (t : list setup_event) : list (Z * Z) :=
  match t with
  | [] => []
  | SeOpenDesc _ product _ r :: t => (product, r) :: opens t
  | _ :: t => opens t
  end.

(** An event of looking for the device or of initialising it: a call of
    libftdi made for that, or a line other than "not found". *)
Definition preparation_event (e : setup_event) : Prop :=
  match e with
  | SeOpenDesc _ _ _ _ | SeReset _ | SeSetBitmode _ _ _
  | SeSetLatencyTimer _ _ | SePurgeBuffers _ | SeStdout _ => True
  | SeStderr DeviceOpenError | SeStderr (FailFtdi _) => True
  | _ => False
  end.

(** A driver whose calls return the same numbers whenever they are
    made: [open_hw2] and [open_hw1] for the two products; [fresh] is what
    [ftdi_new] gives. *)
Definition constant_driver (fresh : option link) (open_hw2 open_hw1 reset
    bitmode latency purge : Z) : Driver link :=
  {| new_context := fresh;
     usb_open_desc := fun k _ product _ =>
       (k, if product =? 0x6014 then open_hw2 else open_hw1);
     usb_reset := fun k => (k, reset);
     usb_set_bitmode := fun k _ _ => (k, bitmode);
     usb_set_latency_timer := fun k _ => (k, latency);
     usb_purge_result := fun _ => purge |}.

(** ** main.c: the option [-b] (lines 515-531) *)

Definition BANK_INVALID : Z := 0.
Definition BANK_SRAM256 : Z := 2.
Definition BANK_SRAM768 : Z := 3.
Definition BANK_FLASHRAM1M : Z := 4.
Definition BANK_FLASHPKM1M : Z := 5.
Definition BANK_EEPROM16 : Z := 6.

(** [banks]; the terminating [{NULL, 0}] is the end of the list. *)
Definition banks : list (string * Z) :=
  [ ("rom", BANK_CARTROM); ("sram256", BANK_SRAM256);
    ("sram768", BANK_SRAM768); ("flash", BANK_FLASHRAM1M);
    ("pokemon", BANK_FLASHPKM1M); ("eeprom", BANK_EEPROM16) ].

(** The search of [banks] by name, from [bank = -1]. *)
Fixpoint find_bank (table : list (string * Z)) (optarg : string) : Z :=
  match table with
  | [] => -1
  | (name, bank) :: table =>
      if String.eqb optarg name then bank else find_bank table optarg
  end.

(** [case 'b'] of [main]: the bank selected, or [None] when the program
    prints "Invalid bank" and exits.  [atoi] is the function of the C
    library. *)
Definition bank_option (atoi : string -> Z) (optarg : string) : option Z :=
  let bank := find_bank banks optarg in
  if bank <? 0 then
    let bank := atoi optarg in
    if (bank <? 0) || (BANK_LAST <=? bank) then None
    else Some bank
  else Some bank.

(** What [atoi] gives for a string that starts with decimal digits, or
    with none: the number they write, 0 when there is none. *)
Fixpoint decimal_from (acc : Z) (s : string) : Z :=
  match s with
  | EmptyString => acc
  | String c s =>
      let n := char c - char "0" in
      if (0 <=? n) && (n <=? 9) then decimal_from (10 * acc + n) s
      else acc
  end.

Definition decimal (s : string) : Z := decimal_from 0 s.

(** ** main.c: the option loop of [main] (lines 498-647)

    [main] as a function of what [getopt_long] returns, call after call:
    the option character and [optarg].  What the C library and the device
    functions do is outside: [atoi], [strtoul], whether the [fopen] of the
    option at a given place succeeds, and what the one call of
    [setup_device] returns.  The loop passes on what it asks of the device
    as events; it does not look at what the device functions return. *)

Module Main.

(** The second argument of [getopt_long] and the table [long_options]:
    name, whether an argument is required, and the value returned. *)
Definition optstring : string := "b:c:d:hil:Lo:qs:v".

Definition long_options : list (string * bool * Z) :=
  [ ("bank", true, char "b"); ("cic", true, char "c");
    ("dump", true, char "d"); ("help", false, char "h");
    ("info", false, char "i"); ("load", true, char "l");
    ("list-devices", false, char "L"); ("offset", true, char "o");
    ("quiet", false, char "q"); ("size", true, char "s");
    ("verbose", false, char "v") ].

(** The conversion of an [unsigned long] to [int64_t]. *)
Definition s64 (z : Z) : Z := (z + 2 ^ 63) mod 2 ^ 64 - 2 ^ 63.

Record environment := mkEnvironment {
  atoi : string -> Z;
  strtoul : string -> Z;
  fopen : nat -> string -> bool;
  setup_device_result : Z
}.

(** The variables of [main], the global [verbosity] and the static
    [is_setup] of [setup_or_die]. *)
Record state := mkState {
  bank : Z;
  fileSize : Z;
  fileOffset : Z;
  verbosity : Z;
  is_setup : bool
}.

Inductive event :=
| ShowHelp
| InvalidBank
| InvalidCic
| SetupDevice (err : Z)
| DeviceSetCic (verbosity cic : Z)
| DeviceGetVersion (verbosity : Z)
| FailedOpening (path : string)
| DeviceDownload (verbosity : Z) (path : string) (size offset bank : Z)
| DeviceUpload (verbosity : Z) (path : string) (size offset bank : Z)
| ListDevices (with_context : bool)
| GetoptReturned (c : Z)
| ShutdownDevice.

(** [setup_or_die] (lines 489-495): [None] is [exit(err)]. *)
Definition setup_or_die (env : environment) (st : state)
  : list event * option state :=
  if is_setup st then ([], Some st)
  else
    let err := setup_device_result env in
    if negb (err =? 0) then ([SetupDevice err], None)
    else
      ([SetupDevice err],
       Some (mkState (bank st) (fileSize st) (fileOffset st) (verbosity st)
               true)).

(** [case 'd'] and [case 'l'] once the device is set up: the transfer, or
    the complaint that the file could not be opened.  [offset] is a
    [uint32_t] parameter of the device functions. *)
Definition transfer (env : environment) (i : nat)
    (call : Z -> string -> Z -> Z -> Z -> event) (optarg : string)
    (st : state) : list event * state :=
  let verbosity := if String.eqb optarg "-" then -1 else verbosity st in
  let file := if String.eqb optarg "-" then true else fopen env i optarg in
  let st := mkState (bank st) (fileSize st) (fileOffset st) verbosity
              (is_setup st) in
  if negb file then ([FailedOpening optarg], st)
  else
    ([call verbosity optarg (fileSize st) (u32 (fileOffset st)) (bank st)],
     mkState (bank st) (-1) 0 verbosity (is_setup st)).

(** One turn of the [while(1)] of [main] for the option [c]: the events,
    and the state to go on with or the value [main] returns or exits
    with. *)
Definition option_case (env : environment) (i : nat) (c : Z)
    (optarg : string) (st : state) : list event * (state + Z) :=
  if c =? char "b" then
    match bank_option (atoi env) optarg with
    | None => ([InvalidBank], inr EXIT_FAILURE)
    | Some bank =>
        ([], inl (mkState bank (fileSize st) (fileOffset st) (verbosity st)
                    (is_setup st)))
    end
  else if c =? char "c" then
    match find_cic cic_types 0 (atoi env optarg) with
    | Some cic =>
        match setup_or_die env st with
        | (t, None) => (t, inr (setup_device_result env))
        | (t, Some st) => (t ++ [DeviceSetCic (verbosity st) cic], inl st)
        end
    | None => ([InvalidCic], inr EXIT_FAILURE)
    end
  else if c =? char "d" then
    match setup_or_die env st with
    | (t, None) => (t, inr (setup_device_result env))
    | (t, Some st) =>
        let '(t', st) := transfer env i DeviceDownload optarg st in
        (t ++ t', inl st)
    end
  else if c =? char "h" then ([ShowHelp], inr EXIT_SUCCESS)
  else if c =? char "i" then
    match setup_or_die env st with
    | (t, None) => (t, inr (setup_device_result env))
    | (t, Some st) => (t ++ [DeviceGetVersion (verbosity st)], inl st)
    end
  else if c =? char "l" then
    match setup_or_die env st with
    | (t, None) => (t, inr (setup_device_result env))
    | (t, Some st) =>
        let '(t', st) := transfer env i DeviceUpload optarg st in
        (t ++ t', inl st)
    end
  else if c =? char "L" then ([ListDevices (is_setup st)], inl st)
  else if c =? char "o" then
    ([], inl (mkState (bank st) (fileSize st) (s64 (strtoul env optarg))
                (verbosity st) (is_setup st)))
  else if c =? char "q" then
    ([], inl (mkState (bank st) (fileSize st) (fileOffset st) (-1)
                (is_setup st)))
  else if c =? char "v" then
    ([], inl (mkState (bank st) (fileSize st) (fileOffset st)
                (verbosity st + 1) (is_setup st)))
  else if c =? char "z" then
    ([], inl (mkState (bank st) (s64 (strtoul env optarg)) (fileOffset st)
                (verbosity st) (is_setup st)))
  else ([GetoptReturned c], inl st).

(** The loop over the options that [getopt_long] returns before it
    returns a negative number; [i] counts them. *)
Fixpoint option_loop (env : environment) (i : nat)
    (options : list (Z * string)) (st : state) : list event * Z :=
  match options with
  | [] => ([ShutdownDevice], EXIT_SUCCESS)
  | (c, optarg) :: options =>
      match option_case env i c optarg st with
      | (t, inr code) => (t, code)
      | (t, inl st) =>
          let '(t', code) := option_loop env (S i) options st in
          (t ++ t', code)
      end
  end.

Definition initial : state := mkState BANK_CARTROM (-1) 0 0 false.

Definition main (env : environment) (argc : Z) (options : list (Z * string))
  : list event * Z :=
  if argc <? 2 then ([ShowHelp], EXIT_SUCCESS)
  else option_loop env 0 options initial.

(** What [getopt_long] may return for [optstring] and [long_options]: a
    letter of [optstring], the value of a long option, or ['?']. *)
Definition getopt_returns (c : Z) : Prop :=
  c = char "?"
  \/ (c <> char ":" /\ In c (map char (String.list_ascii_of_string optstring)))
  \/ In c (map snd long_options).

(** The size, offset and bank handed to a transfer. *)
Definition transfer_arguments (e : event) : option (Z * Z * Z) :=
  match e with
  | DeviceDownload _ _ size offset bank
  | DeviceUpload _ _ size offset bank => Some (size, offset, bank)
  | _ => None
  end.

(** What the calls of [setup_device] returned, oldest first. *)
Fixpoint setups (t : list event) : list Z :=
  match t with
  | [] => []
  | SetupDevice err :: t => err :: setups t
  | _ :: t => setups t
  end.

(** An event that needs the device. *)
Definition uses_device (e : event) : bool :=
  match e with
  | DeviceSetCic _ _ | DeviceGetVersion _
  | DeviceDownload _ _ _ _ _ | DeviceUpload _ _ _ _ _ => true
  | _ => false
  end.

End Main.

(** ** main.c: [list_devices] (lines 63-91)

    The enumeration of libftdi.  [ftdi_usb_find_all] gives the number of
    devices or a negative error, and through [devices] a linked list with
    one node [(next, dev)] for each device, each node an allocation of its
    own.  [list_devices] does not follow [next]: it takes [devices[i].dev],
    which is the device of the first node when [i] is 0 and, for any other
    [i], a read outside that node, for which C defines no behaviour.  So
    [ftdi_usb_get_strings] is only ever asked about the device of the first
    node; it gives an [int] and the three strings. *)

Class Enumerator (F : Type) := {
  usb_find_all : F -> F * Z;
  usb_get_strings : F -> F * (Z * (string * string * string))
}.

Inductive list_message :=
(* stderr *)
| FindAllFailed
| GetStringsFailed (i : Z)
(* stdout *)
| FoundDevices (nDevices : Z)
| DeviceLine (i : Z) (description manufacturer serial : string).

(** [LeReadPastNode i] is the evaluation of [devices[i]] with [i] not 0. *)
Inductive list_event :=
| LeFindAll (ret : Z)
| LeGetStrings (i ret : Z)
| LeReadPastNode (i : Z)
| LeListFree
| LeStderr (m : list_message)
| LeStdout (m : list_message).

(** How a call of [list_devices] ends: with its [return], or in the read
    outside the first node. *)
Inductive list_exit :=
| ListReturned (nDevices : Z)
| ListUndefined.

(** The [for] of [list_devices], with [n] devices to go from index [i];
    the [bool] tells whether the loop came to its end. *)
Fixpoint list_devices_from {F : Type} `{Enumerator F} (n : nat) (i : Z)
    (ftdi : F) : bool * F * list list_event :=
  match n with
  | O => (true, ftdi, [])
  | S n =>
      if i =? 0 then
        let '(ftdi, (err, (manufacturer, description, serial))) :=
          usb_get_strings ftdi in
        let line :=
          if negb (err =? 0) then LeStderr (GetStringsFailed i)
          else LeStdout (DeviceLine i description manufacturer serial) in
        let '(ok, ftdi, t) := list_devices_from n (i + 1) ftdi in
        (ok, ftdi, LeGetStrings i err :: line :: t)
      else (false, ftdi, [LeReadPastNode i])
  end.

Definition list_devices {F : Type} `{Enumerator F} (ftdi : F)
  : list_exit * F * list list_event :=
  let '(ftdi, nDevices) := usb_find_all ftdi in
  if nDevices <? 0 then
    (ListReturned nDevices, ftdi,
     [LeFindAll nDevices; LeStderr FindAllFailed])
  else
    let '(ok, ftdi, t) := list_devices_from (Z.to_nat nDevices) 0 ftdi in
    if ok then
      (ListReturned nDevices, ftdi,
       LeFindAll nDevices :: LeStdout (FoundDevices nDevices) :: t
       ++ [LeListFree])
    else
      (ListUndefined, ftdi,
       LeFindAll nDevices :: LeStdout (FoundDevices nDevices) :: t).

(** The indices [ftdi_usb_get_strings] was called for, the lines printed
    and the number of times the list was freed. *)
Fixpoint strings_asked (t : list list_event) : list Z :=
  match t with
  | [] => []
  | LeGetStrings i _ :: t => i :: strings_asked t
  | _ :: t => strings_asked t
  end.

Fixpoint lines_printed (t : list list_event) : list list_message :=
  match t with
  | [] => []
  | LeStderr m :: t | LeStdout m :: t => m :: lines_printed t
  | _ :: t => lines_printed t
  end.

Fixpoint lists_freed (t : list list_event) : nat :=
  match t with
  | [] => 0
  | LeListFree :: t => S (lists_freed t)
  | _ :: t => lists_freed t
  end.

(** An enumerator that finds [n] devices and answers [err] when asked for
    the strings of the first. *)
Definition enumerator_of (n : Z) (err : Z) : Enumerator unit :=
  {| usb_find_all := fun f => (f, n);
     usb_get_strings := fun f =>
       (f, (err, ("FTDI", "64drive USB device", "A0001"))) |}.

(** ** Vocabulary for the further properties *)

(** An event that belongs to an exchange of GETVER: the write of the
    four-byte frame, a read of 64 bytes, or a printed line. *)
Definition handshake_event (e : event) : Prop :=
  match e with
  | EvWrite (Bytes bs) size _ =>
      bs = [DEV_CMD_GETVER; char "C"; char "M"; char "D"] /\ size = 4
  | EvRead size _ _ => size = 64
  | EvStderr _ | EvStdout _ => True
  | _ => False
  end.

(** The offsets of successive chunks that moved [bytes], from [offset]. *)
Fixpoint offsets_from (offset : Z) (bytes : list Z) : list Z :=
  match bytes with
  | [] => []
  | n :: bytes => offset :: offsets_from (u32 (offset + n)) bytes
  end.

(** The two transfer functions, told apart by their direction: the
    command they send, the size they transfer once the default is applied,
    and the call itself. *)
Inductive direction := Upload | Download.

Definition transfer_cmd (dir : direction) : Z :=
  match dir with
  | Upload => DEV_CMD_LOADRAM
  | Download => DEV_CMD_DUMPRAM
  end.

Definition transfer_size (dir : direction) (file : FILE) (size : Z) : Z :=
  match dir with
  | Upload => fst (upload_size file size)
  | Download => download_size size
  end.

Definition device_transfer_exit {F : Type} `{Platform F} (dir : direction)
    (verbosity : Z) (fuel : nat) (file : FILE) (size offset bank : Z)
  : M F (option (transfer_exit * locals)) :=
  match dir with
  | Upload => device_upload_exit verbosity fuel file size offset bank
  | Download => device_download_exit verbosity fuel file size offset bank
  end.

(** What a call does, its prints left out; and two runs that return the
    same, leave the device structure the same and do the same. *)
Definition is_print (e : event) : bool :=
  match e with
  | EvStderr _ | EvStdout _ => true
  | _ => false
  end.

Definition actions (t : list event) : list event :=
  List.filter (fun e => negb (is_print e)) t.

Definition same_outcome {F A : Type}
    (r1 r2 : A * sixtyfourDrive F * list event) : Prop :=
  result r1 = result r2 /\ final r1 = final r2
  /\ actions (trace r1) = actions (trace r2).

Definition transfer_failmsg (dir : direction) : Z -> message :=
  match dir with
  | Upload => UploadWriteFailed
  | Download => DownloadReadFailed
  end.

Definition device_transfer {F : Type} `{Platform F} (dir : direction)
    (verbosity : Z) (fuel : nat) (file : FILE) (size offset bank : Z)
  : M F (option Z) :=
  match dir with
  | Upload => device_upload verbosity fuel file size offset bank
  | Download => device_download verbosity fuel file size offset bank
  end.

(** The returns of the raw transfers of a chunk that was moved: fewer than
    five that failed, then one that moved bytes. *)
Definition chunk_returns (seg : list Z) : Prop :=
  exists fails n,
    seg = fails ++ [n] /\ Forall (fun r => r <= 0) fails
    /\ (length fails < 5)%nat /\ 0 < n.

(** A raw transfer of payload that failed. *)
Definition is_failed (e : event) : bool :=
  match e with
  | EvWrite Payload _ r | EvRead _ r _ => r <=? 0
  | _ => false
  end.

(** Every raw transfer that failed is followed at once by the wait of
    10 ms and the purge. *)
Fixpoint backed_off (t : list event) : Prop :=
  match t with
  | [] => True
  | e :: t =>
      (is_failed e = true -> exists t', t = EvUsleep 10000 :: EvPurge :: t')
      /\ backed_off t
  end.

(** What a whole call is as to retries, as a relation between its exit
    [e], its local variables [l'] then, the [int] it returns and its
    events [t].  Every failed attempt is followed by the wait and the
    purge.  The returns of the raw transfers are those of the chunks that
    were moved, each after fewer than five failures, and then either
    nothing more, or five failures: exactly then the call gives up.  It
    then returns the result of the fifth attempt, and its last event is
    the complaint on stderr that tells the bytes moved by the chunks
    before. *)
Definition retry_account (dir : direction) (e : transfer_exit) (l' : locals)
    (status : option Z) (t : list event) : Prop :=
  backed_off t
  /\ exists chunks tail,
       payload_returns t = concat chunks ++ tail
       /\ Forall chunk_returns chunks
       /\ match e with
          | XferAborted n =>
              length tail = 5%nat /\ Forall (fun r => r <= 0) tail
              /\ last tail = Some n
              /\ status = Some n
              /\ readPos l' = sum (chunk_bytes t)
              /\ last t
                 = Some (EvStderr (transfer_failmsg dir (sum (chunk_bytes t))))
          | _ => tail = []
          end.

(** A host on which [malloc] fails, and one on which libftdi refuses to
    set a chunk size and returns [err]; the link is the scripted one. *)
Definition out_of_memory : Platform link :=
  {| host_order := LittleEndian;
     malloc_ok := fun _ => false;
     usb_write := link_write;
     usb_read := link_read;
     usb_purge := fun k => k;
     usb_write_chunksize := fun k _ => (k, 0);
     usb_read_chunksize := fun k _ => (k, 0) |}.

Definition no_chunksize (err : Z) : Platform link :=
  {| host_order := LittleEndian;
     malloc_ok := fun _ => true;
     usb_write := link_write;
     usb_read := link_read;
     usb_purge := fun k => k;
     usb_write_chunksize := fun k _ => (k, err);
     usb_read_chunksize := fun k _ => (k, err) |}.

(** * Properties *)

(** ** Integers and bytes *)

Lemma u8_small c : is_u8 c -> u8 c = c.
Proof. unfold is_u8, u8. intros. apply Z.mod_small. lia. Qed.

Lemma u32_small z : is_u32 z -> u32 z = z.
Proof. unfold is_u32, u32. intros. apply Z.mod_small. lia. Qed.

Lemma testbit_u32_high p l : is_u32 p -> 32 <= l -> Z.testbit p l = false.
Proof.
  intros Hp Hl. unfold is_u32 in Hp.
  rewrite <- (Z.mod_small p (2 ^ 32)) by lia.
  apply Z.mod_pow2_bits_high. lia.
Qed.

(** After [Z.bitblast]: the bits of a [uint32_t] outside [0, 32) are
    clear; what is left is a Boolean identity over the bits inside. *)
Ltac kill_bits Hp :=
  repeat match goal with
  | |- context [Z.testbit ?p ?l] =>
      first [ rewrite (Z.testbit_neg_r p l) by lia
            | rewrite (testbit_u32_high p l Hp) by lia ]
  end;
  repeat match goal with
  | |- context [Z.testbit ?p ?a] =>
      match goal with
      | |- context [Z.testbit p ?b] =>
          lazymatch a with
          | b => fail
          | _ => replace a with b by lia
          end
      end
  end;
  repeat match goal with
  | |- context [Z.testbit ?p ?a] => destruct (Z.testbit p a)
  end;
  reflexivity.

Ltac swap_bits Hp :=
  unfold byte_of, swap_endian, u32;
  change 255 with (Z.ones 8);
  change 0x00ff0000 with (Z.shiftl (Z.ones 8) 16);
  change 0x0000ff00 with (Z.shiftl (Z.ones 8) 8);
  rewrite <- !Z.land_ones by lia;
  Z.bitblast; kill_bits Hp.

Lemma byte_of_swap_endian_0 p :
  is_u32 p -> byte_of (swap_endian p) 0 = byte_of p 3.
Proof. intros Hp. swap_bits Hp. Qed.

Lemma byte_of_swap_endian_1 p :
  is_u32 p -> byte_of (swap_endian p) 1 = byte_of p 2.
Proof. intros Hp. swap_bits Hp. Qed.

Lemma byte_of_swap_endian_2 p :
  is_u32 p -> byte_of (swap_endian p) 2 = byte_of p 1.
Proof. intros Hp. swap_bits Hp. Qed.

Lemma byte_of_swap_endian_3 p :
  is_u32 p -> byte_of (swap_endian p) 3 = byte_of p 0.
Proof. intros Hp. swap_bits Hp. Qed.

(** ** The command codec *)

Ltac frame_by_cases params Hn :=
  do 8 (try destruct params as [|? params]); simpl in Hn; try lia;
  repeat match goal with
  | H : Forall _ (_ :: _) |- _ => apply Forall_cons in H; destruct H
  end;
  cbv -[swap_endian byte_of u8];
  rewrite ?byte_of_swap_endian_0, ?byte_of_swap_endian_1,
    ?byte_of_swap_endian_2, ?byte_of_swap_endian_3, ?u8_small by assumption;
  reflexivity.

Lemma cmd_frame_little_endian cmd params :
  is_u8 cmd -> Forall is_u32 params -> (length params <= 7)%nat ->
  cmd_frame LittleEndian cmd (length params) params
  = [cmd; char "C"; char "M"; char "D"] ++ flat_map be_bytes params.
Proof. intros Hc Hp Hn. frame_by_cases params Hn. Qed.

(** On a big-endian host the swapped word is stored most significant byte
    first, so the parameter goes out least significant byte first. *)
Lemma cmd_frame_big_endian cmd params :
  is_u8 cmd -> Forall is_u32 params -> (length params <= 7)%nat ->
  cmd_frame BigEndian cmd (length params) params
  = [cmd; char "C"; char "M"; char "D"] ++ flat_map le_bytes params.
Proof. intros Hc Hp Hn. frame_by_cases params Hn. Qed.

Lemma cmd_frame_length host cmd nParams params :
  (nParams <= 7)%nat ->
  length (cmd_frame host cmd nParams params) = (4 + nParams * 4)%nat.
Proof.
  intros Hn.
  assert (Hstore : forall buf pos v,
             length (store_u32 host buf pos v) = length buf).
  { intros. unfold store_u32. destruct host; rewrite !length_insert; done. }
  assert (Hfill : forall l buf,
             length (fold_left (fun buf i => store_u32 host buf (4 + 4 * i)
                       (swap_endian (params !!! i))) l buf) = length buf).
  { induction l as [|i l IH]; intros buf; simpl; [done|].
    rewrite IH. apply Hstore. }
  unfold cmd_frame, tx_buf_of, fill_params.
  rewrite length_take, Hfill, !length_insert, length_replicate. lia.
Qed.

(** C3 (as amended): on a little-endian host, for every opcode byte and
    every list of at most 7 parameters, the frame is [4 + 4n] bytes long:
    the opcode, the characters C, M, D, and then each parameter as 4 bytes,
    most significant first; opcode 0x90 with the parameter 0x10000000 gives
    0x90, C, M, D, 0x10, 0, 0, 0. *)
Theorem C3_frame_layout_little_endian_host (cmd : Z) (params : list Z) :
  is_u8 cmd -> Forall is_u32 params -> (length params <= 7)%nat ->
  let frame := cmd_frame LittleEndian cmd (length params) params in
  length frame = (4 + 4 * length params)%nat
  /\ frame = [cmd; char "C"; char "M"; char "D"] ++ flat_map be_bytes params
  /\ cmd_frame LittleEndian 0x90 1 [0x10000000]
     = [0x90; char "C"; char "M"; char "D"; 0x10; 0x00; 0x00; 0x00].
Proof.
  intros Hc Hp Hn frame. split; [|split].
  - unfold frame. rewrite cmd_frame_length by done. lia.
  - by apply cmd_frame_little_endian.
  - reflexivity.
Qed.

Lemma C3_frame_layout_witness :
  let frame := cmd_frame LittleEndian 0x20 2 [0x00123456; 0x01080000] in
  length frame = 12%nat
  /\ frame = [0x20; 67; 77; 68; 0x00; 0x12; 0x34; 0x56; 0x01; 0x08; 0; 0]
  /\ cmd_frame LittleEndian 0x90 1 [0x10000000]
     = [0x90; 67; 77; 68; 0x10; 0x00; 0x00; 0x00].
Proof.
  apply (C3_frame_layout_little_endian_host 0x20 [0x00123456; 0x01080000]).
  - unfold is_u8. lia.
  - repeat constructor; unfold is_u32; lia.
  - simpl. lia.
Defined.

(** C3 as stated fails on a big-endian host: there the parameter
    0x10000000 of opcode 0x90 leaves as 0, 0, 0, 0x10. *)
Lemma C3_counterexample_big_endian_host :
  cmd_frame BigEndian 0x90 1 [0x10000000]
  <> [0x90; char "C"; char "M"; char "D"] ++ flat_map be_bytes [0x10000000].
Proof. vm_compute. discriminate. Qed.

(** ** Runs and traces *)

Section Runs.

Context {F : Type} `{Platform F}.

Lemma result_bind {A B} (c : M F A) (k : A -> M F B) d :
  result (bind c k d) = result (k (result (c d)) (final (c d))).
Proof.
  unfold bind, result, final. destruct (c d) as [[a d1] t1]. simpl.
  by destruct (k a d1) as [[b d2] t2].
Qed.

Lemma final_bind {A B} (c : M F A) (k : A -> M F B) d :
  final (bind c k d) = final (k (result (c d)) (final (c d))).
Proof.
  unfold bind, result, final. destruct (c d) as [[a d1] t1]. simpl.
  by destruct (k a d1) as [[b d2] t2].
Qed.

Lemma trace_bind {A B} (c : M F A) (k : A -> M F B) d :
  trace (bind c k d)
  = trace (c d) ++ trace (k (result (c d)) (final (c d))).
Proof.
  unfold bind, result, final, trace. destruct (c d) as [[a d1] t1]. simpl.
  by destruct (k a d1) as [[b d2] t2].
Qed.

Lemma run_eta {A} (r : A * sixtyfourDrive F * list event) :
  r = (result r, final r, trace r).
Proof. by destruct r as [[a d] t]. Qed.

Lemma trace_when (b : bool) (c : M F unit) d :
  trace (when b c d) = if b then trace (c d) else [].
Proof. by destruct b. Qed.

Lemma final_when_emit (b : bool) (e : event) (d : sixtyfourDrive F) :
  final (when b (emit e) d) = d.
Proof. by destruct b. Qed.

End Runs.

Lemma frames_written_app t1 t2 :
  frames_written (t1 ++ t2) = frames_written t1 ++ frames_written t2.
Proof.
  induction t1 as [|e t1 IH]; [done|].
  destruct e as [[bs|] ? ?| | | | | | |]; simpl; by rewrite ?IH.
Qed.

Lemma payload_returns_app t1 t2 :
  payload_returns (t1 ++ t2) = payload_returns t1 ++ payload_returns t2.
Proof.
  induction t1 as [|e t1 IH]; [done|].
  destruct e as [[bs|] ? ?| | | | | | |]; simpl; by rewrite ?IH.
Qed.

Lemma payload_requests_app t1 t2 :
  payload_requests (t1 ++ t2) = payload_requests t1 ++ payload_requests t2.
Proof.
  induction t1 as [|e t1 IH]; [done|].
  destruct e as [[bs|] ? ?| | | | | | |]; simpl; by rewrite ?IH.
Qed.

Lemma responses_read_app t1 t2 :
  responses_read (t1 ++ t2) = responses_read t1 ++ responses_read t2.
Proof.
  induction t1 as [|e t1 IH]; [done|].
  destruct e; simpl; by rewrite ?IH.
Qed.

Lemma io_events_app t1 t2 :
  io_events (t1 ++ t2) = io_events t1 ++ io_events t2.
Proof. apply List.filter_app. Qed.

Lemma sum_app l1 l2 : sum (l1 ++ l2) = sum l1 + sum l2.
Proof. induction l1 as [|x l1 IH]; simpl; lia. Qed.

Lemma chunk_bytes_app t1 t2 :
  chunk_bytes (t1 ++ t2) = chunk_bytes t1 ++ chunk_bytes t2.
Proof. unfold chunk_bytes. by rewrite payload_returns_app, filter_app. Qed.

(** ** [device_send_cmd] *)

Section SendCmd.

Context {F : Type} `{Platform F}.
Variable verbosity : Z.

(** With too many parameters nothing but the complaint happens. *)
Lemma send_cmd_too_many cmd nParams params resp respLen d :
  (8 <= nParams)%nat ->
  device_send_cmd verbosity cmd nParams params resp respLen d
  = ((-1, resp), d, [EvStderr TooManyParams]).
Proof.
  intros Hn. unfold device_send_cmd.
  change (32 / 4)%nat with 8%nat.
  destruct (Nat.leb_spec 8 nParams) as [_|Hlt]; [|lia].
  reflexivity.
Qed.

(** A command without response: the frame is written, and the [int] that
    [ftdi_write_data] gives is returned. *)
Lemma send_cmd_no_response cmd nParams params resp d :
  (nParams <= 7)%nat ->
  let frame := cmd_frame host_order cmd nParams params in
  let size := 4 + Z.of_nat nParams * 4 in
  let w := usb_write (ftdi d) (Bytes frame) size in
  device_send_cmd verbosity cmd nParams params resp 0 d
  = ((snd w, resp), mkDrive (fst w) (version d) (variant d),
     (if 2 <? verbosity then [EvStdout (SendingCommand cmd)] else [])
     ++ EvWrite (Bytes frame) size (snd w)
     :: (if snd w <=? 0 then [EvStderr (SendCmdWriteFailed cmd)] else [])).
Proof.
  intros Hn frame size w. unfold device_send_cmd.
  change (32 / 4)%nat with 8%nat.
  destruct (Nat.leb_spec 8 nParams) as [Hge|_]; [lia|].
  subst w size frame.
  unfold bind, when, printf, fprintf_stderr, emit, ret, ftdi_write_data.
  destruct (2 <? verbosity); cbn;
    destruct (usb_write _ _ _) as [f r]; cbn;
    destruct (r <=? 0); reflexivity.
Qed.

(** A command with a response of [respLen > 0] bytes. *)
Lemma send_cmd_with_response cmd nParams params resp respLen d :
  (nParams <= 7)%nat -> 0 < respLen ->
  let frame := cmd_frame host_order cmd nParams params in
  let size := 4 + Z.of_nat nParams * 4 in
  let w := usb_write (ftdi d) (Bytes frame) size in
  let r := usb_read (fst w) respLen in
  device_send_cmd verbosity cmd nParams params resp respLen d
  = if snd w <=? 0 then
      ((snd w, resp), mkDrive (fst w) (version d) (variant d),
       (if 2 <? verbosity then [EvStdout (SendingCommand cmd)] else [])
       ++ [EvWrite (Bytes frame) size (snd w);
           EvStderr (SendCmdWriteFailed cmd)])
    else
      ((fst (snd r), received (snd (snd r)) resp respLen),
       mkDrive (fst r) (version d) (variant d),
       (if 2 <? verbosity then [EvStdout (SendingCommand cmd)] else [])
       ++ EvWrite (Bytes frame) size (snd w)
       :: EvRead respLen (fst (snd r)) (snd (snd r))
       :: (if fst (snd r) <=? 0 then [EvStderr (SendCmdReadFailed cmd)]
           else [])).
Proof.
  intros Hn Hlen frame size w r. unfold device_send_cmd.
  change (32 / 4)%nat with 8%nat.
  destruct (Nat.leb_spec 8 nParams) as [Hge|_]; [lia|].
  destruct (Z.ltb_spec 0 respLen) as [_|Hle]; [|lia].
  subst r w size frame.
  unfold bind, when, printf, fprintf_stderr, emit, ret, ftdi_write_data,
    ftdi_read_data.
  destruct (2 <? verbosity); cbn;
    destruct (usb_write _ _ _) as [f x]; cbn;
    destruct (x <=? 0); cbn; try reflexivity;
    destruct (usb_read f respLen) as [f' [y data]]; cbn;
    destruct (y <=? 0); reflexivity.
Qed.


End SendCmd.


(** ** The CIC selector *)

Lemma testbit_above p n l :
  0 <= p < 2 ^ n -> 0 <= n <= l -> Z.testbit p l = false.
Proof.
  intros Hp Hl.
  rewrite <- (Z.mod_small p (2 ^ n)) by lia.
  apply Z.mod_pow2_bits_high. lia.
Qed.

Lemma land_shifted_31 k cic :
  0 <= cic < 2 ^ 31 -> Z.land (Z.shiftl k 31) cic = 0.
Proof.
  intros Hc. apply Z.bits_inj'. intros i Hi.
  rewrite Z.land_spec, Z.bits_0.
  destruct (Z.lt_ge_cases i 31).
  - by rewrite Z.shiftl_spec_low by lia.
  - rewrite (testbit_above cic 31 i) by lia. apply andb_false_r.
Qed.

(** The parameter of SETCIC, computed in [int] and converted to
    [uint32_t], is bit 31 together with the bits of [cic]. *)
Lemma cic_param cic :
  0 <= cic < 2 ^ 31 ->
  u32 (Z.lor (s32 (Z.shiftl 1 31)) cic) = Z.lor (Z.shiftl 1 31) cic.
Proof.
  intros Hc.
  pose proof (Z.add_lor_land (Z.shiftl (-1) 31) cic) as H1.
  pose proof (Z.add_lor_land (Z.shiftl 1 31) cic) as H2.
  rewrite land_shifted_31 in H1, H2 by done.
  change (s32 (Z.shiftl 1 31)) with (Z.shiftl (-1) 31).
  rewrite Z.add_0_r in H1, H2. rewrite H1, H2.
  change (Z.shiftl (-1) 31) with (- 2 ^ 31).
  change (Z.shiftl 1 31) with (2 ^ 31).
  unfold u32.
  replace (- 2 ^ 31 + cic) with (2 ^ 31 + cic + (-1) * 2 ^ 32) by lia.
  rewrite Z.mod_add by lia. apply Z.mod_small. lia.
Qed.

Section SetCic.

Context {F : Type} `{Platform F}.
Variable verbosity : Z.

(** C6: when the first character of the variant is [A], [device_set_cic]
    gives -1 after its complaint and does nothing to the link; otherwise
    it makes exactly one call of libftdi, the write of the 8-byte SETCIC
    frame whose parameter is [(1 << 31) | cic], and returns what that write
    returned.  CIC 6102 has the internal id 1 and the parameter
    0x80000001. *)
Theorem C6_set_cic (cic : Z) (d : sixtyfourDrive F) :
  let run := device_set_cic verbosity cic d in
  let frame :=
    cmd_frame host_order DEV_CMD_SETCIC 1 [Z.lor (Z.shiftl 1 31) cic] in
  (fst (fst (variant d)) = char "A" ->
     result run = -1 /\ final run = d
     /\ trace run = [EvStderr CicNotSupported]
     /\ io_events (trace run) = [])
  /\ (fst (fst (variant d)) <> char "A" -> 0 <= cic < 2 ^ 31 ->
        io_events (trace run) = [EvWrite (Bytes frame) 8 (result run)]
        /\ frames_written (trace run) = [frame]
        /\ length frame = 8%nat)
  /\ find_cic cic_types 0 6102 = Some CIC_6102
  /\ CIC_6102 = 1
  /\ Z.lor (Z.shiftl 1 31) CIC_6102 = 0x80000001.
Proof.
  intros run frame. split; [|split; [|done]].
  - intros HA. subst run. unfold device_set_cic, bind, get_variant. cbn.
    rewrite HA. by destruct d.
  - intros HA Hc. subst run frame.
    unfold device_set_cic, get_variant.
    rewrite result_bind, trace_bind. cbn [result final trace fst snd].
    destruct (Z.eqb_spec (fst (fst (variant d))) (char "A")) as [|_]; [done|].
    unfold printf.
    rewrite !trace_bind, !result_bind, !final_when_emit, trace_when.
    rewrite cic_param by done.
    rewrite send_cmd_no_response by lia.
    cbn [result final trace fst snd ret].
    rewrite !io_events_app, !frames_written_app, !app_nil_r.
    split; [|split; [|by rewrite cmd_frame_length by lia]];
      destruct (2 <? verbosity), (0 <? verbosity), (_ <=? 0); reflexivity.
Qed.

End SetCic.

Lemma C6_set_cic_witness :
  (let run := device_set_cic 1 CIC_7102
                (mkDrive (mkLink [] []) 1 (char "A", 0, 0)) in
   result run = -1 /\ io_events (trace run) = [])
  /\ (let run := device_set_cic 1 CIC_6102
                   (mkDrive (mkLink [] []) 2 (char "B", 0, 0)) in
      io_events (trace run)
      = [EvWrite (Bytes [0x72; 67; 77; 68; 0x80; 0; 0; 1]) 8 (result run)]).
Proof.
  split.
  - pose proof (proj1 (C6_set_cic 1 CIC_7102
        (mkDrive (mkLink [] []) 1 (char "A", 0, 0))) eq_refl) as W.
    exact (conj (proj1 W) (proj2 (proj2 (proj2 W)))).
  - assert (Hv : char "B" <> char "A") by (vm_compute; discriminate).
    assert (Hc : 0 <= CIC_6102 < 2 ^ 31) by (unfold CIC_6102; lia).
    exact (proj1 (proj1 (proj2 (C6_set_cic 1 CIC_6102
        (mkDrive (mkLink [] []) 2 (char "B", 0, 0)))) Hv Hc)).
Defined.

(** ** The size of a transfer *)

Lemma upload_size_given file size :
  0 <= size -> upload_size file size = (size, file).
Proof.
  intros Hs. unfold upload_size.
  by destruct (Z.ltb_spec size 0) as [Hlt|_]; [lia|].
Qed.

Lemma upload_size_derived file size :
  size < 0 -> seekable file = true ->
  upload_size file size = (fsize file - fpos file, file).
Proof.
  intros Hs Hseek. unfold upload_size.
  destruct (Z.ltb_spec size 0) as [_|Hge]; [|lia].
  destruct file as [p s k]. cbn in Hseek. subst k. done.
Qed.

Lemma upload_size_pipe file size :
  size < 0 -> seekable file = false -> upload_size file size = (0, file).
Proof.
  intros Hs Hseek. unfold upload_size.
  destruct (Z.ltb_spec size 0) as [_|Hge]; [|lia].
  destruct file as [p s k]. cbn in Hseek. subst k. done.
Qed.

Lemma download_size_given size : 0 <= size -> download_size size = size.
Proof.
  intros Hs. unfold download_size.
  by destruct (Z.ltb_spec size 0) as [Hlt|_]; [lia|].
Qed.

(** ** The chunk size *)

Lemma chunk_units_cases size :
  (16777216 < size /\ chunk_units size = 32)
  \/ (2097152 < size <= 16777216 /\ chunk_units size = 16)
  \/ (size <= 2097152 /\ chunk_units size = 4).
Proof.
  unfold chunk_units.
  change (16 * 1024 * 1024) with 16777216.
  change (2 * 1024 * 1024) with 2097152.
  destruct (Z.ltb_spec 16777216 size); [lia|].
  destruct (Z.ltb_spec 2097152 size); lia.
Qed.

Lemma chunk_size_min size :
  0 <= size -> chunk_size size = Z.min (chunk_units size * 131072) size.
Proof.
  intros Hs. unfold chunk_size.
  change (128 * 1024) with 131072.
  assert (Hu : u32 (chunk_units size * 131072) = chunk_units size * 131072).
  { apply u32_small. unfold is_u32.
    destruct (chunk_units_cases size) as [[_ ->]|[[_ ->]|[_ ->]]]; lia. }
  rewrite Hu.
  destruct (Z.ltb_spec size (chunk_units size * 131072)).
  - rewrite u32_small; [lia|]. unfold is_u32.
    destruct (chunk_units_cases size) as [[_ Hc]|[[_ Hc]|[_ Hc]]];
      rewrite Hc in *; lia.
  - lia.
Qed.

Lemma chunk_size_monotone size size' :
  0 <= size <= size' -> chunk_size size <= chunk_size size'.
Proof.
  intros Hs. rewrite !chunk_size_min by lia.
  destruct (chunk_units_cases size) as [[? ->]|[[? ->]|[? ->]]],
    (chunk_units_cases size') as [[? ->]|[[? ->]|[? ->]]]; lia.
Qed.

(** ** One chunk *)

Section Chunks.
Context {F : Type} `{Platform F}.
Variable verbosity : Z.

Lemma backoff_app a b : backoff (a ++ b) = backoff a ++ backoff b.
Proof. unfold backoff. apply flat_map_app. Qed.

Lemma retry_loop_outcome (xfer : M F Z) (chunkSize : Z) :
  (forall d, exists e, trace (xfer d) = [e]
                       /\ is_attempt chunkSize (result (xfer d)) e) ->
  forall tries n d, n <= 0 ->
  let run := retry_loop xfer tries n d in
  exists fails,
    Forall (failed_attempt chunkSize) fails
    /\ ((length fails = tries /\ result run <= 0
         /\ trace run = backoff fails)
        \/ ((length fails < tries)%nat
            /\ exists e, 0 < result run
                         /\ is_attempt chunkSize (result run) e
                         /\ trace run = backoff fails ++ [e])).
Proof.
  intros Hx tries. induction tries as [|tries IH]; intros n d Hn run.
  - exists []. split; [constructor|]. left. by subst run.
  - subst run. cbn [retry_loop].
    rewrite result_bind, trace_bind.
    destruct (Hx d) as (e & Hte & He).
    destruct (Z.ltb_spec 0 (result (xfer d))) as [Hpos|Hneg].
    + exists []. split; [constructor|]. right. split; [simpl; lia|].
      exists e. cbn. rewrite Hte. by rewrite app_nil_r.
    + unfold usleep.
      rewrite !result_bind, !trace_bind.
      cbn [emit ftdi_usb_purge_buffers result final trace fst snd].
      set (d' := mkDrive _ _ _).
      destruct (IH (result (xfer d)) d' Hneg) as (fails & Hf & Hcase).
      exists (e :: fails). split.
      { constructor; [|done]. by exists (result (xfer d)). }
      rewrite Hte.
      destruct Hcase as [(Hlen & Hres & Htr)|(Hlen & e' & Hres & He' & Htr)].
      * left. rewrite Htr. cbn. by rewrite Hlen.
      * right. split; [simpl; lia|]. exists e'. by rewrite Htr.
Qed.

Lemma send_cmd_frame_only cmd params d :
  let run := device_send_cmd verbosity cmd 2 params [] 0 d in
  payload_returns (trace run) = [] /\ payload_requests (trace run) = []
  /\ frames_written (trace run) = [cmd_frame host_order cmd 2 params].
Proof.
  intros run. subst run. rewrite send_cmd_no_response by lia.
  unfold trace. cbn [snd].
  rewrite payload_returns_app, payload_requests_app, frames_written_app.
  destruct (2 <? verbosity), (_ <=? 0); done.
Qed.

Lemma upload_chunk_outcome chunkSize size bank l d :
  let run := upload_chunk verbosity chunkSize size bank l d in
  chunk_outcome host_order UploadWriteFailed DEV_CMD_LOADRAM chunkSize bank l
    (result run) (trace run).
Proof.
  intros run. subst run. unfold upload_chunk.
  set (params := [offset l; size_and_bank chunkSize bank]).
  rewrite result_bind, trace_bind.
  set (cmd := device_send_cmd _ _ _ _ _ _ d).
  destruct (send_cmd_frame_only DEV_CMD_LOADRAM params d)
    as (Hret & Hreq & Hfr). fold cmd in Hret, Hreq, Hfr.
  rewrite result_bind, trace_bind.
  set (xfer := ftdi_write_data Payload chunkSize).
  assert (Hx : forall d, exists e, trace (xfer d) = [e]
                 /\ is_attempt chunkSize (result (xfer d)) e).
  { intros d0. unfold xfer, ftdi_write_data.
    destruct (usb_write _ _ _) as [f r]. eexists. split; [done|by left]. }
  destruct (retry_loop_outcome xfer chunkSize Hx 5 (-1) (final cmd)
              ltac:(lia)) as (fails & Hf & Hcase).
  set (retry := retry_loop xfer 5 (-1) (final cmd)) in *.
  exists (trace cmd), fails. repeat (split; [done|]).
  destruct Hcase as [(Hlen & Hres & Htr)|(Hlen & e & Hres & He & Htr)].
  - left. exists (result retry), (fread (file l) chunkSize).
    destruct (Z.leb_spec (result retry) 0) as [_|Hgt]; [|lia].
    rewrite Htr, result_bind, trace_bind. by cbn.
  - right.
    exists (result retry), (fread (file l) chunkSize), e,
      (if 0 <=? verbosity
       then [EvStdout (UploadProgress
               (Z.quot ((readPos l + result retry) * 100) size))]
       else []).
    destruct (Z.leb_spec (result retry) 0) as [Hle|_]; [lia|].
    rewrite Htr, result_bind, trace_bind, trace_when.
    unfold printf. rewrite final_when_emit.
    repeat (split; [done|]). split.
    + unfold silent. by destruct (0 <=? verbosity).
    + cbn. rewrite <- !app_assoc. by destruct (0 <=? verbosity).
Qed.

Lemma download_chunk_outcome chunkSize size bank l d :
  let run := download_chunk verbosity chunkSize size bank l d in
  chunk_outcome host_order DownloadReadFailed DEV_CMD_DUMPRAM chunkSize bank l
    (result run) (trace run).
Proof.
  intros run. subst run. unfold download_chunk.
  set (params := [offset l; size_and_bank chunkSize bank]).
  rewrite result_bind, trace_bind.
  set (cmd := device_send_cmd _ _ _ _ _ _ d).
  destruct (send_cmd_frame_only DEV_CMD_DUMPRAM params d)
    as (Hret & Hreq & Hfr). fold cmd in Hret, Hreq, Hfr.
  rewrite result_bind, trace_bind.
  set (xfer := bind (ftdi_read_data chunkSize) (fun r => ret (fst r))).
  assert (Hx : forall d, exists e, trace (xfer d) = [e]
                 /\ is_attempt chunkSize (result (xfer d)) e).
  { intros d0. unfold xfer, bind, ftdi_read_data.
    destruct (usb_read _ _) as [f [r data]]. eexists.
    split; [done|right; by eexists]. }
  destruct (retry_loop_outcome xfer chunkSize Hx 5 (-1) (final cmd)
              ltac:(lia)) as (fails & Hf & Hcase).
  set (retry := retry_loop xfer 5 (-1) (final cmd)) in *.
  exists (trace cmd), fails. repeat (split; [done|]).
  destruct Hcase as [(Hlen & Hres & Htr)|(Hlen & e & Hres & He & Htr)].
  - left. exists (result retry), (file l).
    destruct (Z.leb_spec (result retry) 0) as [_|Hgt]; [|lia].
    rewrite Htr, result_bind, trace_bind. cbn. by destruct l.
  - right.
    exists (result retry), (fwrite (file l) (result retry)), e,
      (if 0 <=? verbosity
       then [EvStdout (DownloadProgress
               (Z.quot ((readPos l + result retry) * 100) size))]
       else []).
    destruct (Z.leb_spec (result retry) 0) as [Hle|_]; [lia|].
    rewrite Htr, result_bind, trace_bind, trace_when.
    unfold printf. rewrite final_when_emit.
    repeat (split; [done|]). split.
    + unfold silent. by destruct (0 <=? verbosity).
    + cbn. rewrite <- !app_assoc. by destruct (0 <=? verbosity).
Qed.
End Chunks.

(** ** The chunk loop *)

Lemma attempt_observed chunkSize n e :
  is_attempt chunkSize n e ->
  payload_returns [e] = [n] /\ payload_requests [e] = [chunkSize]
  /\ frames_written [e] = [].
Proof. intros [->|[data ->]]; done. Qed.

Lemma backoff_observed chunkSize fails :
  Forall (failed_attempt chunkSize) fails ->
  chunk_bytes (backoff fails) = []
  /\ Forall (eq chunkSize) (payload_requests (backoff fails))
  /\ frames_written (backoff fails) = []
  /\ length (payload_returns (backoff fails)) = length fails.
Proof.
  induction 1 as [|e fails (r & Hr & He) _ (IH1 & IH2 & IH3 & IH4)]; [done|].
  change (backoff (e :: fails))
    with ([e] ++ [EvUsleep 10000; EvPurge] ++ backoff fails).
  rewrite chunk_bytes_app, payload_requests_app, frames_written_app,
    payload_returns_app.
  destruct (attempt_observed _ _ _ He) as (H1 & H2 & H3).
  unfold chunk_bytes at 1. rewrite H1, H2, H3. cbn -[backoff].
  rewrite IH4. repeat split; try done.
  - rewrite decide_False by lia. done.
  - by constructor.
Qed.

Lemma chunk_bytes_quiet t : payload_returns t = [] -> chunk_bytes t = [].
Proof. unfold chunk_bytes. by intros ->. Qed.

Section Loop.
Context {F : Type} `{Platform F}.
Variables (failmsg : Z -> message) (cmd chunkSize bank : Z).
Variable chunk : locals -> M F step.
Hypothesis chunk_ok : forall l d,
  chunk_outcome host_order failmsg cmd chunkSize bank l
    (result (chunk l d)) (trace (chunk l d)).

Local Abbreviation is_frame :=
  (is_chunk_frame host_order cmd chunkSize bank).

Lemma u32_add_l a b : u32 (u32 a + b) = u32 (a + b).
Proof. unfold u32. by rewrite Zplus_mod_idemp_l. Qed.

Lemma chunk_loop_run fuel size l d :
  (Z.to_nat (size - readPos l) <= fuel)%nat -> is_u32 (offset l) ->
  let run := chunk_loop chunk fuel size l d in
  exists e l',
    result run = Some (e, l')
    /\ (length (frames_written (trace run))
        <= Z.to_nat (size - readPos l))%nat
    /\ readPos l' = readPos l + sum (chunk_bytes (trace run))
    /\ offset l' = u32 (offset l + sum (chunk_bytes (trace run)))
    /\ Forall (eq chunkSize) (payload_requests (trace run))
    /\ Forall is_frame (frames_written (trace run))
    /\ match e with
       | XferDone => size <= readPos l'
       | XferAborted n =>
           n <= 0 /\ readPos l' < size
           /\ exists before fails,
                trace run = before ++ backoff fails
                            ++ [EvStderr (failmsg (readPos l'))]
                /\ length fails = 5%nat
                /\ Forall (failed_attempt chunkSize) fails
                /\ readPos l' = readPos l + sum (chunk_bytes before)
       | _ => False
       end.
Proof.
  revert l d. induction fuel as [|fuel IH]; intros l d Hfuel Hoff run;
    subst run; cbn [chunk_loop];
    destruct (Z.ltb_spec (readPos l) size) as [Hlt|Hge]; try lia.
  1, 3: exists XferDone, l; cbn; rewrite !Z.add_0_r, u32_small by done;
        repeat split; try done; lia.
  rewrite result_bind, trace_bind.
  destruct (chunk_ok l d) as (pre & fails & Hpr & Hpq & Hpf & Hfails & Hcase).
  destruct (backoff_observed _ _ Hfails) as (Hb1 & Hb2 & Hb3 & _).
  pose proof (chunk_bytes_quiet _ Hpr) as Hpc.
  assert (Hfr1 : Forall is_frame (frames_written pre)).
  { rewrite Hpf. constructor; [by eexists|done]. }
  destruct Hcase as [(n & f & Hres & Hn & Hlen & Ht)
                    |(n & f & e & post & Hres & Hn & Hlen & He & Hpost & Ht)].
  - rewrite Hres, Ht. cbn [ret result trace fst snd].
    exists (XferAborted n), (mkLocals (offset l) (readPos l) f).
    rewrite app_nil_r, !chunk_bytes_app, !payload_requests_app,
      !frames_written_app, Hb1, Hb3, Hpc, Hpq.
    cbn [app sum fold_right readPos offset].
    rewrite !app_nil_r, !Z.add_0_r, u32_small by done.
    repeat split; try done; try (rewrite Hpf; cbn; lia).
    exists pre, fails. rewrite Hpc. cbn. repeat split; try done. lia.
  - rewrite Hres, Ht.
    set (l1 := mkLocals _ _ _). set (d1 := final (chunk l d)).
    destruct (IH l1 d1) as (x & l' & Hr & Hfr & Hrp & Hof & Hrq & Hfs & Hx).
    { subst l1. cbn. lia. }
    { subst l1. cbn. unfold is_u32, u32. apply Z.mod_pos_bound. lia. }
    exists x, l'.
    destruct (attempt_observed _ _ _ He) as (He1 & He2 & He3).
    destruct Hpost as (Hp1 & Hp2 & Hp3).
    pose proof (chunk_bytes_quiet _ Hp1) as Hpostc.
    assert (Hec : chunk_bytes [e] = [n]).
    { unfold chunk_bytes. rewrite He1. cbn. by rewrite decide_True by lia. }
    set (rest := trace (chunk_loop chunk fuel size l1 d1)) in *.
    rewrite !chunk_bytes_app, !sum_app, !payload_requests_app,
      !frames_written_app, Hb1, Hb3, Hpc, Hpostc, Hec, Hpq, He2, He3, Hp2, Hp3.
    subst l1. cbn [readPos offset sum fold_right app] in *.
    split; [done|]. rewrite Hpf. cbn [length app].
    repeat split.
    + lia.
    + lia.
    + rewrite Hof, u32_add_l. f_equal. lia.
    + rewrite !Forall_app. repeat split; try done. by constructor.
    + constructor; [by eexists|done].
    + destruct x; try done.
      destruct Hx as (Hn' & Hlt' & before & fails' & Htr & Hl5 & Hff & Hsum).
      repeat split; try done.
      exists ((pre ++ backoff fails ++ [e] ++ post) ++ before), fails'.
      rewrite Htr, <- !app_assoc. repeat split; try done.
      rewrite !chunk_bytes_app, !sum_app, Hb1, Hpc, Hpostc, Hec. cbn. lia.
Qed.


(** Whatever the fuel, every raw transfer of the loop asks for
    [chunkSize] bytes and every frame carries [chunkSize]. *)
Lemma chunk_loop_requests fuel size l d :
  let run := chunk_loop chunk fuel size l d in
  Forall (eq chunkSize) (payload_requests (trace run))
  /\ Forall is_frame (frames_written (trace run)).
Proof.
  revert l d. induction fuel as [|fuel IH]; intros l d run; subst run;
    cbn [chunk_loop];
    destruct (Z.ltb_spec (readPos l) size) as [Hlt|Hge]; try done.
  rewrite trace_bind, payload_requests_app, frames_written_app, !Forall_app.
  destruct (chunk_ok l d) as (pre & fails & Hpr & Hpq & Hpf & Hfails & Hcase).
  destruct (backoff_observed _ _ Hfails) as (_ & Hb2 & Hb3 & _).
  assert (Hfr1 : Forall is_frame (frames_written pre)).
  { rewrite Hpf. constructor; [by eexists|done]. }
  destruct Hcase as [(n & f & Hres & _ & _ & Ht)
                    |(n & f & e & post & Hres & _ & _ & He & Hpost & Ht)];
    rewrite Hres, Ht, !payload_requests_app, !frames_written_app, Hpq, Hb3.
  - cbn. rewrite !app_nil_r. by repeat split.
  - destruct (attempt_observed _ _ _ He) as (_ & He2 & He3).
    destruct Hpost as (_ & Hp2 & Hp3). rewrite He2, He3, Hp2, Hp3.
    cbn [app]. rewrite !app_nil_r.
    destruct (IH (mkLocals (u32 (offset l + n)) (readPos l + n) f)
                (final (chunk l d))) as (IH1 & IH2).
    repeat split; try done.
    apply Forall_app. split; [done|]. by constructor.
Qed.

Lemma chunk_loop_fuel size fuel1 fuel2 l d :
  (Z.to_nat (size - readPos l) <= fuel1)%nat ->
  (Z.to_nat (size - readPos l) <= fuel2)%nat ->
  chunk_loop chunk fuel1 size l d = chunk_loop chunk fuel2 size l d.
Proof.
  revert fuel2 l d.
  induction fuel1 as [|fuel1 IH]; intros fuel2 l d H1 H2.
  - destruct fuel2; cbn [chunk_loop];
      destruct (Z.ltb_spec (readPos l) size) as [Hlt|Hge]; try done; lia.
  - cbn [chunk_loop].
    destruct fuel2 as [|fuel2]; cbn [chunk_loop];
      destruct (Z.ltb_spec (readPos l) size) as [Hlt|Hge]; try done; try lia.
    unfold bind.
    destruct (chunk_ok l d) as (pre & fails & _ & _ & _ & _ & Hcase).
    destruct (chunk l d) as [[r d1] t1]. cbn [result trace fst snd] in Hcase.
    destruct Hcase as [(n & f & -> & _)
                      |(n & f & e & post & -> & Hn & _)]; [done|].
    rewrite (IH fuel2); [done| |]; cbn; lia.
Qed.

End Loop.

(** ** A whole transfer *)

Section Calls.
Context {F : Type} `{Platform F}.
Variable verbosity : Z.

Lemma upload_loop_chunk_loop fuel chunkSize size bank l d :
  upload_loop verbosity fuel chunkSize size bank l d
  = chunk_loop (upload_chunk verbosity chunkSize size bank) fuel size l d.
Proof.
  revert l d. induction fuel as [|fuel IH]; intros l d; cbn;
    destruct (readPos l <? size); try done.
  unfold bind. destruct (upload_chunk _ _ _ _ l d) as [[[n l1|l1] d1] t1];
    [done|]. by rewrite IH.
Qed.

Lemma download_loop_chunk_loop fuel chunkSize size bank l d :
  download_loop verbosity fuel chunkSize size bank l d
  = chunk_loop (download_chunk verbosity chunkSize size bank) fuel size l d.
Proof.
  revert l d. induction fuel as [|fuel IH]; intros l d; cbn;
    destruct (readPos l <? size); try done.
  unfold bind. destruct (download_chunk _ _ _ _ l d) as [[[n l1|l1] d1] t1];
    [done|]. by rewrite IH.
Qed.

Lemma silent_when (b : bool) m :
  silent (if b then [EvStdout m] else []).
Proof. by destruct b. Qed.

Lemma observed_inside pre mid post :
  silent pre -> silent post ->
  chunk_bytes (pre ++ mid ++ post) = chunk_bytes mid
  /\ payload_requests (pre ++ mid ++ post) = payload_requests mid
  /\ frames_written (pre ++ mid ++ post) = frames_written mid.
Proof.
  intros (H1 & H2 & H3) (H4 & H5 & H6).
  rewrite !chunk_bytes_app, !payload_requests_app, !frames_written_app,
    (chunk_bytes_quiet _ H1), (chunk_bytes_quiet _ H4), H2, H3, H5, H6.
  by rewrite !app_nil_r.
Qed.

Lemma silent_app t1 t2 : silent t1 -> silent t2 -> silent (t1 ++ t2).
Proof.
  intros (H1 & H2 & H3) (H4 & H5 & H6). unfold silent.
  by rewrite payload_returns_app, payload_requests_app, frames_written_app,
    H1, H2, H3, H4, H5, H6.
Qed.

Lemma call_outcome_early failmsg cmd size offset bank e file t :
  is_u32 offset -> silent t ->
  match e with
  | XferNoMemory => malloc_ok (chunk_size size) = false
  | XferChunksizeError err => err <> 0
  | _ => False
  end ->
  call_outcome failmsg cmd size offset bank e (mkLocals offset 0 file) t.
Proof.
  intros Hoff (H1 & H2 & H3) He. unfold call_outcome.
  rewrite (chunk_bytes_quiet _ H1), H2, H3. cbn.
  rewrite Z.add_0_r, u32_small by done.
  repeat split; try done; try lia. by destruct e.
Qed.

Lemma call_outcome_loop failmsg cmd size off bank e l' pre mid post file :
  silent pre -> silent post -> (e <> XferDone -> post = []) ->
  (length (frames_written mid) <= Z.to_nat (size - 0))%nat
  /\ readPos l' = 0 + sum (chunk_bytes mid)
  /\ offset l' = u32 (off + sum (chunk_bytes mid))
  /\ Forall (eq (chunk_size size)) (payload_requests mid)
  /\ Forall (is_chunk_frame host_order cmd (chunk_size size) bank)
       (frames_written mid)
  /\ match e with
     | XferDone => size <= readPos l'
     | XferAborted n =>
         n <= 0 /\ readPos l' < size
         /\ exists before fails,
              mid = before ++ backoff fails
                    ++ [EvStderr (failmsg (readPos l'))]
              /\ length fails = 5%nat
              /\ Forall (failed_attempt (chunk_size size)) fails
              /\ readPos l' = readPos (mkLocals off 0 file)
                              + sum (chunk_bytes before)
     | _ => False
     end ->
  call_outcome failmsg cmd size off bank e l' (pre ++ mid ++ post).
Proof.
  intros Hpre Hpost Hne (Hfr & Hrp & Hof & Hrq & Hfs & He).
  unfold call_outcome.
  destruct (observed_inside pre mid post Hpre Hpost) as (-> & -> & ->).
  rewrite Z.sub_0_r in Hfr.
  repeat split; try done; try lia.
  destruct e; try done.
  destruct He as (Hn & Hlt & before & fails & Htr & Hl5 & Hff & Hsum).
  repeat split; try done.
  exists (pre ++ before), fails.
  rewrite Hne, Htr, app_nil_r, <- !app_assoc by done.
  repeat split; try done.
  destruct Hpre as (H1 & _).
  rewrite chunk_bytes_app, sum_app, (chunk_bytes_quiet _ H1).
  cbn in *. lia.
Qed.

Lemma device_upload_exit_run fuel file size offset bank d :
  0 <= size -> (Z.to_nat size <= fuel)%nat -> is_u32 offset ->
  let run := device_upload_exit verbosity fuel file size offset bank d in
  exists e l',
    result run = Some (e, l')
    /\ call_outcome UploadWriteFailed DEV_CMD_LOADRAM size offset bank e l'
         (trace run).
Proof.
  intros Hs Hfuel Hoff run. subst run. unfold device_upload_exit.
  rewrite upload_size_given by done.
  set (l := mkLocals offset 0 file).
  unfold printf, fprintf_stderr.
  rewrite result_bind, trace_bind, trace_when, final_when_emit.
  cbn [emit trace snd].
  set (t0 := if 1 <? verbosity then _ else _).
  assert (Ht0 : silent t0) by apply silent_when.
  destruct (malloc_ok (chunk_size size)) eqn:Hm; cbn [negb].
  2: { exists XferNoMemory, l. split; [done|].
       apply call_outcome_early; [done| |done].
       by apply silent_app. }
  set (sc := ftdi_write_data_set_chunksize (chunk_size size) d).
  assert (Hsc : silent (trace sc)).
  { unfold sc, ftdi_write_data_set_chunksize.
    by destruct (usb_write_chunksize _ _). }
  rewrite result_bind, trace_bind. fold sc.
  destruct (Z.eqb_spec (result sc) 0) as [Herr|Herr]; cbn [negb].
  2: { exists (XferChunksizeError (result sc)), l. split; [done|].
       apply call_outcome_early; [done| |done].
       by repeat apply silent_app. }
  rewrite result_bind, trace_bind, trace_when, final_when_emit.
  cbn [emit trace snd].
  set (t1 := if 0 <? verbosity then _ else _).
  assert (Ht1 : silent t1) by apply silent_when.
  rewrite result_bind, trace_bind, upload_loop_chunk_loop.
  destruct (chunk_loop_run UploadWriteFailed DEV_CMD_LOADRAM (chunk_size size)
              bank (upload_chunk verbosity (chunk_size size) size bank)
              (upload_chunk_outcome verbosity (chunk_size size) size bank)
              fuel size l (final sc))
    as (e & l' & Hr & Hloop); [by subst l; cbn; rewrite Z.sub_0_r|done|].
  set (loop := chunk_loop _ _ _ _ _) in *.
  exists e, l'. rewrite Hr.
  destruct e as [|err|n|];
    try (exfalso; by destruct Hloop as (_ & _ & _ & _ & _ & ?)).
  - split; [done|]. cbn [ret trace snd].
    match goal with |- call_outcome _ _ _ _ _ _ _ ?t =>
      replace t with ((t0 ++ trace sc ++ t1) ++ trace loop ++ [])
        by (by rewrite <- !app_assoc)
    end.
    apply (call_outcome_loop _ _ _ _ _ _ _ _ _ _ file); try done.
    by repeat apply silent_app.
  - rewrite result_bind, trace_bind, trace_when.
    cbn [ret emit result trace fst snd]. split; [done|].
    rewrite app_nil_r.
    match goal with |- call_outcome _ _ _ _ _ _ _ (_ ++ _ ++ _ ++ _ ++ ?p) =>
      replace (t0 ++ trace sc ++ t1 ++ trace loop ++ p)
        with ((t0 ++ trace sc ++ t1) ++ trace loop ++ p)
        by (by rewrite <- !app_assoc)
    end.
    apply (call_outcome_loop _ _ _ _ _ _ _ _ _ _ file); try done.
    + by repeat apply silent_app.
    + apply silent_when.
Qed.

Lemma device_download_exit_run fuel file size offset bank d :
  0 <= size -> (Z.to_nat size <= fuel)%nat -> is_u32 offset ->
  let run := device_download_exit verbosity fuel file size offset bank d in
  exists e l',
    result run = Some (e, l')
    /\ call_outcome DownloadReadFailed DEV_CMD_DUMPRAM size offset bank e l'
         (trace run).
Proof.
  intros Hs Hfuel Hoff run. subst run. unfold device_download_exit.
  rewrite download_size_given by done.
  set (l := mkLocals offset 0 file).
  unfold printf, fprintf_stderr.
  rewrite result_bind, trace_bind, trace_when, final_when_emit.
  cbn [emit trace snd].
  set (t0 := if 1 <? verbosity then _ else _).
  assert (Ht0 : silent t0) by apply silent_when.
  destruct (malloc_ok (chunk_size size)) eqn:Hm; cbn [negb].
  2: { exists XferNoMemory, l. split; [done|].
       apply call_outcome_early; [done| |done].
       by apply silent_app. }
  set (sc := ftdi_read_data_set_chunksize (chunk_size size) d).
  assert (Hsc : silent (trace sc)).
  { unfold sc, ftdi_read_data_set_chunksize.
    by destruct (usb_read_chunksize _ _). }
  rewrite result_bind, trace_bind. fold sc.
  destruct (Z.eqb_spec (result sc) 0) as [Herr|Herr]; cbn [negb].
  2: { exists (XferChunksizeError (result sc)), l. split; [done|].
       apply call_outcome_early; [done| |done].
       by repeat apply silent_app. }
  rewrite result_bind, trace_bind, trace_when, final_when_emit.
  cbn [emit trace snd].
  set (t1 := if 0 <? verbosity then _ else _).
  assert (Ht1 : silent t1) by apply silent_when.
  rewrite result_bind, trace_bind, download_loop_chunk_loop.
  destruct (chunk_loop_run DownloadReadFailed DEV_CMD_DUMPRAM (chunk_size size)
              bank (download_chunk verbosity (chunk_size size) size bank)
              (download_chunk_outcome verbosity (chunk_size size) size bank)
              fuel size l (final sc))
    as (e & l' & Hr & Hloop); [by subst l; cbn; rewrite Z.sub_0_r|done|].
  set (loop := chunk_loop _ _ _ _ _) in *.
  exists e, l'. rewrite Hr.
  destruct e as [|err|n|];
    try (exfalso; by destruct Hloop as (_ & _ & _ & _ & _ & ?)).
  - split; [done|]. cbn [ret trace snd].
    match goal with |- call_outcome _ _ _ _ _ _ _ ?t =>
      replace t with ((t0 ++ trace sc ++ t1) ++ trace loop ++ [])
        by (by rewrite <- !app_assoc)
    end.
    apply (call_outcome_loop _ _ _ _ _ _ _ _ _ _ file); try done.
    by repeat apply silent_app.
  - rewrite result_bind, trace_bind, trace_when.
    cbn [ret emit result trace fst snd]. split; [done|].
    rewrite app_nil_r.
    match goal with |- call_outcome _ _ _ _ _ _ _ (_ ++ _ ++ _ ++ _ ++ ?p) =>
      replace (t0 ++ trace sc ++ t1 ++ trace loop ++ p)
        with ((t0 ++ trace sc ++ t1) ++ trace loop ++ p)
        by (by rewrite <- !app_assoc)
    end.
    apply (call_outcome_loop _ _ _ _ _ _ _ _ _ _ file); try done.
    + by repeat apply silent_app.
    + apply silent_when.
Qed.


Lemma silent_requests cs (P : list Z -> Prop) t :
  silent t ->
  Forall (eq cs) (payload_requests t) /\ Forall P (frames_written t).
Proof. intros (_ & -> & ->). by split. Qed.

Lemma device_upload_exit_requests fuel file size offset bank d :
  0 <= size ->
  let t := trace (device_upload_exit verbosity fuel file size offset bank d) in
  Forall (eq (chunk_size size)) (payload_requests t)
  /\ Forall (is_chunk_frame host_order DEV_CMD_LOADRAM (chunk_size size) bank)
       (frames_written t).
Proof.
  intros Hs t. subst t. unfold device_upload_exit.
  rewrite upload_size_given by done.
  set (l := mkLocals offset 0 file).
  unfold printf, fprintf_stderr.
  rewrite trace_bind, trace_when, final_when_emit.
  cbn [emit trace snd].
  set (t0 := if 1 <? verbosity then _ else _).
  assert (Ht0 : silent t0) by apply silent_when.
  destruct (malloc_ok (chunk_size size)); cbn [negb].
  2: { apply silent_requests. by apply silent_app. }
  set (sc := ftdi_write_data_set_chunksize (chunk_size size) d).
  assert (Hsc : silent (trace sc)).
  { unfold sc, ftdi_write_data_set_chunksize.
    by destruct (usb_write_chunksize _ _). }
  rewrite trace_bind. fold sc.
  destruct (result sc =? 0); cbn [negb].
  2: { apply silent_requests. by repeat apply silent_app. }
  rewrite trace_bind, trace_when, final_when_emit.
  cbn [emit trace snd].
  set (t1 := if 0 <? verbosity then _ else _).
  assert (Ht1 : silent t1) by apply silent_when.
  rewrite trace_bind, upload_loop_chunk_loop.
  destruct (chunk_loop_requests UploadWriteFailed DEV_CMD_LOADRAM
              (chunk_size size) bank
              (upload_chunk verbosity (chunk_size size) size bank)
              (upload_chunk_outcome verbosity (chunk_size size) size bank)
              fuel size l (final sc)) as (Hrq & Hfs).
  set (loop := chunk_loop _ _ _ _ _) in *.
  match goal with
  | |- context [trace loop ++ ?x] => set (tail := x)
  end.
  assert (Htail : silent tail).
  { subst tail. destruct (result loop) as [[[] ?]|]; try done.
    rewrite trace_bind, trace_when. cbn [ret emit trace snd].
    rewrite app_nil_r. apply silent_when. }
  replace (t0 ++ trace sc ++ t1 ++ trace loop ++ tail)
    with ((t0 ++ trace sc ++ t1) ++ trace loop ++ tail)
    by (by rewrite <- !app_assoc).
  destruct (observed_inside (t0 ++ trace sc ++ t1) (trace loop) tail)
    as (_ & -> & ->); [by repeat apply silent_app|done|done].
Qed.

Lemma device_download_exit_requests fuel file size offset bank d :
  0 <= size ->
  let t :=
    trace (device_download_exit verbosity fuel file size offset bank d) in
  Forall (eq (chunk_size size)) (payload_requests t)
  /\ Forall (is_chunk_frame host_order DEV_CMD_DUMPRAM (chunk_size size) bank)
       (frames_written t).
Proof.
  intros Hs t. subst t. unfold device_download_exit.
  rewrite download_size_given by done.
  set (l := mkLocals offset 0 file).
  unfold printf, fprintf_stderr.
  rewrite trace_bind, trace_when, final_when_emit.
  cbn [emit trace snd].
  set (t0 := if 1 <? verbosity then _ else _).
  assert (Ht0 : silent t0) by apply silent_when.
  destruct (malloc_ok (chunk_size size)); cbn [negb].
  2: { apply silent_requests. by apply silent_app. }
  set (sc := ftdi_read_data_set_chunksize (chunk_size size) d).
  assert (Hsc : silent (trace sc)).
  { unfold sc, ftdi_read_data_set_chunksize.
    by destruct (usb_read_chunksize _ _). }
  rewrite trace_bind. fold sc.
  destruct (result sc =? 0); cbn [negb].
  2: { apply silent_requests. by repeat apply silent_app. }
  rewrite trace_bind, trace_when, final_when_emit.
  cbn [emit trace snd].
  set (t1 := if 0 <? verbosity then _ else _).
  assert (Ht1 : silent t1) by apply silent_when.
  rewrite trace_bind, download_loop_chunk_loop.
  destruct (chunk_loop_requests DownloadReadFailed DEV_CMD_DUMPRAM
              (chunk_size size) bank
              (download_chunk verbosity (chunk_size size) size bank)
              (download_chunk_outcome verbosity (chunk_size size) size bank)
              fuel size l (final sc)) as (Hrq & Hfs).
  set (loop := chunk_loop _ _ _ _ _) in *.
  match goal with
  | |- context [trace loop ++ ?x] => set (tail := x)
  end.
  assert (Htail : silent tail).
  { subst tail. destruct (result loop) as [[[] ?]|]; try done.
    rewrite trace_bind, trace_when. cbn [ret emit trace snd].
    rewrite app_nil_r. apply silent_when. }
  replace (t0 ++ trace sc ++ t1 ++ trace loop ++ tail)
    with ((t0 ++ trace sc ++ t1) ++ trace loop ++ tail)
    by (by rewrite <- !app_assoc).
  destruct (observed_inside (t0 ++ trace sc ++ t1) (trace loop) tail)
    as (_ & -> & ->); [by repeat apply silent_app|done|done].
Qed.

End Calls.

(** ** The claims about transfers *)

Section Transfers.
Context {F : Type} `{Platform F}.
Variable verbosity : Z.

Lemma bind_ext {A B} (c1 c2 : M F A) (k : A -> M F B) d :
  c1 d = c2 d -> bind c1 k d = bind c2 k d.
Proof. unfold bind. by intros ->. Qed.

Lemma bind_ext_r {A B} (c : M F A) (k1 k2 : A -> M F B) d :
  (forall a d', k1 a d' = k2 a d') -> bind c k1 d = bind c k2 d.
Proof.
  unfold bind. intros Hk. destruct (c d) as [[a d1] t1]. by rewrite Hk.
Qed.

Lemma device_upload_exit_fuel fuel file size offset bank d :
  0 <= size -> (Z.to_nat size <= fuel)%nat ->
  device_upload_exit verbosity fuel file size offset bank d
  = device_upload_exit verbosity (Z.to_nat size) file size offset bank d.
Proof.
  intros Hs Hfuel. unfold device_upload_exit.
  rewrite upload_size_given by done.
  apply bind_ext_r. intros _ d1.
  destruct (negb _); [done|].
  apply bind_ext_r. intros err d2.
  destruct (negb _); [done|].
  apply bind_ext_r. intros _ d3.
  apply bind_ext.
  rewrite !upload_loop_chunk_loop.
  apply (chunk_loop_fuel UploadWriteFailed DEV_CMD_LOADRAM (chunk_size size)
           bank _ (upload_chunk_outcome verbosity (chunk_size size) size bank));
    cbn; lia.
Qed.

Lemma device_download_exit_fuel fuel file size offset bank d :
  0 <= size -> (Z.to_nat size <= fuel)%nat ->
  device_download_exit verbosity fuel file size offset bank d
  = device_download_exit verbosity (Z.to_nat size) file size offset bank d.
Proof.
  intros Hs Hfuel. unfold device_download_exit.
  rewrite download_size_given by done.
  apply bind_ext_r. intros _ d1.
  destruct (negb _); [done|].
  apply bind_ext_r. intros err d2.
  destruct (negb _); [done|].
  apply bind_ext_r. intros _ d3.
  apply bind_ext.
  rewrite !download_loop_chunk_loop.
  apply (chunk_loop_fuel DownloadReadFailed DEV_CMD_DUMPRAM (chunk_size size)
           bank _
           (download_chunk_outcome verbosity (chunk_size size) size bank));
    cbn; lia.
Qed.

Lemma chunk_progress host failmsg cmd chunkSize bank l r t :
  chunk_outcome host failmsg cmd chunkSize bank l r t ->
  match r with
  | Return n _ => n <= 0
  | Next l' => readPos l + 1 <= readPos l'
  end.
Proof.
  intros (pre & fails & _ & _ & _ & _ & Hcase).
  destruct Hcase as [(n & f & -> & Hn & _)|(n & f & e & post & -> & Hn & _)];
    cbn; lia.
Qed.

(** C10: for every size that is not negative and whatever the link does,
    an iteration of either chunk loop returns from the function (with the
    non-positive result of its last attempt) or adds at least one to
    [readPos]; so [size] iterations are enough for the loop to end, more
    fuel changes nothing, and the call writes at most [size] command
    frames, one per iteration. *)
Theorem C10_chunk_loops_terminate (size : Z) :
  0 <= size ->
  (forall chunkSize bank l d,
     match result (upload_chunk verbosity chunkSize size bank l d) with
     | Return n _ => n <= 0
     | Next l' => readPos l + 1 <= readPos l'
     end
     /\ match result (download_chunk verbosity chunkSize size bank l d) with
        | Return n _ => n <= 0
        | Next l' => readPos l + 1 <= readPos l'
        end)
  /\ (forall fuel file offset bank d,
        is_u32 offset -> (Z.to_nat size <= fuel)%nat ->
        let up := device_upload_exit verbosity fuel file size offset bank d in
        let down :=
          device_download_exit verbosity fuel file size offset bank d in
        result up <> None
        /\ up = device_upload_exit verbosity (Z.to_nat size) file size offset
                  bank d
        /\ Z.of_nat (length (frames_written (trace up))) <= size
        /\ result down <> None
        /\ down = device_download_exit verbosity (Z.to_nat size) file size
                    offset bank d
        /\ Z.of_nat (length (frames_written (trace down))) <= size).
Proof.
  intros Hs. split.
  - intros chunkSize bank l d. split.
    + apply (chunk_progress _ _ _ _ _ _ _ _
               (upload_chunk_outcome verbosity chunkSize size bank l d)).
    + apply (chunk_progress _ _ _ _ _ _ _ _
               (download_chunk_outcome verbosity chunkSize size bank l d)).
  - intros fuel file offset bank d Hoff Hfuel up down.
    destruct (device_upload_exit_run verbosity fuel file size offset bank d
                Hs Hfuel Hoff) as (e & l' & Hr & Hfr & _).
    destruct (device_download_exit_run verbosity fuel file size offset bank d
                Hs Hfuel Hoff) as (e2 & l2 & Hr2 & Hfr2 & _).
    fold up in Hr, Hfr. fold down in Hr2, Hfr2.
    repeat split.
    + by rewrite Hr.
    + by apply device_upload_exit_fuel.
    + lia.
    + by rewrite Hr2.
    + by apply device_download_exit_fuel.
    + lia.
Qed.


Lemma chunk_bytes_positive t : Forall (fun n => 0 < n) (chunk_bytes t).
Proof.
  unfold chunk_bytes. induction (payload_returns t) as [|r rs IH]; [done|].
  cbn. destruct (decide (0 < r)); [by constructor|done].
Qed.

Lemma sum_positive l : Forall (fun n => 0 < n) l -> l <> [] -> 0 < sum l.
Proof.
  intros Hl Hne.
  assert (Hnn : forall k, Forall (fun n => 0 < n) k -> 0 <= sum k).
  { induction 1 as [|y k Hy _ IH]; [done|].
    change (sum (y :: k)) with (y + sum k). lia. }
  destruct Hl as [|x l Hx Hl]; [done|].
  specialize (Hnn l Hl). change (sum (x :: l)) with (x + sum l). lia.
Qed.

(** C4: for every size that is not negative the chunk size is 32, 16 or 4
    units of 131072 bytes, by the two thresholds of 16 MiB and 2 MiB,
    clamped to the size; it does not decrease when the size grows; it is
    a multiple of 131072 unless the clamp applies; and it is computed once
    for a call: every raw transfer of the call asks for this one value and
    every LOADRAM or DUMPRAM frame of the call carries it. *)
Theorem C4_chunk_size (size : Z) :
  0 <= size ->
  chunk_size size = Z.min (chunk_units size * 131072) size
  /\ (16777216 < size -> chunk_units size = 32)
  /\ (2097152 < size <= 16777216 -> chunk_units size = 16)
  /\ (size <= 2097152 -> chunk_units size = 4)
  /\ (forall size', size <= size' -> chunk_size size <= chunk_size size')
  /\ (chunk_units size * 131072 <= size -> (131072 | chunk_size size))
  /\ (forall fuel file offset bank d,
        let up :=
          trace (device_upload_exit verbosity fuel file size offset bank d) in
        let down :=
          trace (device_download_exit verbosity fuel file size offset bank d)
        in
        Forall (eq (chunk_size size)) (payload_requests up)
        /\ Forall (is_chunk_frame host_order DEV_CMD_LOADRAM
                     (chunk_size size) bank) (frames_written up)
        /\ Forall (eq (chunk_size size)) (payload_requests down)
        /\ Forall (is_chunk_frame host_order DEV_CMD_DUMPRAM
                     (chunk_size size) bank) (frames_written down)).
Proof.
  intros Hs.
  pose proof (chunk_units_cases size) as Hu.
  split; [by apply chunk_size_min|].
  do 3 (split; [lia|]).
  split; [|split].
  - intros size' Hle. apply chunk_size_monotone. lia.
  - intros Hfull. rewrite chunk_size_min, Z.min_l by done.
    exists (chunk_units size). lia.
  - intros fuel file offset bank d up down.
    destruct (device_upload_exit_requests verbosity fuel file size offset
                bank d Hs) as (Hrq & Hfs).
    destruct (device_download_exit_requests verbosity fuel file size offset
                bank d Hs) as (Hrq2 & Hfs2).
    done.
Qed.

End Transfers.

Lemma C10_chunk_loops_terminate_witness :
  let file := mkFile 0 100 in
  (match result (upload_chunk 0 100 100 BANK_CARTROM (mkLocals 0 0 file)
                   (drive0 (mkLink [60] []))) with
   | Return n _ => n <= 0
   | Next l' => 0 + 1 <= readPos l'
   end)
  /\ (let up := device_upload_exit 0 100 file 100 0 BANK_CARTROM
                  (drive0 (mkLink [60; 60] [])) in
      result up <> None
      /\ Z.of_nat (length (frames_written (trace up))) <= 100).
Proof.
  intros file.
  destruct (C10_chunk_loops_terminate 0 100 ltac:(lia)) as [W1 W2].
  split.
  - exact (proj1 (W1 100 BANK_CARTROM (mkLocals 0 0 file)
                    (drive0 (mkLink [60] [])))).
  - specialize (W2 100%nat file 0 BANK_CARTROM (drive0 (mkLink [60; 60] []))
                  ltac:(unfold is_u32; lia) ltac:(lia)).
    exact (conj (proj1 W2) (proj1 (proj2 (proj2 W2)))).
Defined.

Lemma C4_chunk_size_witness :
  chunk_size 3145728 = Z.min (chunk_units 3145728 * 131072) 3145728
  /\ chunk_units 20000000 = 32
  /\ chunk_units 3145728 = 16
  /\ chunk_units 100 = 4
  /\ chunk_size 3145728 <= chunk_size 20000000
  /\ (131072 | chunk_size 3145728)
  /\ Forall (eq (chunk_size 3145728))
       (payload_requests
          (trace (device_upload_exit 0 8 (mkFile 0 3145728) 3145728 0
                    BANK_CARTROM (drive0 (mkLink [] []))))).
Proof.
  destruct (C4_chunk_size 0 3145728 ltac:(lia))
    as (W1 & _ & W2 & _ & W3 & W4 & W5).
  destruct (@C4_chunk_size link _ 0 20000000 ltac:(lia)) as (_ & V & _).
  destruct (@C4_chunk_size link _ 0 100 ltac:(lia)) as (_ & _ & _ & U & _).
  split; [exact W1|]. split; [exact (V ltac:(lia))|].
  split; [exact (W2 ltac:(lia))|]. split; [exact (U ltac:(lia))|].
  split; [exact (W3 20000000 ltac:(lia))|].
  split; [exact (W4 ltac:(vm_compute; discriminate))|].
  exact (proj1 (W5 8%nat (mkFile 0 3145728) 0 BANK_CARTROM
                  (drive0 (mkLink [] [])))).
Defined.

(** C1 fails on the code: a transfer of 3 MiB over a link that moves
    every chunk in full goes in two chunks of 2 MiB; the call succeeds with
    the offset counter and the sum of the bytes of the chunks at 4 MiB, not
    at 3 MiB. *)
Theorem C1_transfer_overshoots_size :
  let d := drive0 (mkLink [] []) in
  let up :=
    device_upload_exit 0 8 (mkFile 0 3145728) 3145728 0 BANK_CARTROM d in
  let down :=
    device_download_exit 0 8 (mkFile 0 0) 3145728 0 BANK_CARTROM d in
  result up
  = Some (XferDone, mkLocals 4194304 4194304 (mkFile 3145728 3145728))
  /\ result (device_upload 0 8 (mkFile 0 3145728) 3145728 0 BANK_CARTROM d)
     = Some 0
  /\ chunk_bytes (trace up) = [2097152; 2097152]
  /\ sum (chunk_bytes (trace up)) = 4194304
  /\ result down
     = Some (XferDone, mkLocals 4194304 4194304 (mkFile 4194304 4194304))
  /\ result (device_download 0 8 (mkFile 0 0) 3145728 0 BANK_CARTROM d)
     = Some 0
  /\ chunk_bytes (trace down) = [2097152; 2097152]
  /\ sum (chunk_bytes (trace down)) = 4194304.
Proof. vm_compute. repeat split. Qed.

(** ** The handshake *)

Lemma stderr_lines_app t1 t2 :
  stderr_lines (t1 ++ t2) = stderr_lines t1 ++ stderr_lines t2.
Proof.
  induction t1 as [|e t1 IH]; [done|].
  destruct e; simpl; by rewrite ?IH.
Qed.

Section Handshake.
Context {F : Type} `{Platform F}.
Variable verbosity : Z.

Local Abbreviation getver_frame := (cmd_frame host_order DEV_CMD_GETVER 0 []).

(** One exchange of GETVER. *)
Lemma getver_exchange resp d :
  let run := device_send_cmd verbosity DEV_CMD_GETVER 0 [] resp 64 d in
  frames_written (trace run) = [getver_frame]
  /\ ((fst (result run) <= 0
       /\ (length (responses_read (trace run)) <= 1)%nat)
      \/ (0 < fst (result run)
          /\ exists data,
               snd (result run) = received data resp 64
               /\ responses_read (trace run) = [data]
               /\ stderr_lines (trace run) = [])).
Proof.
  intros run. subst run. rewrite send_cmd_with_response by lia.
  set (w := usb_write _ _ _). set (r := usb_read _ _).
  destruct (Z.leb_spec (snd w) 0) as [Hw|Hw].
  - cbn [result trace fst snd].
    rewrite frames_written_app, responses_read_app.
    split; [by destruct (2 <? verbosity)|]. left.
    split; [done|]. destruct (2 <? verbosity); cbn; lia.
  - cbn [result trace fst snd].
    rewrite frames_written_app, responses_read_app, stderr_lines_app.
    split; [by destruct (2 <? verbosity), (_ <=? 0)|].
    destruct (Z.leb_spec (fst (snd r)) 0) as [Hr|Hr].
    + left. split; [done|]. destruct (2 <? verbosity); cbn; lia.
    + right. split; [done|]. exists (snd (snd r)).
      by destruct (2 <? verbosity).
Qed.

Lemma get_version_loop_run fuel tries resp d :
  0 <= tries < 4 -> (Z.to_nat (4 - tries) <= fuel)%nat ->
  let run := get_version_loop verbosity fuel tries resp d in
  let t := trace run in
  (length (frames_written t) <= Z.to_nat (4 - tries))%nat
  /\ match result run with
     | None => False
     | Some (VerIoError e) => e <= 0
     | Some VerCommFailure =>
         exists mism,
           buffers resp (responses_read t) = mism
           /\ Z.of_nat (length mism) = 4 - tries
           /\ Forall (fun r => magic_word host_order r <> DEV_MAGIC) mism
           /\ Z.of_nat (length (frames_written t)) = 4 - tries
           /\ stderr_lines t
              = mismatch_lines host_order verbosity mism
                ++ [CommunicationFailure]
     | Some (VerOk r) =>
         exists mism,
           buffers resp (responses_read t) = mism ++ [r]
           /\ Z.of_nat (length mism) < 4 - tries
           /\ Forall (fun r => magic_word host_order r <> DEV_MAGIC) mism
           /\ magic_word host_order r = DEV_MAGIC
           /\ length (frames_written t) = S (length mism)
           /\ stderr_lines t = mismatch_lines host_order verbosity mism
     end.
Proof.
  revert tries resp d.
  induction fuel as [|fuel IH]; intros tries resp d Ht Hfuel run t;
    [lia|].
  subst t run. cbn [get_version_loop].
  rewrite result_bind, trace_bind.
  destruct (getver_exchange resp d) as (Hfr & Hcase).
  set (ex := device_send_cmd _ _ _ _ _ _ d) in *.
  destruct Hcase as [(Herr & Hrd)|(Herr & data & Hresp & Hrd & Hlines)].
  - destruct (Z.leb_spec (fst (result ex)) 0) as [_|?]; [|lia].
    unfold fprintf_stderr. cbn [bind emit ret result final trace fst snd].
    rewrite frames_written_app, Hfr. cbn. split; [lia|done].
  - destruct (Z.leb_spec (fst (result ex)) 0) as [?|_]; [lia|].
    fold (magic_word host_order (snd (result ex))).
    destruct (Z.eqb_spec (magic_word host_order (snd (result ex))) DEV_MAGIC)
      as [Hm|Hm].
    + cbn [ret result trace fst snd]. rewrite app_nil_r, Hfr, Hrd, Hlines.
      split; [cbn; lia|]. exists []. cbn. rewrite <- Hresp.
      repeat split; try done; try lia.
      unfold mismatch_lines. by destruct (0 <? verbosity).
    + unfold fprintf_stderr.
      rewrite result_bind, trace_bind, trace_when, final_when_emit.
      cbn [emit trace snd].
      destruct (Z.leb_spec 4 (tries + 1)) as [Hlast|Hmore].
      * cbn [bind emit ret result final trace fst snd].
        rewrite !frames_written_app, !responses_read_app, !stderr_lines_app,
          Hfr, Hrd, Hlines.
        split; [destruct (0 <? verbosity); cbn; lia|].
        exists [snd (result ex)]. rewrite Hresp.
        unfold mismatch_lines.
        destruct (0 <? verbosity); cbn; repeat split; try done; try lia;
          constructor; try done; by rewrite <- Hresp.
      * specialize (IH (tries + 1) (snd (result ex)) (final ex)
                      ltac:(lia) ltac:(lia)).
        cbn zeta in IH.
        set (rest := get_version_loop _ _ _ _ _) in *.
        destruct IH as (IHfr & IH).
        rewrite !frames_written_app, !responses_read_app, !stderr_lines_app,
          Hfr, Hrd, Hlines.
        assert (Hq : frames_written
                  (if 0 <? verbosity
                   then [EvStderr (IncorrectMagic
                           (magic_word host_order (snd (result ex))))]
                   else []) = []
                /\ responses_read
                  (if 0 <? verbosity
                   then [EvStderr (IncorrectMagic
                           (magic_word host_order (snd (result ex))))]
                   else []) = []
                /\ stderr_lines
                  (if 0 <? verbosity
                   then [EvStderr (IncorrectMagic
                           (magic_word host_order (snd (result ex))))]
                   else [])
                  = mismatch_lines host_order verbosity [snd (result ex)]).
        { unfold mismatch_lines. by destruct (0 <? verbosity). }
        destruct Hq as (-> & -> & ->).
        cbn [app length buffers]. rewrite <- Hresp.
        split; [lia|].
        destruct (result rest) as [[e| |r]|]; [done| | |done].
        -- destruct IH as (mism & Hb & Hlen & Hall & Hfrs & Hl).
           exists (snd (result ex) :: mism). rewrite Hb, Hl.
           cbn [length app]. repeat split; try lia.
           ++ by constructor.
           ++ unfold mismatch_lines. by destruct (0 <? verbosity).
        -- destruct IH as (mism & Hb & Hlen & Hall & Hmg & Hfrs & Hl).
           exists (snd (result ex) :: mism). rewrite Hb, Hl.
           cbn [length app]. repeat split; try done; try lia.
           ++ by constructor.
           ++ unfold mismatch_lines. by destruct (0 <? verbosity).
Qed.


(** The whole of [device_get_version]: the first response is not looked
    at; then up to four are. *)
Lemma device_get_version_exit_run response d :
  let run := device_get_version_exit verbosity response d in
  handshake_outcome verbosity response d (result run) (final run)
    (trace run).
Proof.
  intros run. subst run. unfold handshake_outcome, device_get_version_exit.
  rewrite result_bind, trace_bind, final_bind.
  destruct (getver_exchange response d) as (Hfr & Hcase).
  set (ex := device_send_cmd _ _ _ _ _ _ d) in *.
  destruct Hcase as [(Herr & Hrd)|(Herr & data & Hresp & Hrd & Hlines)].
  - destruct (Z.leb_spec (fst (result ex)) 0) as [_|?]; [|lia]. done.
  - destruct (Z.leb_spec (fst (result ex)) 0) as [?|_]; [lia|].
    rewrite result_bind, trace_bind, final_bind.
    pose proof (get_version_loop_run 4 0 (snd (result ex)) (final ex)
                  ltac:(lia) ltac:(lia)) as Hloop.
    cbn zeta in Hloop.
    set (loop := get_version_loop _ _ _ _ _) in *.
    destruct Hloop as (_ & Hloop).
    assert (Hvar : forall fuel tries resp d0,
              variant (final (get_version_loop verbosity fuel tries resp d0))
              = variant d0).
    { clear. induction fuel as [|fuel IH]; intros tries resp d0; [done|].
      cbn [get_version_loop]. rewrite final_bind.
      set (ex := device_send_cmd _ _ _ _ _ _ d0).
      assert (Hex : variant (final ex) = variant d0).
      { subst ex. rewrite send_cmd_with_response by lia.
        by destruct (_ <=? 0). }
      destruct (_ <=? 0); [done|]. destruct (_ =? _); [done|].
      unfold fprintf_stderr. rewrite final_bind, final_when_emit.
      destruct (4 <=? tries + 1); [done|]. by rewrite IH. }
    assert (Hex : variant (final ex) = variant d).
    { subst ex. rewrite send_cmd_with_response by lia.
      by destruct (_ <=? 0). }
    destruct (result loop) as [[e| |r]|] eqn:Hres; [done| | |done].
    + destruct Hloop as (mism & Hb & Hlen & Hall & Hfrs & Hl).
      exists (snd (result ex)), mism.
      cbn [ret result final trace fst snd].
      rewrite app_nil_r, frames_written_app, responses_read_app,
        stderr_lines_app, Hfr, Hrd, Hlines, Hl.
      cbn [app buffers length]. rewrite <- Hresp, Hb.
      repeat split; try done; try lia.
      subst loop. by rewrite Hvar.
    + destruct Hloop as (mism & Hb & Hlen & Hall & Hmg & Hfrs & Hl).
      exists (snd (result ex)), mism.
      rewrite !trace_bind, !final_bind.
      cbn [ret set_variant result final trace fst snd variant].
      rewrite !app_nil_r, frames_written_app, responses_read_app,
        stderr_lines_app, Hfr, Hrd, Hlines, Hl.
      cbn [app buffers length]. rewrite <- Hresp, Hb, Hfrs.
      repeat split; try done; lia.
Qed.

End Handshake.

(** ** The magic word and the packed variant *)

Ltac kill_byte_bits :=
  repeat match goal with
  | H : is_u8 ?b |- context [Z.testbit ?b ?l] =>
      first [ rewrite (Z.testbit_neg_r b l) by lia
            | rewrite (testbit_above b 8 l H) by lia ]
  end;
  repeat match goal with
  | |- context [Z.testbit ?p ?a] =>
      match goal with
      | |- context [Z.testbit p ?b] =>
          lazymatch a with
          | b => fail
          | _ => replace a with b by lia
          end
      end
  end;
  repeat match goal with
  | |- context [Z.testbit ?p ?a] => destruct (Z.testbit p a)
  end;
  reflexivity.

Lemma be_word_of_le_load b4 b5 b6 b7 :
  is_u8 b4 -> is_u8 b5 -> is_u8 b6 -> is_u8 b7 ->
  swap_endian (Z.lor (Z.lor (Z.lor b4 (Z.shiftl b5 8)) (Z.shiftl b6 16))
                 (Z.shiftl b7 24))
  = Z.lor (Z.lor (Z.lor (Z.shiftl b4 24) (Z.shiftl b5 16)) (Z.shiftl b6 8)) b7.
Proof.
  intros H4 H5 H6 H7.
  unfold swap_endian, u32.
  change 0x00ff0000 with (Z.shiftl (Z.ones 8) 16).
  change 0x0000ff00 with (Z.shiftl (Z.ones 8) 8).
  rewrite <- !Z.land_ones by lia.
  Z.bitblast; kill_byte_bits.
Qed.

Lemma lor_shiftl_disjoint b k a :
  0 <= a < 2 ^ k -> 0 <= k -> Z.lor (Z.shiftl b k) a = b * 2 ^ k + a.
Proof.
  intros Ha Hk.
  pose proof (Z.add_lor_land (Z.shiftl b k) a) as Hadd.
  assert (Hl : Z.land (Z.shiftl b k) a = 0).
  { apply Z.bits_inj'. intros i Hi.
    rewrite Z.land_spec, Z.bits_0.
    destruct (Z.lt_ge_cases i k).
    - by rewrite Z.shiftl_spec_low by lia.
    - rewrite (testbit_above a k i) by lia. apply andb_false_r. }
  rewrite Hl, Z.add_0_r, Z.shiftl_mul_pow2 in Hadd by lia.
  by rewrite Z.shiftl_mul_pow2 by lia.
Qed.

Lemma packed_bytes b0 b1 b2 :
  is_u8 b0 -> is_u8 b1 -> is_u8 b2 ->
  Z.lor (Z.lor (Z.shiftl b0 24) (Z.shiftl b1 16)) (Z.shiftl b2 8)
  = b0 * 2 ^ 24 + b1 * 2 ^ 16 + b2 * 2 ^ 8.
Proof.
  unfold is_u8. intros H0 H1 H2.
  rewrite (Z.shiftl_mul_pow2 b1), (Z.shiftl_mul_pow2 b2) by lia.
  rewrite (lor_shiftl_disjoint b0 24 (b1 * 2 ^ 16)); [|lia|lia].
  assert (Hq : b0 * 2 ^ 24 + b1 * 2 ^ 16 = Z.shiftl (b0 * 2 ^ 8 + b1) 16)
    by (rewrite Z.shiftl_mul_pow2 by lia; lia).
  rewrite Hq at 1.
  rewrite (lor_shiftl_disjoint (b0 * 2 ^ 8 + b1) 16 (b2 * 2 ^ 8));
    [lia|lia|lia].
Qed.

Lemma pack_variant_bytes r :
  let b0 := r !!! 0%nat in
  let b1 := r !!! 1%nat in
  let b2 := r !!! 2%nat in
  is_u8 b0 -> is_u8 b1 -> is_u8 b2 ->
  (b0 < 128 -> pack_variant r = b0 * 2 ^ 24 + b1 * 2 ^ 16 + b2 * 2 ^ 8)
  /\ (128 <= b0 ->
      pack_variant r = b0 * 2 ^ 24 + b1 * 2 ^ 16 + b2 * 2 ^ 8 - 2 ^ 32)
  /\ (0 < pack_variant r <-> b0 < 128 /\ (b0 <> 0 \/ b1 <> 0 \/ b2 <> 0)).
Proof.
  intros b0 b1 b2 H0 H1 H2. unfold pack_variant. fold b0 b1 b2.
  rewrite packed_bytes by done. unfold is_u8 in *. unfold s32.
  set (p := b0 * 2 ^ 24 + b1 * 2 ^ 16 + b2 * 2 ^ 8).
  assert (Hp : 0 <= p < 2 ^ 32) by (subst p; lia).
  destruct (Z.lt_ge_cases b0 128) as [Hlo|Hhi].
  - assert (Hs : (p + 2 ^ 31) mod 2 ^ 32 = p + 2 ^ 31).
    { apply Z.mod_small. subst p. lia. }
    rewrite Hs. subst p. repeat split; lia.
  - assert (Hs : (p + 2 ^ 31) mod 2 ^ 32 = p + 2 ^ 31 - 2 ^ 32).
    { assert (2 ^ 31 <= p) by (subst p; lia).
      clearbody p. Z.div_mod_to_equations. lia. }
    rewrite Hs. subst p. repeat split; lia.
Qed.

Lemma magic_word_little_endian r :
  is_u8 (r !!! 4%nat) -> is_u8 (r !!! 5%nat) -> is_u8 (r !!! 6%nat) ->
  is_u8 (r !!! 7%nat) ->
  magic_word LittleEndian r = second_word_be r.
Proof.
  intros. unfold magic_word, second_word_be, load_u32.
  by apply be_word_of_le_load.
Qed.

(** ** The exchanges of the handshake and what they returned *)

Lemma exchange_results_app t1 t2 :
  exchange_results (t1 ++ t2) = exchange_results t1 ++ exchange_results t2.
Proof.
  induction t1 as [|e t1 IH]; [done|].
  destruct e as [[bs|] n w| | | | | | |]; simpl; rewrite ?IH; try done.
  by destruct (w <=? 0).
Qed.

Section HandshakeResponses.
Context {F : Type} `{Platform F}.
Variable verbosity : Z.

Lemma getver_exchange_result resp d :
  let run := device_send_cmd verbosity DEV_CMD_GETVER 0 [] resp 64 d in
  exchange_results (trace run) = [fst (result run)]
  /\ variant (final run) = variant d.
Proof.
  intros run. subst run. rewrite send_cmd_with_response by lia.
  set (w := usb_write _ _ _). set (r := usb_read _ _).
  destruct (Z.leb_spec (snd w) 0) as [Hw|Hw].
  - cbn [result final trace fst snd]. rewrite exchange_results_app.
    split; [|done]. cbn [exchange_results].
    destruct (Z.leb_spec (snd w) 0); [|lia]. by destruct (2 <? verbosity).
  - cbn [result final trace fst snd]. rewrite exchange_results_app.
    split; [|done]. cbn [exchange_results].
    destruct (Z.leb_spec (snd w) 0); [lia|].
    by destruct (2 <? verbosity), (_ <=? 0).
Qed.

Lemma get_version_loop_variant fuel tries resp d :
  variant (final (get_version_loop verbosity fuel tries resp d)) = variant d.
Proof.
  revert tries resp d.
  induction fuel as [|fuel IH]; intros tries resp d; [done|].
  cbn [get_version_loop]. rewrite final_bind.
  destruct (getver_exchange_result resp d) as (_ & Hex).
  set (ex := device_send_cmd _ _ _ _ _ _ d) in *.
  destruct (_ <=? 0); [done|]. destruct (_ =? _); [done|].
  unfold fprintf_stderr. rewrite final_bind, final_when_emit.
  destruct (4 <=? tries + 1); [done|]. by rewrite IH.
Qed.

Lemma get_version_loop_results fuel tries resp d :
  0 <= tries < 4 -> (Z.to_nat (4 - tries) <= fuel)%nat ->
  let run := get_version_loop verbosity fuel tries resp d in
  let t := trace run in
  let sts := exchange_results t in
  length (frames_written t) = length sts
  /\ match result run with
     | Some (VerIoError err) =>
         exists oks,
           sts = oks ++ [err]
           /\ Forall (fun s => 0 < s) oks
           /\ Z.of_nat (length oks) < 4 - tries
           /\ Forall (fun r => magic_word host_order r <> DEV_MAGIC)
                (take (length oks) (buffers resp (responses_read t)))
     | Some _ => Forall (fun s => 0 < s) sts
     | None => True
     end.
Proof.
  revert tries resp d.
  induction fuel as [|fuel IH]; intros tries resp d Ht Hfuel run t sts;
    [lia|].
  subst sts t run. cbn [get_version_loop].
  rewrite result_bind, trace_bind.
  destruct (getver_exchange verbosity resp d) as (Hfr & Hcase).
  destruct (getver_exchange_result resp d) as (Hst & _).
  set (ex := device_send_cmd _ _ _ _ _ _ d) in *.
  destruct Hcase as [(Herr & Hrd)|(Herr & data & Hresp & Hrd & Hlines)].
  - destruct (Z.leb_spec (fst (result ex)) 0) as [_|?]; [|lia].
    unfold fprintf_stderr. cbn [bind emit ret result final trace fst snd].
    rewrite frames_written_app, exchange_results_app, Hfr, Hst.
    split; [done|]. exists []. cbn. repeat split; try done; lia.
  - destruct (Z.leb_spec (fst (result ex)) 0) as [?|_]; [lia|].
    fold (magic_word host_order (snd (result ex))).
    destruct (Z.eqb_spec (magic_word host_order (snd (result ex))) DEV_MAGIC)
      as [Hm|Hm].
    + cbn [ret result trace fst snd]. rewrite app_nil_r, Hfr, Hst.
      split; [done|]. by repeat constructor.
    + unfold fprintf_stderr.
      rewrite result_bind, trace_bind, trace_when, final_when_emit.
      cbn [emit trace snd].
      assert (Hq : frames_written
                (if 0 <? verbosity
                 then [EvStderr (IncorrectMagic
                         (magic_word host_order (snd (result ex))))]
                 else []) = []
              /\ responses_read
                (if 0 <? verbosity
                 then [EvStderr (IncorrectMagic
                         (magic_word host_order (snd (result ex))))]
                 else []) = []
              /\ exchange_results
                (if 0 <? verbosity
                 then [EvStderr (IncorrectMagic
                         (magic_word host_order (snd (result ex))))]
                 else []) = []).
      { by destruct (0 <? verbosity). }
      destruct Hq as (Hq1 & Hq2 & Hq3).
      destruct (Z.leb_spec 4 (tries + 1)) as [Hlast|Hmore].
      * cbn [bind emit ret result final trace fst snd].
        rewrite !frames_written_app, !exchange_results_app, Hfr, Hst, Hq1, Hq3.
        split; [done|]. by repeat constructor.
      * specialize (IH (tries + 1) (snd (result ex)) (final ex)
                      ltac:(lia) ltac:(lia)).
        cbn zeta in IH.
        set (rest := get_version_loop _ _ _ _ _) in *.
        destruct IH as (IHfr & IH).
        rewrite !frames_written_app, !exchange_results_app,
          !responses_read_app, Hfr, Hst, Hrd, Hq1, Hq2, Hq3.
        cbn [app length buffers]. rewrite <- Hresp.
        split; [by rewrite IHfr|].
        destruct (result rest) as [[e| |r]|]; [| | |done].
        -- destruct IH as (oks & Hs & Hpos & Hlen & Hall).
           exists (fst (result ex) :: oks). rewrite Hs.
           cbn [length app take]. repeat split; try done.
           ++ by constructor.
           ++ lia.
           ++ by constructor.
        -- by constructor.
        -- by constructor.
Qed.

Lemma device_get_version_exit_results response d :
  let run := device_get_version_exit verbosity response d in
  let t := trace run in
  let sts := exchange_results t in
  length (frames_written t) = length sts
  /\ match result run with
     | Some (VerIoError err) =>
         exists oks,
           sts = oks ++ [err]
           /\ Forall (fun s => 0 < s) oks
           /\ (length oks <= 4)%nat
           /\ Forall (fun r => magic_word host_order r <> DEV_MAGIC)
                (take (length oks - 1)
                   (drop 1 (buffers response (responses_read t))))
           /\ variant (final run) = variant d
     | Some _ => Forall (fun s => 0 < s) sts
     | None => True
     end.
Proof.
  intros run t sts. subst sts t run. unfold device_get_version_exit.
  rewrite result_bind, trace_bind, final_bind.
  destruct (getver_exchange verbosity response d) as (Hfr & Hcase).
  destruct (getver_exchange_result response d) as (Hst & Hvar).
  set (ex := device_send_cmd _ _ _ _ _ _ d) in *.
  destruct Hcase as [(Herr & Hrd)|(Herr & data & Hresp & Hrd & Hlines)].
  - destruct (Z.leb_spec (fst (result ex)) 0) as [_|?]; [|lia].
    unfold fprintf_stderr. cbn [bind emit ret result final trace fst snd].
    rewrite frames_written_app, exchange_results_app, Hfr, Hst.
    split; [done|]. exists []. cbn. repeat split; try done; lia.
  - destruct (Z.leb_spec (fst (result ex)) 0) as [?|_]; [lia|].
    rewrite result_bind, trace_bind, final_bind.
    pose proof (get_version_loop_results 4 0 (snd (result ex)) (final ex)
                  ltac:(lia) ltac:(lia)) as Hloop.
    pose proof (get_version_loop_variant 4 0 (snd (result ex)) (final ex))
      as Hlv.
    cbn zeta in Hloop.
    set (loop := get_version_loop _ _ _ _ _) in *.
    destruct Hloop as (Hfrs & Hloop).
    destruct (result loop) as [[e| |r]|] eqn:Hres.
    + cbn [ret result final trace fst snd].
      rewrite app_nil_r, frames_written_app, exchange_results_app,
        responses_read_app, Hfr, Hst, Hrd.
      cbn [app buffers length drop]. rewrite <- Hresp.
      split; [by rewrite Hfrs|].
      destruct Hloop as (oks & Hs & Hpos & Hlen & Hall).
      exists (fst (result ex) :: oks). rewrite Hs.
      cbn [length app]. rewrite Nat.sub_succ, Nat.sub_0_r.
      repeat split; try done.
      * by constructor.
      * lia.
      * congruence.
    + cbn [ret result final trace fst snd].
      rewrite app_nil_r, frames_written_app, exchange_results_app, Hfr, Hst.
      cbn [app length]. split; [by rewrite Hfrs|]. by constructor.
    + rewrite !trace_bind.
      cbn [ret set_variant result final trace fst snd].
      rewrite !app_nil_r, frames_written_app, exchange_results_app, Hfr, Hst.
      cbn [app length]. split; [by rewrite Hfrs|]. by constructor.
    + cbn [ret result final trace fst snd].
      rewrite app_nil_r, frames_written_app, exchange_results_app, Hfr, Hst.
      cbn [app length]. split; [by rewrite Hfrs|done].
Qed.

End HandshakeResponses.

(** ** From the array [response] to the responses read *)

Lemma received_first_words data resp :
  length resp = 64%nat -> (8 <= length data)%nat ->
  take 8 (received data resp 64) = take 8 data
  /\ length (received data resp 64) = 64%nat.
Proof.
  intros Hresp Hdata. unfold received.
  change (Z.to_nat 64) with 64%nat. rewrite Hresp. split.
  - rewrite take_take. change (8 `min` 64)%nat with 8%nat.
    rewrite take_app_le by (rewrite length_take; lia).
    rewrite take_take. by change (8 `min` 64)%nat with 8%nat.
  - rewrite length_take, length_app, length_drop, length_take. lia.
Qed.

Lemma buffers_first_words resp datas n :
  length resp = 64%nat ->
  Forall full_response (take n datas) ->
  Forall2 (fun buf data => take 8 buf = take 8 data /\ full_response data)
    (take n (buffers resp datas)) (take n datas).
Proof.
  revert resp n.
  induction datas as [|data datas IH]; intros resp n Hresp Hfull.
  - destruct n; constructor.
  - destruct n as [|n]; [constructor|].
    cbn [take buffers] in *.
    apply List.Forall_cons_iff in Hfull as (Hdata & Hfull).
    destruct (received_first_words data resp Hresp (proj1 Hdata))
      as (Hwords & Hlen).
    constructor; [done|]. by apply IH.
Qed.

Lemma first_words_lookup (buf data : list Z) i :
  take 8 buf = take 8 data -> (i < 8)%nat -> buf !!! i = data !!! i.
Proof.
  intros Heq Hi.
  rewrite <- (lookup_total_take_lt buf 8 i), Heq by done.
  by apply lookup_total_take_lt.
Qed.

Lemma full_response_byte data i :
  full_response data -> (i < 8)%nat -> is_u8 (data !!! i).
Proof.
  intros (Hlen & Hall) Hi. apply Forall_lookup_total_1; [done|lia].
Qed.

Lemma first_words_magic buf data :
  take 8 buf = take 8 data /\ full_response data ->
  magic_word LittleEndian buf = second_word_be data
  /\ pack_variant buf = pack_variant data
  /\ (buf !!! 0%nat, buf !!! 1%nat, buf !!! 2%nat)
     = (data !!! 0%nat, data !!! 1%nat, data !!! 2%nat).
Proof.
  intros (Heq & Hfull).
  assert (Hb : forall i, (i < 8)%nat -> buf !!! i = data !!! i)
    by (intros; by apply first_words_lookup).
  split; [|split].
  - rewrite magic_word_little_endian
      by (rewrite Hb by lia; apply full_response_byte; [done|lia]).
    unfold second_word_be. by rewrite !Hb by lia.
  - unfold pack_variant. by rewrite !Hb by lia.
  - by rewrite !Hb by lia.
Qed.

Lemma first_words_mismatches bufs datas :
  Forall2 (fun buf data => take 8 buf = take 8 data /\ full_response data)
    bufs datas ->
  Forall (fun r => magic_word LittleEndian r <> DEV_MAGIC) bufs ->
  Forall (fun r => ~ has_magic r) datas.
Proof.
  induction 1 as [|buf data bufs datas Hrel _ IH]; intros Hall;
    [constructor|].
  apply List.Forall_cons_iff in Hall as (Hbuf & Hall).
  constructor; [|by apply IH].
  unfold has_magic. by rewrite <- (proj1 (first_words_magic buf data Hrel)).
Qed.

Lemma first_words_reports verbosity bufs datas :
  Forall2 (fun buf data => take 8 buf = take 8 data /\ full_response data)
    bufs datas ->
  mismatch_lines LittleEndian verbosity bufs
  = mismatch_reports verbosity datas.
Proof.
  unfold mismatch_lines, mismatch_reports. intros Hrel.
  destruct (0 <? verbosity); [|done].
  induction Hrel as [|buf data bufs datas Hrel _ IH]; [done|].
  cbn [map]. by rewrite IH, (proj1 (first_words_magic buf data Hrel)).
Qed.

(** The responses of the exchanges that went well are whole. *)
Lemma full_reads_prefix t oks rest :
  full_reads t ->
  exchange_results t = oks ++ rest -> Forall (fun s => 0 < s) oks ->
  Forall full_response (take (length oks) (responses_read t)).
Proof.
  unfold full_reads. revert oks.
  induction t as [|e t IH]; intros oks Hfull Hsts Hpos.
  - destruct oks; constructor.
  - apply List.Forall_cons_iff in Hfull as (He & Hfull).
    destruct e as [[bs|] n w|n r data| | | | | |]; cbn in Hsts |- *;
      try (by apply IH).
    + destruct (Z.leb_spec w 0) as [Hw|Hw]; [|by apply IH].
      destruct oks as [|o oks]; [constructor|].
      injection Hsts as -> _.
      apply List.Forall_cons_iff in Hpos as (Ho & _). lia.
    + destruct oks as [|o oks]; [constructor|].
      injection Hsts as -> Hsts.
      apply List.Forall_cons_iff in Hpos as (Ho & Hpos).
      cbn [length take]. constructor; [by apply He|by apply IH].
Qed.

Lemma responses_le_results t :
  (length (responses_read t) <= length (exchange_results t))%nat.
Proof.
  induction t as [|e t IH]; [done|].
  destruct e as [[bs|] n w|n r data| | | | | |]; cbn; try lia.
  destruct (w <=? 0); cbn; lia.
Qed.

Lemma full_reads_all t :
  full_reads t -> Forall (fun s => 0 < s) (exchange_results t) ->
  Forall full_response (responses_read t).
Proof.
  intros Hfull Hpos.
  pose proof (full_reads_prefix t (exchange_results t) [] Hfull
                (eq_sym (app_nil_r _)) Hpos) as Hpre.
  rewrite take_ge in Hpre by apply responses_le_results. done.
Qed.

Lemma buffers_first_words_all resp datas :
  length resp = 64%nat ->
  Forall full_response datas ->
  Forall2 (fun buf data => take 8 buf = take 8 data /\ full_response data)
    (buffers resp datas) datas.
Proof.
  intros Hresp Hfull.
  pose proof (buffers_first_words resp datas (length datas) Hresp) as Hag.
  rewrite (take_ge datas) in Hag by done.
  specialize (Hag Hfull).
  rewrite take_ge in Hag; [done|].
  clear. revert resp. induction datas as [|data datas IH]; intros resp; [done|].
  cbn. specialize (IH (received data resp 64)). lia.
Qed.

(** What the exit of the handshake tells of the exchanges, and back. *)
Lemma handshake_responses_verdict {F : Type} verbosity e status
    (d d' : sixtyfourDrive F) t :
  handshake_responses verbosity e status d d' t ->
  let sts := exchange_results t in
  let reads := responses_read t in
  ((exists buf, e = Some (VerOk buf))
   <-> Forall (fun s => 0 < s) sts /\ Exists has_magic (drop 1 reads))
  /\ (e = Some VerCommFailure /\ status = Some (-1) /\ length sts = 5%nat
      <-> Forall (fun s => 0 < s) sts
          /\ Forall (fun r => ~ has_magic r) (drop 1 reads)).
Proof.
  intros (_ & Hrel) sts reads. fold sts reads in Hrel.
  assert (Hno : forall l : list (list Z),
            Exists has_magic l -> Forall (fun r => ~ has_magic r) l -> False).
  { intros l Hex Hall. apply List.Exists_exists in Hex as (r & Hin & Hr).
    by apply (proj1 (List.Forall_forall _ l) Hall r). }
  destruct e as [[err| |buf]|]; [| | |done].
  - destruct Hrel as (_ & Herr & oks & Hs & _).
    assert (Hbad : ~ Forall (fun s => 0 < s) sts).
    { rewrite Hs. intros Hall. apply List.Forall_app in Hall as (_ & Hall).
      apply List.Forall_cons_iff in Hall as (Hpos & _). lia. }
    split; split; try (by intros (? & ?)); by intros (x & ?).
  - destruct Hrel as (Hst & Hpos & Hlen & first & mism & Hr & _ & Hall & _).
    rewrite Hr. cbn [drop]. split; split.
    + by intros (x & ?).
    + intros (_ & Hex). by destruct (Hno mism).
    + done.
    + done.
  - destruct Hrel as (Hpos & first & mism & resp & Hr & _ & _ & Hm & _).
    rewrite Hr. cbn [drop].
    assert (Hex : Exists has_magic (mism ++ [resp])).
    { apply List.Exists_app. right. by constructor. }
    split; split.
    + done.
    + intros _. by exists buf.
    + by intros (? & _).
    + intros (_ & Hall). by destruct (Hno (mism ++ [resp])).
Qed.

(** ** The claims about the handshake *)

(** C2 (as amended): on a little-endian host, and as long as every read
    that reports progress delivers at least the first 8 bytes of a
    response, [device_get_version] goes as follows.  An exchange that
    returns zero or less ends the call at once with that value.  Otherwise
    the response of the first exchange is not looked at, and the call
    accepts the first later response whose second big-endian word is
    0x55444556, if that is among the next four, taking the variant from
    that response; when none of these four has the magic word the call
    gives -1 after exactly five exchanges, with the line
    [Communication failure]; a mismatch is not fatal and is told on stderr
    only when [verbosity > 0].  Whether the call accepts or gives up is
    decided by the responses alone.  See [handshake_responses]. *)
Theorem C2_handshake {F : Type} `{Platform F} (verbosity : Z)
    (response : list Z) (d : sixtyfourDrive F) :
  host_order = LittleEndian ->
  length response = 64%nat ->
  let run := device_get_version_exit verbosity response d in
  let status := result (device_get_version verbosity response d) in
  let sts := exchange_results (trace run) in
  let reads := responses_read (trace run) in
  full_reads (trace run) ->
  handshake_responses verbosity (result run) status d (final run) (trace run)
  /\ ((exists buf, result run = Some (VerOk buf))
      <-> Forall (fun s => 0 < s) sts /\ Exists has_magic (drop 1 reads))
  /\ (result run = Some VerCommFailure /\ status = Some (-1)
      /\ length sts = 5%nat
      <-> Forall (fun s => 0 < s) sts
          /\ Forall (fun r => ~ has_magic r) (drop 1 reads))
  /\ DEV_MAGIC = 0x55444556.
Proof.
  intros Hhost Hlen run status sts reads Hfull.
  assert (Hrel : handshake_responses verbosity (result run) status d
                   (final run) (trace run)).
  { pose proof (device_get_version_exit_run verbosity response d) as Hout.
    pose proof (device_get_version_exit_results verbosity response d)
      as (Hfrs & Hres).
    assert (Hstatus : status = option_map version_status (result run)).
    { subst status run. unfold device_get_version. by rewrite result_bind. }
    cbn zeta in Hout, Hfrs, Hres. fold run in Hout, Hfrs, Hres.
    fold sts reads in Hfrs, Hres.
    unfold handshake_outcome in Hout. rewrite Hhost in Hout, Hres.
    unfold handshake_responses. fold sts reads. split; [done|].
    destruct (result run) as [[err| |buf]|] eqn:He; [| | |done].
    - destruct Hres as (oks & Hs & Hpos & Hlen4 & Hall & Hvar).
      split; [done|]. split; [done|]. exists oks.
      repeat split; try done.
      destruct oks as [|o oks]; [constructor|].
      pose proof (full_reads_prefix _ (o :: oks) [err] Hfull Hs Hpos) as Hpre.
      pose proof (buffers_first_words response _ _ Hlen Hpre) as Hag.
      cbn [length] in Hall, Hag |- *.
      rewrite Nat.sub_succ, Nat.sub_0_r, take_drop_commute in Hall |- *.
      apply (Forall2_drop _ _ _ 1%nat) in Hag.
      by apply (first_words_mismatches _ _ Hag).
    - destruct Hout as (first & mism & Hb & Hl4 & Hall & Hfr5 & Hlines & Hvar).
      pose proof (buffers_first_words_all response _ Hlen
                    (full_reads_all _ Hfull Hres)) as Hag.
      fold run reads in Hag, Hb. rewrite Hb in Hag.
      apply Forall2_cons_inv_l in Hag as (f' & m' & Hf & Hm & Hreads).
      split; [done|]. split; [done|]. split; [congruence|].
      exists f', m'. split; [done|]. split; [|split; [|split]].
      + by rewrite <- (Forall2_length _ _ _ Hm).
      + by apply (first_words_mismatches _ _ Hm).
      + by rewrite Hlines, (first_words_reports _ _ _ Hm).
      + done.
    - destruct Hout
        as (first & mism & Hb & Hl3 & Hall & Hmg & Hfrl & Hlines & Hvar).
      pose proof (buffers_first_words_all response _ Hlen
                    (full_reads_all _ Hfull Hres)) as Hag.
      fold run reads in Hag, Hb. rewrite Hb in Hag.
      apply Forall2_cons_inv_l in Hag as (f' & k & Hf & Hk & Hreads).
      apply Forall2_app_inv_l in Hk as (m' & k2 & Hm & Hk2 & ->).
      apply Forall2_cons_inv_l in Hk2 as (resp & k3 & Hresp & Hk3 & ->).
      apply Forall2_nil_inv_l in Hk3 as ->.
      destruct (first_words_magic _ _ Hresp) as (Hword & Hpack & Hbytes).
      split; [done|]. exists f', m', resp.
      rewrite <- (Forall2_length _ _ _ Hm).
      split; [done|]. split; [done|].
      split; [by apply (first_words_mismatches _ _ Hm)|].
      split; [unfold has_magic; congruence|].
      split; [congruence|].
      split; [by rewrite Hlines, (first_words_reports _ _ _ Hm)|].
      split; [congruence|].
      rewrite Hstatus. cbn. by rewrite Hpack. }
  split; [done|].
  destruct (handshake_responses_verdict _ _ _ _ _ _ Hrel) as (Hacc & Hrej).
  split; [done|]. split; done.
Qed.

Ltac full_reads_by_computation :=
  match goal with
  | |- full_reads ?t =>
      let t' := eval vm_compute in t in
      change (full_reads t'); unfold full_reads
  end;
  repeat (apply List.Forall_cons;
          [first [ exact I
                 | intros _; split;
                   [cbn; lia
                   |repeat (apply List.Forall_cons; [unfold is_u8; lia|]);
                    apply List.Forall_nil] ]|]);
  apply List.Forall_nil.

Lemma C2_handshake_witness :
  let d := drive0 (mkLink [] [reply 0 0 0 0; reply 66 50 0 1;
                              reply 66 50 0 DEV_MAGIC]) in
  let run := device_get_version_exit 1 (replicate 64 0) d in
  full_reads (trace run)
  /\ handshake_responses 1 (result run)
       (result (device_get_version 1 (replicate 64 0) d)) d (final run)
       (trace run).
Proof.
  intros d run.
  assert (Hfull : full_reads (trace run)) by full_reads_by_computation.
  split; [done|].
  exact (proj1 (C2_handshake 1 (replicate 64 0) d eq_refl eq_refl Hfull)).
Defined.

(** C2 as stated fails.  A device that never sends the magic word is
    given up after five exchanges, not four.  A device whose first
    response has the magic word and whose next four have not is given up,
    the first response not being looked at.  On a big-endian host a
    device all of whose responses have the magic as their second
    big-endian word is given up. *)
Lemma C2_counterexample :
  (let d := drive0 (mkLink [] (replicate 5 (reply 66 50 0 0))) in
   let run := device_get_version 0 (replicate 64 0) d in
   result run = Some (-1)
   /\ length (frames_written (trace run)) = 5%nat
   /\ length (responses_read (trace run)) = 5%nat)
  /\ (let d := drive0 (mkLink [] (reply 66 50 0 DEV_MAGIC
                                   :: replicate 4 (reply 66 50 0 0))) in
      second_word_be (snd (reply 66 50 0 DEV_MAGIC)) = 0x55444556
      /\ result (device_get_version 0 (replicate 64 0) d) = Some (-1))
  /\ (let d := drive0 (mkLink [] (replicate 5 (reply 66 50 0 DEV_MAGIC))) in
      result (@device_get_version link (scripted BigEndian) 0
                (replicate 64 0) d) = Some (-1)).
Proof. vm_compute. repeat split. Qed.

(** Why the reads have to be whole: a read of three bytes leaves the rest
    of the array as the exchange before left it, so the magic word of the
    first response, which was not looked at, is taken for that of the
    second. *)
Example short_read_keeps_the_old_word :
  let d := drive0 (mkLink [] [reply 1 2 3 DEV_MAGIC; (3, [66; 50; 0])]) in
  let run := device_get_version_exit 0 (replicate 64 0) d in
  responses_read (trace run) = [snd (reply 1 2 3 DEV_MAGIC); [66; 50; 0]]
  /\ ~ full_reads (trace run)
  /\ result run
     = Some (VerOk ([66; 50; 0; 0] ++ be_bytes DEV_MAGIC ++ replicate 56 0)).
Proof.
  intros d run. split; [by vm_compute|]. split; [|by vm_compute].
  intros Hfull. unfold full_reads in Hfull.
  assert (Hin : In (EvRead 64 3 [66; 50; 0]) (trace run))
    by (vm_compute; tauto).
  pose proof (proj1 (List.Forall_forall _ _) Hfull _ Hin) as Hshort.
  cbn in Hshort. destruct Hshort as (Hlen & _); [lia|]. cbn in Hlen. lia.
Qed.

(** C9 (as amended): every failure path of [device_get_version] returns a
    value that is not positive; a call that found the magic word returns
    the three variant bytes packed into the top three bytes of an [int],
    having stored them as the variant; this value is positive exactly when
    the first byte is below 0x80 and the three bytes are not all zero. *)
Theorem C9_version_status {F : Type} `{Platform F} (verbosity : Z)
    (response : list Z) (d : sixtyfourDrive F) :
  let run := device_get_version_exit verbosity response d in
  let status := result (device_get_version verbosity response d) in
  match result run with
  | None => False
  | Some (VerIoError e) => status = Some e /\ e <= 0
  | Some VerCommFailure => status = Some (-1)
  | Some (VerOk r) =>
      let b0 := r !!! 0%nat in
      let b1 := r !!! 1%nat in
      let b2 := r !!! 2%nat in
      magic_word host_order r = DEV_MAGIC
      /\ status = Some (pack_variant r)
      /\ variant (final run) = (b0, b1, b2)
      /\ (is_u8 b0 -> is_u8 b1 -> is_u8 b2 ->
          (b0 < 128 ->
           pack_variant r = b0 * 2 ^ 24 + b1 * 2 ^ 16 + b2 * 2 ^ 8)
          /\ (128 <= b0 ->
              pack_variant r
              = b0 * 2 ^ 24 + b1 * 2 ^ 16 + b2 * 2 ^ 8 - 2 ^ 32)
          /\ (0 < pack_variant r
              <-> b0 < 128 /\ (b0 <> 0 \/ b1 <> 0 \/ b2 <> 0)))
  end.
Proof.
  intros run status.
  pose proof (device_get_version_exit_run verbosity response d) as Hrun.
  cbn zeta in Hrun. fold run in Hrun.
  assert (Hst : status = option_map version_status (result run)).
  { subst status run. unfold device_get_version. by rewrite result_bind. }
  unfold handshake_outcome in Hrun. rewrite Hst.
  destruct (result run) as [[e| |r]|]; cbn [option_map version_status];
    try done.
  destruct Hrun as (first & mism & _ & _ & _ & Hm & _ & _ & Hv).
  split; [done|]. split; [done|]. split; [done|].
  apply pack_variant_bytes.
Qed.

Lemma C9_version_status_witness :
  let d := drive0 (mkLink [] [reply 0 0 0 0; reply 66 50 0 DEV_MAGIC]) in
  let r := snd (reply 66 50 0 DEV_MAGIC) in
  result (device_get_version 0 (replicate 64 0) d) = Some (pack_variant r)
  /\ pack_variant r = 66 * 2 ^ 24 + 50 * 2 ^ 16 + 0 * 2 ^ 8
  /\ 0 < pack_variant r.
Proof.
  intros d r.
  pose proof (C9_version_status 0 (replicate 64 0) d) as W.
  cbn zeta in W.
  change (result (device_get_version_exit 0 (replicate 64 0) d))
    with (Some (VerOk r)) in W.
  destruct W as (_ & Hs & _ & Hb).
  assert (H0 : is_u8 66) by (unfold is_u8; lia).
  assert (H1 : is_u8 50) by (unfold is_u8; lia).
  assert (H2 : is_u8 0) by (unfold is_u8; lia).
  destruct (Hb H0 H1 H2) as (Hlow & _ & Hpos).
  split; [exact Hs|].
  split; [exact (Hlow ltac:(vm_compute; reflexivity))|].
  apply Hpos. split; [vm_compute; reflexivity|].
  left. vm_compute. discriminate.
Defined.

(** C9 as stated fails: a device that answers with the magic word and the
    variant bytes 0, 0, 0 makes the call succeed and return 0; with a
    first variant byte of 0x80 the call succeeds and returns a negative
    value. *)
Lemma C9_counterexample :
  (let d := drive0 (mkLink [] [reply 0 0 0 0; reply 0 0 0 DEV_MAGIC]) in
   result (device_get_version_exit 0 (replicate 64 0) d)
   = Some (VerOk (snd (reply 0 0 0 DEV_MAGIC)))
   /\ result (device_get_version 0 (replicate 64 0) d) = Some 0)
  /\ (let d := drive0 (mkLink [] [reply 0 0 0 0; reply 0x80 0 0 DEV_MAGIC]) in
      result (device_get_version_exit 0 (replicate 64 0) d)
      = Some (VerOk (snd (reply 0x80 0 0 DEV_MAGIC)))
      /\ result (device_get_version 0 (replicate 64 0) d)
         = Some (-2147483648)).
Proof. vm_compute. repeat split. Qed.

(** ** Scenarios *)

(** 1 MiB goes in two chunks of 524288 bytes, at the offsets 0 and
    524288. *)
Example upload_of_1_MiB :
  let run := device_upload_exit 0 8 (mkFile 0 1048576) 1048576 0 BANK_CARTROM
               (drive0 (mkLink [] [])) in
  result run
  = Some (XferDone, mkLocals 1048576 1048576 (mkFile 1048576 1048576))
  /\ frames_written (trace run)
     = [cmd_frame LittleEndian DEV_CMD_LOADRAM 2
          [0; size_and_bank 524288 BANK_CARTROM];
        cmd_frame LittleEndian DEV_CMD_LOADRAM 2
          [524288; size_and_bank 524288 BANK_CARTROM]]
  /\ chunk_bytes (trace run) = [524288; 524288].
Proof. vm_compute. repeat split. Qed.

(** 100 bytes go in one chunk of 100 bytes. *)
Example download_of_100_bytes :
  let run := device_download_exit 0 8 (mkFile 0 0) 100 0 BANK_CARTROM
               (drive0 (mkLink [] [])) in
  result run = Some (XferDone, mkLocals 100 100 (mkFile 100 100))
  /\ payload_requests (trace run) = [100]
  /\ chunk_bytes (trace run) = [100].
Proof. vm_compute. repeat split. Qed.

(** A chunk moved in part is followed by a chunk of the full chunk size:
    100 bytes over a link that moves 60 bytes at a time end at 120. *)
Example upload_in_parts :
  let run := device_upload_exit 0 8 (mkFile 0 100) 100 0 BANK_CARTROM
               (drive0 (mkLink [60; 60] [])) in
  result run = Some (XferDone, mkLocals 120 120 (mkFile 100 100))
  /\ payload_requests (trace run) = [100; 100]
  /\ chunk_bytes (trace run) = [60; 60].
Proof. vm_compute. repeat split. Qed.

(** When the five attempts that fail return 0, the call returns 0, as a
    call that moved everything does. *)
Example abort_that_returns_zero :
  let d := drive0 (mkLink [60; 0; 0; 0; 0; 0] []) in
  result (device_upload_exit 0 8 (mkFile 0 100) 100 0 BANK_CARTROM d)
  = Some (XferAborted 0, mkLocals 60 60 (mkFile 100 100))
  /\ result (device_upload 0 8 (mkFile 0 100) 100 0 BANK_CARTROM d) = Some 0
  /\ last (trace (device_upload 0 8 (mkFile 0 100) 100 0 BANK_CARTROM d))
     = Some (EvStderr (UploadWriteFailed 60)).
Proof. vm_compute. repeat split. Qed.

(** * Further properties of the code *)

(** ** [swap_endian] *)

Lemma swap_endian_u32 p : is_u32 p -> is_u32 (swap_endian p).
Proof.
  intros Hp. unfold is_u32.
  assert (H0 : 0 <= swap_endian p).
  { unfold swap_endian, u32. unfold is_u32 in Hp.
    rewrite !Z.lor_nonneg, !Z.land_nonneg, !Z.shiftr_nonneg.
    pose proof (Z.mod_pos_bound (Z.shiftl p 24) (2 ^ 32) ltac:(lia)).
    lia. }
  split; [done|].
  destruct (Z.eq_dec (swap_endian p) 0) as [->|Hne]; [lia|].
  apply Z.log2_lt_pow2; [lia|].
  assert (Hbits : forall i, 32 <= i -> Z.testbit (swap_endian p) i = false).
  { intros i Hi. unfold swap_endian, u32.
    change 0x00ff0000 with (Z.shiftl (Z.ones 8) 16).
    change 0x0000ff00 with (Z.shiftl (Z.ones 8) 8).
    rewrite <- !Z.land_ones by lia.
    rewrite !Z.lor_spec, !Z.land_spec, !Z.shiftr_spec, !Z.shiftl_spec by lia.
    rewrite !Z.testbit_ones_nonneg by lia.
    rewrite (testbit_u32_high p (i + 8)), (testbit_u32_high p (i + 24)) by (done || lia).
    destruct (Z.ltb_spec i 32); [lia|].
    by rewrite !andb_false_r. }
  destruct (Z.lt_ge_cases (Z.log2 (swap_endian p)) 32) as [|Hge]; [done|].
  pose proof (Z.bit_log2 (swap_endian p) ltac:(lia)) as Hb.
  rewrite Hbits in Hb by lia. done.
Qed.

Lemma swap_endian_twice p : is_u32 p -> swap_endian (swap_endian p) = p.
Proof.
  intros Hp. pose proof (swap_endian_u32 p Hp) as Hq.
  apply Z.bits_inj'. intros i Hi.
  destruct (Z.lt_ge_cases i 32) as [Hlt|Hge].
  2: { rewrite (testbit_u32_high p i), (testbit_u32_high _ i); try done.
       by apply swap_endian_u32. }
  assert (Hb : forall x k j, 0 <= j < 8 -> 0 <= k ->
             Z.testbit x (8 * k + j) = Z.testbit (byte_of x k) j).
  { intros x k j Hj Hk. unfold byte_of. change 255 with (Z.ones 8).
    rewrite Z.land_spec, Z.shiftr_spec, Z.testbit_ones_nonneg by lia.
    destruct (Z.ltb_spec j 8); [|lia]. rewrite andb_true_r. f_equal. lia. }
  assert (Hk : i = 8 * 0 + i /\ 0 <= i < 8 \/ i = 8 * 1 + (i - 8) /\ 0 <= i - 8 < 8
               \/ i = 8 * 2 + (i - 16) /\ 0 <= i - 16 < 8
               \/ i = 8 * 3 + (i - 24) /\ 0 <= i - 24 < 8) by lia.
  destruct Hk as [[E Hj]|[[E Hj]|[[E Hj]|[E Hj]]]]; rewrite E;
    rewrite !Hb by lia.
  - by rewrite byte_of_swap_endian_0, byte_of_swap_endian_3.
  - by rewrite byte_of_swap_endian_1, byte_of_swap_endian_2.
  - by rewrite byte_of_swap_endian_2, byte_of_swap_endian_1.
  - by rewrite byte_of_swap_endian_3, byte_of_swap_endian_0.
Qed.

(** X1: [swap_endian] keeps a [uint32_t] a [uint32_t], and swapping twice
    gives the value back. *)
Theorem X1_swap_endian_involution (val : Z) :
  is_u32 val ->
  is_u32 (swap_endian val) /\ swap_endian (swap_endian val) = val.
Proof. intros Hv. split; [by apply swap_endian_u32|by apply swap_endian_twice]. Qed.

Lemma X1_swap_endian_involution_witness :
  is_u32 (swap_endian 0x55444556)
  /\ swap_endian (swap_endian 0x55444556) = 0x55444556.
Proof.
  apply (X1_swap_endian_involution 0x55444556). unfold is_u32. lia.
Defined.
(** ** The command codec, read back *)

Lemma bytes_recompose v :
  is_u32 v ->
  Z.lor (Z.lor (Z.lor (byte_of v 0) (Z.shiftl (byte_of v 1) 8))
          (Z.shiftl (byte_of v 2) 16)) (Z.shiftl (byte_of v 3) 24) = v.
Proof.
  intros Hv. unfold byte_of. change 255 with (Z.ones 8).
  Z.bitblast; kill_bits Hv.
Qed.

(** X2: what [device_send_cmd] stores for a parameter, read back the way
    [device_get_version] reads the magic ([swap_endian] of the word at
    that place), is the parameter, on a host of either byte order. *)
Theorem X2_parameter_read_back (host : byte_order) (cmd : Z)
    (params : list Z) (i : nat) :
  Forall is_u32 params -> (length params <= 7)%nat -> (i < length params)%nat ->
  swap_endian (load_u32 host (cmd_frame host cmd (length params) params)
                 (4 + 4 * i))
  = params !!! i.
Proof.
  intros Hp Hn Hi.
  do 8 (try destruct params as [|? params]); simpl in Hn, Hi; try lia;
  repeat match goal with
  | H : Forall _ (_ :: _) |- _ => apply Forall_cons in H; destruct H
  end;
  do 7 (try destruct i as [|i]); try lia;
  destruct host;
  cbv -[swap_endian byte_of u8 Z.lor Z.shiftl];
  rewrite bytes_recompose by (by apply swap_endian_u32);
  by apply swap_endian_twice.
Qed.

Lemma X2_parameter_read_back_witness :
  swap_endian (load_u32 BigEndian
                 (cmd_frame BigEndian 0x20 2 [0x00123456; 0x01080000]) 8)
  = 0x01080000.
Proof.
  apply (X2_parameter_read_back BigEndian 0x20 [0x00123456; 0x01080000] 1).
  - repeat constructor; unfold is_u32; lia.
  - simpl. lia.
  - simpl. lia.
Defined.

(** ** The packed size and bank *)

Lemma chunk_size_range size :
  0 <= size ->
  0 <= chunk_size size <= 4194304 /\ chunk_size size <= size
  /\ (0 < size -> 0 < chunk_size size).
Proof.
  intros Hs. rewrite chunk_size_min by done.
  destruct (chunk_units_cases size) as [[? ->]|[[? ->]|[? ->]]]; lia.
Qed.

Lemma size_and_bank_sum chunkSize bank :
  0 <= chunkSize < 2 ^ 24 -> 0 <= bank < 2 ^ 8 ->
  size_and_bank chunkSize bank = bank * 2 ^ 24 + chunkSize.
Proof.
  intros Hc Hb. unfold size_and_bank.
  change 0xffffff with (Z.ones 24).
  rewrite Z.land_ones, Z.mod_small, Z.lor_comm, lor_shiftl_disjoint by lia.
  apply u32_small. unfold is_u32. lia.
Qed.

(** ** The CIC table *)

Lemma find_cic_sound num cic :
  find_cic cic_types 0 num = Some cic ->
  0 <= cic < CIC_LAST
  /\ ((0 <= num < CIC_LAST /\ cic = num) \/ In (num, cic) cic_types).
Proof.
  unfold cic_types. cbn [find_cic]. intros Hf.
  repeat match type of Hf with
  | context [if ?b then _ else _] =>
      let E := fresh "E" in
      destruct b eqn:E;
      [ apply orb_true_iff in E;
        rewrite andb_true_iff, !Z.eqb_eq, Z.ltb_lt in E;
        injection Hf as <-;
        unfold CIC_LAST, CIC_6101, CIC_6102, CIC_7101, CIC_7102, CIC_X103,
          CIC_X105, CIC_X106, CIC_5101 in *;
        (split; [lia|]);
        destruct E as [<-|[? ?]];
        [right; cbn; tauto | left; lia]
      | ]
  end.
  discriminate.
Qed.

Lemma find_cic_index num :
  0 <= num < CIC_LAST -> find_cic cic_types 0 num = Some num.
Proof.
  unfold CIC_LAST. intros Hn.
  assert (Hc : num = 0 \/ num = 1 \/ num = 2 \/ num = 3 \/ num = 4
               \/ num = 5 \/ num = 6 \/ num = 7) by lia.
  repeat destruct Hc as [Hc|Hc]; subst num; reflexivity.
Qed.

Lemma find_cic_listed num cic :
  In (num, cic) cic_types -> find_cic cic_types 0 num = Some cic.
Proof.
  unfold cic_types. cbn [In]. intros Hin.
  repeat destruct Hin as [Hin|Hin]; try done;
    injection Hin as <- <-; reflexivity.
Qed.

Lemma find_cic_none num :
  find_cic cic_types 0 num = None <->
  ~ (0 <= num < CIC_LAST) /\ ~ In num (map fst cic_types).
Proof.
  split.
  - intros Hnone. split.
    + intros Hidx. by rewrite find_cic_index in Hnone.
    + intros Hin. apply in_map_iff in Hin as ([n c] & Hn & Hin).
      cbn in Hn. subst n.
      by rewrite (find_cic_listed _ _ Hin) in Hnone.
  - intros (Hidx & Hin).
    destruct (find_cic cic_types 0 num) as [cic|] eqn:Hf; [|done].
    destruct (find_cic_sound _ _ Hf) as (_ & [(? & _)|Hl]); [done|].
    exfalso. apply Hin. apply in_map_iff. by exists (num, cic).
Qed.

(** X4: the search of [cic_types] in [main]: a number below [CIC_LAST] is
    taken as the internal id itself; a number of the table gives the id
    of its entry; whatever is found is an id below [CIC_LAST], and it was
    found for one of these two reasons; nothing is found exactly for the
    other numbers. *)
Theorem X4_cic_lookup (num : Z) :
  (0 <= num < CIC_LAST -> find_cic cic_types 0 num = Some num)
  /\ (forall cic,
        In (num, cic) cic_types -> find_cic cic_types 0 num = Some cic)
  /\ (forall cic,
        find_cic cic_types 0 num = Some cic ->
        0 <= cic < CIC_LAST
        /\ ((0 <= num < CIC_LAST /\ cic = num) \/ In (num, cic) cic_types))
  /\ (find_cic cic_types 0 num = None <->
      ~ (0 <= num < CIC_LAST) /\ ~ In num (map fst cic_types)).
Proof.
  split; [apply find_cic_index|]. split; [apply find_cic_listed|].
  split; [apply find_cic_sound|apply find_cic_none].
Qed.

Lemma X4_cic_lookup_witness :
  find_cic cic_types 0 3 = Some 3
  /\ find_cic cic_types 0 7102 = Some CIC_7102
  /\ 0 <= CIC_X105 < CIC_LAST.
Proof.
  split; [|split].
  - apply (proj1 (X4_cic_lookup 3)). unfold CIC_LAST. lia.
  - apply (proj1 (proj2 (X4_cic_lookup 7102)) CIC_7102).
    unfold cic_types. cbn. tauto.
  - apply (proj1 (proj2 (proj2 (X4_cic_lookup 105))) CIC_X105 eq_refl).
Defined.

(** ** What [device_send_cmd] gives back *)

Lemma received_length data resp respLen :
  length (received data resp respLen) = length resp.
Proof.
  unfold received. rewrite length_take, length_app, length_drop. lia.
Qed.

Section SendCmdOutcome.

Context {F : Type} `{Platform F}.
Variable verbosity : Z.

Lemma send_cmd_without_read cmd nParams params resp respLen d :
  respLen <= 0 ->
  device_send_cmd verbosity cmd nParams params resp respLen d
  = device_send_cmd verbosity cmd nParams params resp 0 d.
Proof.
  intros Hlen. unfold device_send_cmd.
  destruct (_ <=? _)%nat; [done|].
  apply bind_ext_r. intros _ d1. apply bind_ext_r. intros err d2.
  destruct (err <=? 0); [done|].
  by destruct (Z.ltb_spec 0 respLen) as [?|_]; [lia|].
Qed.

(** X5: [device_send_cmd] returns a value above zero only when all it
    had to do was done; it prints exactly one line on stderr when it
    returns zero or less and none otherwise; after a write that failed it
    reads nothing and leaves the response buffer as it was; it calls
    libftdi at most twice; and the response buffer keeps its length. *)
Theorem X5_send_cmd_outcome (cmd : Z) (nParams : nat) (params resp : list Z)
    (respLen : Z) (d : sixtyfourDrive F) :
  let run := device_send_cmd verbosity cmd nParams params resp respLen d in
  let status := fst (result run) in
  length (snd (result run)) = length resp
  /\ (length (io_events (trace run)) <= 2)%nat
  /\ (0 < status -> stderr_lines (trace run) = [])
  /\ (status <= 0 -> length (stderr_lines (trace run)) = 1%nat)
  /\ (forall buf size w,
        In (EvWrite buf size w) (trace run) -> w <= 0 ->
        responses_read (trace run) = [] /\ result run = (w, resp))
  /\ (0 < status -> 0 < respLen ->
      exists w data,
        0 < w
        /\ io_events (trace run)
           = [EvWrite (Bytes (cmd_frame host_order cmd nParams params))
                (4 + Z.of_nat nParams * 4) w;
              EvRead respLen status data]
        /\ snd (result run) = received data resp respLen).
Proof.
  intros run status. subst status run.
  destruct (Nat.le_gt_cases 8 nParams) as [Hmany|Hfew].
  { rewrite send_cmd_too_many by done. cbn.
    split; [done|]. split; [lia|]. split; [lia|]. split; [done|].
    split; [|lia]. intros buf size w [Hin|[]]. discriminate. }
  assert (Hpre : forall m : message,
            io_events (if 2 <? verbosity then [EvStdout m] else []) = []
            /\ stderr_lines (if 2 <? verbosity then [EvStdout m] else []) = []
            /\ responses_read (if 2 <? verbosity then [EvStdout m] else [])
               = []
            /\ forall buf size w,
                 ~ In (EvWrite buf size w)
                     (if 2 <? verbosity then [EvStdout m] else []))
    by (intros m; destruct (2 <? verbosity); repeat split; try done;
        intros buf size w Hin; repeat destruct Hin as [Hin|Hin]; done).
  destruct (Hpre (SendingCommand cmd)) as (Hp1 & Hp2 & Hp3 & Hp4).
  destruct (Z.ltb_spec 0 respLen) as [Hlen|Hlen].
  - rewrite send_cmd_with_response by lia.
    set (w := usb_write _ _ _). set (r := usb_read _ _).
    destruct (Z.leb_spec (snd w) 0) as [Hw|Hw];
      cbn [result trace fst snd];
      rewrite ?io_events_app, ?stderr_lines_app, ?responses_read_app,
        ?received_length, ?Hp1, ?Hp2, ?Hp3.
    + split; [done|]. split; [cbn; lia|]. split; [lia|]. split; [done|].
      split; [|lia]. intros buf size x Hin Hx.
      apply in_app_or in Hin as [Hin|Hin]; [by apply Hp4 in Hin|].
      repeat destruct Hin as [Hin|Hin]; try done.
      injection Hin as <- <- <-. by destruct w.
    + destruct (Z.leb_spec (fst (snd r)) 0) as [Hr|Hr].
      * split; [done|]. split; [cbn; lia|]. split; [lia|]. split; [done|].
        split; [|lia]. intros buf size x Hin Hx.
        apply in_app_or in Hin as [Hin|Hin]; [by apply Hp4 in Hin|].
        repeat destruct Hin as [Hin|Hin]; try done.
        injection Hin as <- <- <-. lia.
      * split; [done|]. split; [cbn; lia|]. split; [done|]. split; [lia|].
        split.
        -- intros buf size x Hin Hx.
           apply in_app_or in Hin as [Hin|Hin]; [by apply Hp4 in Hin|].
           repeat destruct Hin as [Hin|Hin]; try done.
           injection Hin as <- <- <-. lia.
        -- intros _ _. by exists (snd w), (snd (snd r)).
  - rewrite send_cmd_without_read, send_cmd_no_response by lia.
    set (w := usb_write _ _ _).
    cbn [result trace fst snd];
      rewrite ?io_events_app, ?stderr_lines_app, ?responses_read_app,
        ?Hp1, ?Hp2, ?Hp3.
    destruct (Z.leb_spec (snd w) 0) as [Hw|Hw].
    + split; [done|]. split; [cbn; lia|]. split; [lia|]. split; [done|].
      split; [|lia]. intros buf size x Hin Hx.
      apply in_app_or in Hin as [Hin|Hin]; [by apply Hp4 in Hin|].
      repeat destruct Hin as [Hin|Hin]; try done.
      injection Hin as <- <- <-. by destruct w.
    + split; [done|]. split; [cbn; lia|]. split; [done|]. split; [lia|].
      split; [|lia]. intros buf size x Hin Hx.
      apply in_app_or in Hin as [Hin|Hin]; [by apply Hp4 in Hin|].
      repeat destruct Hin as [Hin|Hin]; try done.
      injection Hin as <- <- <-. lia.
Qed.

End SendCmdOutcome.

Lemma X5_send_cmd_outcome_witness :
  let d := drive0 (mkLink [] [reply 66 50 0 DEV_MAGIC]) in
  let run := device_send_cmd 0 DEV_CMD_GETVER 0 [] (replicate 64 0) 64 d in
  stderr_lines (trace run) = []
  /\ exists w data,
       0 < w
       /\ io_events (trace run)
          = [EvWrite (Bytes (cmd_frame host_order DEV_CMD_GETVER 0 []))
               (4 + Z.of_nat 0 * 4) w;
             EvRead 64 (fst (result run)) data]
       /\ snd (result run) = received data (replicate 64 0) 64.
Proof.
  intros d run.
  destruct (X5_send_cmd_outcome 0 DEV_CMD_GETVER 0 [] (replicate 64 0) 64 d)
    as (_ & _ & W1 & _ & _ & W2).
  split.
  - apply W1. vm_compute. reflexivity.
  - apply W2; [vm_compute; reflexivity|lia].
Defined.

(** ** The handshake, whatever its exit *)

Section HandshakeBounds.

Context {F : Type} `{Platform F}.
Variable verbosity : Z.

Lemma getver_exchange_events resp d :
  let ex := device_send_cmd verbosity DEV_CMD_GETVER 0 [] resp 64 d in
  Forall handshake_event (trace ex)
  /\ (length (responses_read (trace ex)) <= 1)%nat
  /\ version (final ex) = version d
  /\ variant (final ex) = variant d.
Proof.
  intros ex. subst ex. rewrite send_cmd_with_response by lia.
  assert (Hfr : cmd_frame host_order DEV_CMD_GETVER 0 []
                = [DEV_CMD_GETVER; char "C"; char "M"; char "D"])
    by reflexivity.
  rewrite Hfr.
  destruct (_ <=? 0); cbn [final trace fst snd version variant];
    rewrite responses_read_app.
  - destruct (2 <? verbosity); cbn; repeat split; try lia;
      repeat constructor.
  - destruct (2 <? verbosity), (_ <=? 0); cbn; repeat split; try lia;
      repeat constructor.
Qed.

Lemma get_version_loop_events fuel tries resp d :
  0 <= tries < 4 ->
  let run := get_version_loop verbosity fuel tries resp d in
  Forall handshake_event (trace run)
  /\ (length (responses_read (trace run))
      <= length (frames_written (trace run)))%nat
  /\ version (final run) = version d
  /\ variant (final run) = variant d.
Proof.
  revert tries resp d.
  induction fuel as [|fuel IH]; intros tries resp d Ht run; subst run;
    [by repeat split|].
  cbn [get_version_loop].
  rewrite trace_bind, final_bind.
  destruct (getver_exchange_events resp d) as (Hev & Hrd & Hver & Hvar).
  destruct (getver_exchange verbosity resp d) as (Hfr & _).
  set (ex := device_send_cmd _ _ _ _ _ _ d) in *. clearbody ex.
  rewrite responses_read_app, frames_written_app, Hfr, !length_app.
  destruct (fst (result ex) <=? 0).
  { cbn. repeat split; try done; try lia.
    apply Forall_app. split; [done|]. repeat constructor. }
  destruct (_ =? DEV_MAGIC).
  { cbn. rewrite app_nil_r. repeat split; try done; lia. }
  unfold fprintf_stderr.
  rewrite trace_bind, final_bind, trace_when, final_when_emit.
  assert (Hdiag : forall m,
            Forall handshake_event
              (if 0 <? verbosity then trace (emit (EvStderr m) (final ex))
               else [])
            /\ responses_read
                 (if 0 <? verbosity then trace (emit (EvStderr m) (final ex))
                  else []) = []
            /\ frames_written
                 (if 0 <? verbosity then trace (emit (EvStderr m) (final ex))
                  else []) = [])
    by (intros m; destruct (0 <? verbosity); repeat split; try done;
        repeat constructor).
  destruct (Hdiag (IncorrectMagic
                     (swap_endian (load_u32 host_order (snd (result ex)) 4))))
    as (Hd1 & Hd2 & Hd3).
  rewrite responses_read_app, frames_written_app, Hd2, Hd3.
  destruct (Z.leb_spec 4 (tries + 1)).
  { cbn. repeat split; try done; try lia.
    rewrite !Forall_app. repeat split; try done. repeat constructor. }
  destruct (IH (tries + 1) (snd (result ex)) (final ex) ltac:(lia))
    as (IH1 & IH2 & IH3 & IH4).
  cbn [app length]. rewrite IH3, IH4, !Forall_app.
  repeat split; try done. lia.
Qed.

(** X6: whatever the link does, [device_get_version] writes the frame
    of GETVER at most five times and reads only 64-byte responses, never
    more of them than it wrote frames; it does nothing else to the link:
    no purge, no wait; it never changes the version of the device
    structure, and changes the variant only when it leaves through the
    exit of success. *)
Theorem X6_handshake_is_bounded (response : list Z) (d : sixtyfourDrive F) :
  let run := device_get_version_exit verbosity response d in
  Forall handshake_event (trace run)
  /\ (length (frames_written (trace run)) <= 5)%nat
  /\ (length (responses_read (trace run))
      <= length (frames_written (trace run)))%nat
  /\ version (final run) = version d
  /\ ((forall r, result run <> Some (VerOk r)) ->
      variant (final run) = variant d).
Proof.
  intros run. subst run. unfold device_get_version_exit.
  rewrite result_bind, trace_bind, final_bind.
  destruct (getver_exchange_events response d) as (Hev & Hrd & Hver & Hvar).
  destruct (getver_exchange verbosity response d) as (Hfr & _).
  set (ex := device_send_cmd _ _ _ _ _ _ d) in *. clearbody ex.
  rewrite responses_read_app, frames_written_app, Hfr, !length_app.
  destruct (fst (result ex) <=? 0).
  { cbn. repeat split; try done; try lia.
    apply Forall_app. split; [done|]. repeat constructor. }
  rewrite result_bind, trace_bind, final_bind.
  destruct (get_version_loop_events 4 0 (snd (result ex)) (final ex)
              ltac:(lia)) as (L1 & L2 & L3 & L4).
  destruct (get_version_loop_run verbosity 4 0 (snd (result ex)) (final ex)
              ltac:(lia) ltac:(lia)) as (L5 & _).
  set (loop := get_version_loop _ _ _ _ _) in *. clearbody loop.
  assert (Htail : forall e : option version_exit,
    let tail := match e with
                | Some (VerOk r) =>
                    set_variant (r !!! 0%nat, r !!! 1%nat, r !!! 2%nat) ;;;
                    ret e
                | _ => ret e
                end (final loop) in
    trace tail = [] /\ result tail = e
    /\ version (final tail) = version (final loop)
    /\ ((forall r, e <> Some (VerOk r)) ->
        variant (final tail) = variant (final loop))).
  { intros [[err| |r]|]; cbn; repeat split; try done.
    intros Hno. by destruct (Hno r). }
  destruct (Htail (result loop)) as (T1 & T2 & T3 & T4).
  rewrite T1, T2, T3, app_nil_r, L3, Hver, !Forall_app.
  cbn [length] in *.
  repeat split; try done; try lia.
  intros Hno. by rewrite T4, L4.
Qed.

End HandshakeBounds.

Lemma X6_handshake_is_bounded_witness :
  let d := mkDrive (mkLink [] (replicate 5 (reply 66 50 0 0))) 2
             (char "B", 0, 0) in
  variant (final (device_get_version_exit 0 (replicate 64 0) d))
  = (char "B", 0, 0).
Proof.
  intros d.
  apply (X6_handshake_is_bounded 0 (replicate 64 0) d).
  intros r. vm_compute. discriminate.
Defined.

(** ** Transfers that end before the loop, and empty transfers *)

Section EarlyExits.

Context {F : Type} `{Platform F}.
Variable verbosity : Z.

Lemma io_events_stdout (b : bool) m :
  io_events (if b then [EvStdout m] else []) = []
  /\ stderr_lines (if b then [EvStdout m] else []) = [].
Proof. by destruct b. Qed.

(** X7: when [malloc] of the chunk buffer fails, [device_upload] and
    [device_download] return -1 after one line on stderr without a single
    call of libftdi; when setting the chunk size fails with [err], they
    return [err] after one line on stderr, and that call is the only one
    made: no frame is sent. *)
Theorem X7_transfer_early_exits (fuel : nat) (file : FILE)
    (size offset bank : Z) (d : sixtyfourDrive F) :
  let up := device_upload verbosity fuel file size offset bank d in
  let down := device_download verbosity fuel file size offset bank d in
  let usize := chunk_size (fst (upload_size file size)) in
  let dsize := chunk_size (download_size size) in
  (malloc_ok usize = false ->
     result up = Some (-1) /\ io_events (trace up) = []
     /\ stderr_lines (trace up) = [UploadOutOfMemory])
  /\ (malloc_ok usize = true ->
      snd (usb_write_chunksize (ftdi d) usize) <> 0 ->
      let err := snd (usb_write_chunksize (ftdi d) usize) in
      result up = Some err
      /\ io_events (trace up) = [EvWriteChunksize usize err]
      /\ stderr_lines (trace up) = [UploadSetChunkFailed])
  /\ (malloc_ok dsize = false ->
      result down = Some (-1) /\ io_events (trace down) = []
      /\ stderr_lines (trace down) = [DownloadOutOfMemory])
  /\ (malloc_ok dsize = true ->
      snd (usb_read_chunksize (ftdi d) dsize) <> 0 ->
      let err := snd (usb_read_chunksize (ftdi d) dsize) in
      result down = Some err
      /\ io_events (trace down) = [EvReadChunksize dsize err]
      /\ stderr_lines (trace down) = [DownloadSetChunkFailed]).
Proof.
  intros up down usize dsize. subst up down usize dsize.
  unfold device_upload, device_download, device_upload_exit,
    device_download_exit.
  destruct (upload_size file size) as [usize ufile]. cbn [fst].
  unfold printf, fprintf_stderr.
  split; [|split; [|split]].
  - intros Hm. rewrite Hm. cbn [negb].
    rewrite result_bind, trace_bind, result_bind, !trace_bind, trace_when.
    cbn [emit ret result final trace fst snd option_map transfer_status].
    rewrite !io_events_app, !stderr_lines_app.
    destruct (io_events_stdout (1 <? verbosity)
                (ChunkSizeIs (chunk_units usize)
                   (Z.land (u32 (chunk_units usize * 128 * 1024)) 16777215)))
      as (-> & ->).
    done.
  - intros Hm Herr. rewrite Hm. cbn [negb].
    rewrite result_bind, trace_bind, result_bind, !trace_bind, trace_when,
      final_when_emit, !result_bind.
    unfold ftdi_write_data_set_chunksize.
    destruct (usb_write_chunksize _ _) as [f err].
    cbn [snd] in Herr. cbn [result final trace fst snd].
    destruct (Z.eqb_spec err 0) as [?|_]; [done|].
    cbn [negb emit ret bind result final trace fst snd option_map
         transfer_status].
    rewrite !io_events_app, !stderr_lines_app.
    destruct (io_events_stdout (1 <? verbosity)
                (ChunkSizeIs (chunk_units usize)
                   (Z.land (u32 (chunk_units usize * 128 * 1024)) 16777215)))
      as (-> & ->).
    done.
  - intros Hm. rewrite Hm. cbn [negb].
    rewrite result_bind, trace_bind, result_bind, !trace_bind, trace_when.
    cbn [emit ret result final trace fst snd option_map transfer_status].
    rewrite !io_events_app, !stderr_lines_app.
    destruct (io_events_stdout (1 <? verbosity)
                (ChunkSizeIs (chunk_units (download_size size))
                   (u32 (chunk_units (download_size size) * 128 * 1024))))
      as (-> & ->).
    done.
  - intros Hm Herr. rewrite Hm. cbn [negb].
    rewrite result_bind, trace_bind, result_bind, !trace_bind, trace_when,
      final_when_emit, !result_bind.
    unfold ftdi_read_data_set_chunksize.
    destruct (usb_read_chunksize _ _) as [f err].
    cbn [snd] in Herr. cbn [result final trace fst snd].
    destruct (Z.eqb_spec err 0) as [?|_]; [done|].
    cbn [negb emit ret bind result final trace fst snd option_map
         transfer_status].
    rewrite !io_events_app, !stderr_lines_app.
    destruct (io_events_stdout (1 <? verbosity)
                (ChunkSizeIs (chunk_units (download_size size))
                   (u32 (chunk_units (download_size size) * 128 * 1024))))
      as (-> & ->).
    done.
Qed.

End EarlyExits.

Lemma X7_transfer_early_exits_witness :
  let file := mkFile 0 100 in
  let d := drive0 (mkLink [] []) in
  result (@device_upload link out_of_memory 0 8 file 100 0 BANK_CARTROM d)
  = Some (-1)
  /\ result (@device_upload link (no_chunksize (-4)) 0 8 file 100 0
               BANK_CARTROM d) = Some (-4)
  /\ result (@device_download link out_of_memory 0 8 file 100 0
               BANK_CARTROM d) = Some (-1)
  /\ result (@device_download link (no_chunksize (-4)) 0 8 file 100 0
               BANK_CARTROM d) = Some (-4).
Proof.
  intros file d.
  pose proof (@X7_transfer_early_exits link out_of_memory 0 8%nat file 100 0
                BANK_CARTROM d) as (U1 & _ & D1 & _).
  pose proof (@X7_transfer_early_exits link (no_chunksize (-4)) 0 8%nat file
                100 0 BANK_CARTROM d) as (_ & U2 & _ & D2).
  split; [exact (proj1 (U1 eq_refl))|].
  split; [exact (proj1 (U2 eq_refl ltac:(vm_compute; discriminate)))|].
  split; [exact (proj1 (D1 eq_refl))|].
  exact (proj1 (D2 eq_refl ltac:(vm_compute; discriminate))).
Defined.

(** ** The anatomy of a transfer *)

Lemma chunk_outcome_read host failmsg cmd chunkSize bank l r t :
  chunk_outcome host failmsg cmd chunkSize bank l r t ->
  frames_written t
  = [cmd_frame host cmd 2 [offset l; size_and_bank chunkSize bank]]
  /\ match r with
     | Return n l1 =>
         n <= 0 /\ chunk_bytes t = []
         /\ offset l1 = offset l /\ readPos l1 = readPos l
     | Next l1 =>
         exists n, 0 < n /\ chunk_bytes t = [n]
           /\ offset l1 = u32 (offset l + n) /\ readPos l1 = readPos l + n
     end.
Proof.
  intros (pre & fails & Hpr & Hpq & Hpf & Hfails & Hcase).
  destruct (backoff_observed _ _ Hfails) as (Hb1 & _ & Hb3 & _).
  destruct Hcase as [(n & f & -> & Hn & _ & ->)
                    |(n & f & e & post & -> & Hn & _ & He & Hpost & ->)];
    rewrite !frames_written_app, !chunk_bytes_app, Hpf, Hb1, Hb3,
      (chunk_bytes_quiet _ Hpr).
  - done.
  - destruct (attempt_observed _ _ _ He) as (He1 & _ & He3).
    destruct Hpost as (Hp1 & _ & Hp3).
    rewrite He3, Hp3, (chunk_bytes_quiet _ Hp1). split; [done|].
    exists n. unfold chunk_bytes. rewrite He1. cbn.
    by rewrite decide_True by lia.
Qed.

(** ** The packed parameter on the wire *)

(** X3: for a size that is not negative and a bank id of one byte, the
    chunk size is at most 4 MiB, so it fits the 24 bits it is given in the
    second parameter of LOADRAM and DUMPRAM: the low 24 bits of the
    parameter are the chunk size and its top byte is the bank.  In the
    frame that an iteration of either chunk loop writes on a little-endian
    host the parameter follows the offset as the bank byte and then the
    three bytes of the chunk size, most significant first; on a big-endian
    host the four bytes go out in the opposite order. *)
Theorem X3_size_and_bank_decodes {F : Type} `{Platform F}
    (verbosity size bank : Z) :
  0 <= size -> 0 <= bank < 2 ^ 8 ->
  let c := chunk_size size in
  let param := size_and_bank c bank in
  let packed := [bank; byte_of c 2; byte_of c 1; byte_of c 0] in
  0 <= c <= 4194304
  /\ is_u32 param
  /\ Z.land param 0xffffff = c
  /\ Z.shiftr param 24 = bank
  /\ be_bytes param = packed
  /\ (forall cmd o, is_u8 cmd -> is_u32 o ->
        cmd_frame LittleEndian cmd 2 [o; param]
        = [cmd; char "C"; char "M"; char "D"] ++ be_bytes o ++ packed
        /\ cmd_frame BigEndian cmd 2 [o; param]
           = [cmd; char "C"; char "M"; char "D"] ++ le_bytes o
             ++ [byte_of c 0; byte_of c 1; byte_of c 2; bank])
  /\ (host_order = LittleEndian ->
      forall l d, is_u32 (offset l) ->
        frames_written (trace (upload_chunk verbosity c size bank l d))
        = [[DEV_CMD_LOADRAM; char "C"; char "M"; char "D"]
           ++ be_bytes (offset l) ++ packed]
        /\ frames_written (trace (download_chunk verbosity c size bank l d))
           = [[DEV_CMD_DUMPRAM; char "C"; char "M"; char "D"]
              ++ be_bytes (offset l) ++ packed]).
Proof.
  intros Hs Hb c param packed.
  destruct (chunk_size_range size Hs) as (Hr & _). fold c in Hr.
  assert (Hsum : param = bank * 2 ^ 24 + c)
    by (subst param; by rewrite size_and_bank_sum by lia).
  assert (Hu : is_u32 param) by (rewrite Hsum; unfold is_u32; lia).
  assert (Hland : Z.land param 0xffffff = c).
  { rewrite Hsum. change 0xffffff with (Z.ones 24).
    rewrite Z.land_ones by lia.
    rewrite Z.add_comm, Z.mod_add by lia. apply Z.mod_small. lia. }
  assert (Hshr : Z.shiftr param 24 = bank).
  { rewrite Hsum, Z.shiftr_div_pow2 by lia.
    rewrite Z.add_comm, Z.div_add by lia. rewrite Z.div_small; lia. }
  assert (Hlow : forall k, 0 <= k <= 2 -> byte_of param k = byte_of c k).
  { intros k Hk. rewrite Hsum.
    replace (bank * 2 ^ 24 + c) with (Z.lor (Z.shiftl bank 24) c)
      by (by rewrite lor_shiftl_disjoint by lia).
    unfold byte_of. change 255 with (Z.ones 8).
    apply Z.bits_inj'. intros i Hi.
    rewrite !Z.land_spec, !Z.shiftr_spec, Z.lor_spec,
      Z.testbit_ones_nonneg by lia.
    destruct (Z.ltb_spec i 8); [|by rewrite !andb_false_r].
    by rewrite Z.shiftl_spec_low by lia. }
  assert (Hhigh : byte_of param 3 = bank).
  { unfold byte_of. change (8 * 3) with 24. rewrite Hshr.
    change 255 with (Z.ones 8). rewrite Z.land_ones by lia.
    apply Z.mod_small. lia. }
  assert (Hbe : be_bytes param = packed).
  { unfold be_bytes. by rewrite Hhigh, (Hlow 2), (Hlow 1), (Hlow 0) by lia. }
  assert (Hall : forall o, is_u32 o -> Forall is_u32 [o; param]).
  { intros o Ho. apply List.Forall_cons; [done|].
    apply List.Forall_cons; [done|]. apply List.Forall_nil. }
  assert (Hle : forall cmd o, is_u8 cmd -> is_u32 o ->
            cmd_frame LittleEndian cmd 2 [o; param]
            = [cmd; char "C"; char "M"; char "D"] ++ be_bytes o ++ packed).
  { intros cmd o Hc Ho.
    change 2%nat with (length [o; param]).
    rewrite (cmd_frame_little_endian cmd [o; param] Hc (Hall o Ho)
               ltac:(cbn; lia)).
    cbn [flat_map]. by rewrite app_nil_r, Hbe. }
  split; [done|]. split; [done|]. split; [done|]. split; [done|].
  split; [done|]. split.
  - intros cmd o Hc Ho. split; [by apply Hle|].
    change 2%nat with (length [o; param]).
    rewrite (cmd_frame_big_endian cmd [o; param] Hc (Hall o Ho)
               ltac:(cbn; lia)).
    cbn [flat_map]. rewrite app_nil_r. unfold le_bytes at 2.
    by rewrite Hhigh, (Hlow 2), (Hlow 1), (Hlow 0) by lia.
  - intros Hhost l d Ho.
    destruct (chunk_outcome_read _ _ _ _ _ _ _ _
                (upload_chunk_outcome verbosity c size bank l d)) as (Hup & _).
    destruct (chunk_outcome_read _ _ _ _ _ _ _ _
                (download_chunk_outcome verbosity c size bank l d))
      as (Hdown & _).
    rewrite Hup, Hdown, Hhost. fold param.
    by rewrite !Hle by (done || (unfold is_u8; cbn; lia)).
Qed.

Lemma X3_size_and_bank_decodes_witness :
  let c := chunk_size 3145728 in
  let param := size_and_bank c BANK_CARTROM in
  (c = 2097152 /\ param = 0x01200000)
  /\ Z.land param 0xffffff = c
  /\ Z.shiftr param 24 = BANK_CARTROM
  /\ frames_written
       (trace (upload_chunk 0 c 3145728 BANK_CARTROM
                 (mkLocals 0x123456 0 (mkFile 0 3145728)) (drive0 (mkLink [] []))))
     = [[0x20; char "C"; char "M"; char "D"; 0x00; 0x12; 0x34; 0x56;
         0x01; 0x20; 0x00; 0x00]].
Proof.
  intros c param.
  pose proof (X3_size_and_bank_decodes 0 3145728 BANK_CARTROM
                ltac:(lia) ltac:(unfold BANK_CARTROM; lia)) as W.
  split; [by vm_compute|].
  split; [exact (proj1 (proj2 (proj2 W)))|].
  split; [exact (proj1 (proj2 (proj2 (proj2 W))))|].
  destruct W as (_ & _ & _ & _ & _ & _ & W).
  exact (proj1 (W eq_refl (mkLocals 0x123456 0 (mkFile 0 3145728))
                  (drive0 (mkLink [] []))
                  ltac:(unfold is_u32; cbn; lia))).
Defined.

Section Walk.
Context {F : Type} `{Platform F}.
Variables (failmsg : Z -> message) (cmd chunkSize bank : Z).
Variable chunk : locals -> M F step.
Hypothesis chunk_ok : forall l d,
  chunk_outcome host_order failmsg cmd chunkSize bank l
    (result (chunk l d)) (trace (chunk l d)).

Local Abbreviation frame_at o :=
  (cmd_frame host_order cmd 2 [o; size_and_bank chunkSize bank]).

Lemma chunk_loop_done fuel size l d :
  size <= readPos l ->
  chunk_loop chunk fuel size l d = (Some (XferDone, l), d, []).
Proof.
  intros Hge.
  destruct fuel; cbn [chunk_loop];
    by destruct (Z.ltb_spec (readPos l) size) as [?|_]; [lia|].
Qed.

Lemma chunk_loop_walk fuel size l d :
  let run := chunk_loop chunk fuel size l d in
  let bytes := chunk_bytes (trace run) in
  frames_written (trace run)
  = map (fun o => frame_at o) (offsets_from (offset l) bytes)
    ++ match result run with
       | Some (XferAborted _, l') => [frame_at (offset l')]
       | _ => []
       end
  /\ forall e l', result run = Some (e, l') ->
       readPos l' = readPos l + sum bytes
       /\ match e with
          | XferDone =>
              size <= readPos l'
              /\ (readPos l < size ->
                  exists before n,
                    bytes = before ++ [n]
                    /\ readPos l + sum before < size)
          | XferAborted n => n <= 0 /\ readPos l' < size
          | _ => False
          end.
Proof.
  revert l d. induction fuel as [|fuel IH]; intros l d run bytes;
    subst bytes run.
  - cbn [chunk_loop].
    destruct (Z.ltb_spec (readPos l) size) as [Hlt|Hge]; cbn.
    + split; [done|]. intros e l' [=].
    + split; [done|]. intros e l' [= <- <-]. cbn. split; [lia|].
      split; [done|lia].
  - destruct (Z.leb_spec size (readPos l)) as [Hge|Hlt].
    { rewrite chunk_loop_done by done. cbn.
      split; [done|]. intros e l' [= <- <-]. cbn. split; [lia|].
      split; [done|lia]. }
    cbn [chunk_loop].
    destruct (Z.ltb_spec (readPos l) size) as [_|?]; [|lia].
    rewrite result_bind, trace_bind, frames_written_app, chunk_bytes_app.
    destruct (chunk_outcome_read _ _ _ _ _ _ _ _ (chunk_ok l d))
      as (Hfr & Hres).
    rewrite Hfr.
    destruct (result (chunk l d)) as [n l1|l1].
    + destruct Hres as (Hn & -> & Ho & Hr). cbn. rewrite Ho.
      split; [done|]. intros e l' [= <- <-]. lia.
    + destruct Hres as (n & Hn & -> & Ho & Hr).
      specialize (IH l1 (final (chunk l d))). cbn zeta in IH.
      destruct IH as (IHf & IHr).
      set (rest := chunk_loop chunk fuel size l1 (final (chunk l d))) in *.
      rewrite IHf. cbn [app offsets_from map]. rewrite <- Ho.
      split; [done|]. intros e l' Hl'.
      destruct (IHr e l' Hl') as (Hpos & He).
      change (sum (n :: chunk_bytes (trace rest)))
        with (n + sum (chunk_bytes (trace rest))).
      split; [lia|].
      destruct e as [|err|m|]; try done.
      destruct He as (Hsz & Hlast). split; [done|]. intros _.
      destruct (Z.leb_spec size (readPos l1)) as [Hge1|Hlt1].
      * unfold rest. rewrite chunk_loop_done by done. cbn.
        exists [], n. split; [done|]. cbn. lia.
      * destruct (Hlast Hlt1) as (before & k & Hb & Hs).
        exists (n :: before), k. rewrite Hb. split; [done|].
        change (sum (n :: before)) with (n + sum before). lia.
Qed.

End Walk.

Section Anatomy.
Context {F : Type} `{Platform F}.
Variable verbosity : Z.

Lemma silent_nil : silent [].
Proof. done. Qed.

Lemma device_upload_exit_split fuel file size offset bank d :
  let run := device_upload_exit verbosity fuel file size offset bank d in
  let size' := fst (upload_size file size) in
  let l := mkLocals offset 0 (snd (upload_size file size)) in
  (silent (trace run)
   /\ exists e, result run = Some (e, l)
        /\ match e with
           | XferNoMemory | XferChunksizeError _ => True
           | _ => False
           end)
  \/ exists d1 pre post,
       let loop := chunk_loop
                     (upload_chunk verbosity (chunk_size size') size' bank)
                     fuel size' l d1 in
       silent pre /\ silent post
       /\ trace run = pre ++ trace loop ++ post
       /\ result run = result loop
       /\ (forall n l', result loop = Some (XferAborted n, l') -> post = []).
Proof.
  intros run size' l. subst run size' l. unfold device_upload_exit.
  destruct (upload_size file size) as [size' file']. cbn [fst snd].
  set (l := mkLocals offset 0 file').
  unfold printf, fprintf_stderr.
  rewrite result_bind, trace_bind, trace_when, final_when_emit.
  cbn [emit trace snd].
  set (t0 := if 1 <? verbosity then _ else _).
  assert (Ht0 : silent t0) by apply silent_when.
  destruct (malloc_ok (chunk_size size')); cbn [negb].
  2: { left. split; [by apply silent_app|]. by exists XferNoMemory. }
  set (sc := ftdi_write_data_set_chunksize (chunk_size size') d).
  assert (Hsc : silent (trace sc)).
  { unfold sc, ftdi_write_data_set_chunksize.
    by destruct (usb_write_chunksize _ _). }
  rewrite result_bind, trace_bind. fold sc.
  destruct (Z.eqb_spec (result sc) 0) as [Herr|Herr]; cbn [negb].
  2: { left. split; [by repeat apply silent_app|].
       by exists (XferChunksizeError (result sc)). }
  right. exists (final sc).
  rewrite result_bind, trace_bind, trace_when, final_when_emit.
  cbn [emit trace snd].
  set (t1 := if 0 <? verbosity then _ else _).
  assert (Ht1 : silent t1) by apply silent_when.
  rewrite result_bind, trace_bind, upload_loop_chunk_loop.
  set (loop := chunk_loop _ _ _ _ _).
  exists (t0 ++ trace sc ++ t1).
  destruct (result loop) as [[[|err|n|] l']|] eqn:Hr;
    try (exists []; cbn [ret result trace fst snd];
         rewrite <- !app_assoc; repeat split; try done;
         by repeat apply silent_app).
  exists (if 0 <=? verbosity then [EvStdout UploadDone] else []).
  rewrite result_bind, trace_bind, trace_when.
  cbn [ret emit result trace fst snd].
  rewrite app_nil_r, <- !app_assoc.
  split; [by repeat apply silent_app|]. split; [apply silent_when|].
  split; [done|]. split; [done|]. intros n l1 [=].
Qed.

Lemma device_download_exit_split fuel file size offset bank d :
  let run := device_download_exit verbosity fuel file size offset bank d in
  let size' := download_size size in
  let l := mkLocals offset 0 file in
  (silent (trace run)
   /\ exists e, result run = Some (e, l)
        /\ match e with
           | XferNoMemory | XferChunksizeError _ => True
           | _ => False
           end)
  \/ exists d1 pre post,
       let loop := chunk_loop
                     (download_chunk verbosity (chunk_size size') size' bank)
                     fuel size' l d1 in
       silent pre /\ silent post
       /\ trace run = pre ++ trace loop ++ post
       /\ result run = result loop
       /\ (forall n l', result loop = Some (XferAborted n, l') -> post = []).
Proof.
  intros run size' l. subst run size' l. unfold device_download_exit.
  set (size' := download_size size).
  set (l := mkLocals offset 0 file).
  unfold printf, fprintf_stderr.
  rewrite result_bind, trace_bind, trace_when, final_when_emit.
  cbn [emit trace snd].
  set (t0 := if 1 <? verbosity then _ else _).
  assert (Ht0 : silent t0) by apply silent_when.
  destruct (malloc_ok (chunk_size size')); cbn [negb].
  2: { left. split; [by apply silent_app|]. by exists XferNoMemory. }
  set (sc := ftdi_read_data_set_chunksize (chunk_size size') d).
  assert (Hsc : silent (trace sc)).
  { unfold sc, ftdi_read_data_set_chunksize.
    by destruct (usb_read_chunksize _ _). }
  rewrite result_bind, trace_bind. fold sc.
  destruct (Z.eqb_spec (result sc) 0) as [Herr|Herr]; cbn [negb].
  2: { left. split; [by repeat apply silent_app|].
       by exists (XferChunksizeError (result sc)). }
  right. exists (final sc).
  rewrite result_bind, trace_bind, trace_when, final_when_emit.
  cbn [emit trace snd].
  set (t1 := if 0 <? verbosity then _ else _).
  assert (Ht1 : silent t1) by apply silent_when.
  rewrite result_bind, trace_bind, download_loop_chunk_loop.
  set (loop := chunk_loop _ _ _ _ _).
  exists (t0 ++ trace sc ++ t1).
  destruct (result loop) as [[[|err|n|] l']|] eqn:Hr;
    try (exists []; cbn [ret result trace fst snd];
         rewrite <- !app_assoc; repeat split; try done;
         by repeat apply silent_app).
  exists (if 0 <=? verbosity then [EvStdout DownloadDone] else []).
  rewrite result_bind, trace_bind, trace_when.
  cbn [ret emit result trace fst snd].
  rewrite app_nil_r, <- !app_assoc.
  split; [by repeat apply silent_app|]. split; [apply silent_when|].
  split; [done|]. split; [done|]. intros n l1 [=].
Qed.

End Anatomy.

Section Transfer.
Context {F : Type} `{Platform F}.
Variable verbosity : Z.

Lemma transfer_split dir fuel file size offset bank d :
  let run := device_transfer_exit dir verbosity fuel file size offset bank d in
  let size' := transfer_size dir file size in
  (silent (trace run)
   /\ exists e file', result run = Some (e, mkLocals offset 0 file')
        /\ match e with
           | XferNoMemory | XferChunksizeError _ => True
           | _ => False
           end)
  \/ exists failmsg (chunk : locals -> M F step) d1 pre post file',
       let loop := chunk_loop chunk fuel size' (mkLocals offset 0 file') d1 in
       (forall l d,
          chunk_outcome host_order failmsg (transfer_cmd dir)
            (chunk_size size') bank l (result (chunk l d))
            (trace (chunk l d)))
       /\ silent pre /\ silent post
       /\ trace run = pre ++ trace loop ++ post
       /\ result run = result loop.
Proof.
  destruct dir; cbn [device_transfer_exit transfer_size transfer_cmd].
  - destruct (device_upload_exit_split verbosity fuel file size offset bank d)
      as [(Hs & e & Hr & He)|(d1 & pre & post & Hpre & Hpost & Ht & Hr & _)].
    + left. split; [done|]. by exists e, (snd (upload_size file size)).
    + right. eexists UploadWriteFailed, _, d1, pre, post, _.
      split; [apply upload_chunk_outcome|done].
  - destruct (device_download_exit_split verbosity fuel file size offset bank
                d)
      as [(Hs & e & Hr & He)|(d1 & pre & post & Hpre & Hpost & Ht & Hr & _)].
    + left. split; [done|]. by exists e, file.
    + right. eexists DownloadReadFailed, _, d1, pre, post, _.
      split; [apply download_chunk_outcome|done].
Qed.

(** X8: a transfer of more than nothing that runs to its end moves at
    least [size] bytes, and the bytes moved before its last chunk are
    fewer than [size]: what goes beyond [size] is less than the last
    chunk.  One frame is written per chunk moved.  When no chunk moves
    more than the chunk size, the overshoot is less than the chunk size;
    when every chunk moves in full, the total is the number of chunks
    times the chunk size, and it is [size] when the chunk size divides
    [size]. *)
Theorem X8_transfer_total (dir : direction) (fuel : nat) (file : FILE)
    (size offset bank : Z) (d : sixtyfourDrive F) (l' : locals) :
  let run := device_transfer_exit dir verbosity fuel file size offset bank d in
  let size' := transfer_size dir file size in
  let bytes := chunk_bytes (trace run) in
  result run = Some (XferDone, l') -> 0 < size' ->
  (exists before n,
     bytes = before ++ [n]
     /\ sum before < size' <= sum before + n
     /\ readPos l' = sum before + n)
  /\ length (frames_written (trace run)) = length bytes
  /\ (Forall (fun n => n <= chunk_size size') bytes ->
      readPos l' < size' + chunk_size size')
  /\ (Forall (eq (chunk_size size')) bytes ->
      readPos l' = Z.of_nat (length bytes) * chunk_size size'
      /\ ((chunk_size size' | size') -> readPos l' = size')).
Proof.
  intros run size' bytes Hres Hsize. subst bytes.
  destruct (transfer_split dir fuel file size offset bank d)
    as [(_ & e & file' & Hr & He)
       |(failmsg & chunk & d1 & pre & post & file' & Hok & Hpre & Hpost
         & Ht & Hr)]; fold run in Hr.
  { rewrite Hres in Hr. injection Hr as <- _. done. }
  fold run in Ht. fold size' in Hok, Ht, Hr.
  destruct (observed_inside pre
              (trace (chunk_loop chunk fuel size'
                        (mkLocals offset 0 file') d1)) post Hpre Hpost)
    as (Hb & _ & Hf).
  rewrite Ht, Hb, Hf. rewrite Hres in Hr.
  destruct (chunk_loop_walk _ _ _ _ chunk Hok fuel size'
              (mkLocals offset 0 file') d1) as (Hfr & Hwalk).
  destruct (Hwalk _ _ (eq_sym Hr)) as (Hpos & Hge & Hlast).
  cbn [readPos] in Hpos, Hlast.
  destruct (Hlast Hsize) as (before & n & Hbytes & Hlt).
  rewrite Hfr, <- Hr, app_nil_r, length_map.
  rewrite Hbytes in *.
  rewrite sum_app in Hpos.
  change (sum [n]) with (n + 0) in Hpos.
  assert (Hlen : forall o bs, length (offsets_from o bs) = length bs).
  { intros o bs. revert o. induction bs as [|b bs IH]; intros o; [done|].
    cbn. by rewrite IH. }
  split; [exists before, n; split; [done|lia]|].
  split; [apply Hlen|].
  split.
  - intros Hall. apply Forall_app in Hall as (_ & Hn).
    apply Forall_inv in Hn. lia.
  - intros Hall.
    assert (Hsum : forall bs, Forall (eq (chunk_size size')) bs ->
              sum bs = Z.of_nat (length bs) * chunk_size size').
    { induction 1 as [|b bs <- _ IH]; [done|].
      change (sum (chunk_size size' :: bs))
        with (chunk_size size' + sum bs).
      rewrite IH. cbn [length]. lia. }
    pose proof (Hsum _ Hall) as Htot.
    rewrite sum_app in Htot. change (sum [n]) with (n + 0) in Htot.
    split; [lia|].
    intros (m & Hm).
    apply Forall_app in Hall as (Hbefore & Hn).
    apply Forall_inv in Hn. apply Hsum in Hbefore.
    set (k := Z.of_nat (length before)) in *. clearbody k.
    set (c := chunk_size size') in *. clearbody c.
    assert (0 < c) by lia.
    assert (k < m) by (apply (Z.mul_lt_mono_pos_r c); lia).
    assert (m <= k + 1) by (apply (Z.mul_le_mono_pos_r _ _ c); lia).
    assert (m = k + 1) as -> by lia. lia.
Qed.

(** X9: when the size to move is zero or less (a call of size 0, or an
    upload of unspecified size from a file that is at its end or beyond),
    the call returns whatever the fuel, writes no frame and moves no
    payload, and never leaves through a failed chunk. *)
Theorem X9_nothing_to_move (dir : direction) (fuel : nat) (file : FILE)
    (size offset bank : Z) (d : sixtyfourDrive F) :
  let run := device_transfer_exit dir verbosity fuel file size offset bank d in
  transfer_size dir file size <= 0 ->
  silent (trace run)
  /\ exists e file',
       result run = Some (e, mkLocals offset 0 file')
       /\ forall n, e <> XferAborted n.
Proof.
  intros run Hsize.
  destruct (transfer_split dir fuel file size offset bank d)
    as [(Hs & e & file' & Hr & He)
       |(failmsg & chunk & d1 & pre & post & file' & Hok & Hpre & Hpost
         & Ht & Hr)]; fold run in Hr.
  { split; [done|]. exists e, file'. split; [done|]. by destruct e. }
  fold run in Ht.
  rewrite chunk_loop_done in Ht, Hr by done.
  cbn [result trace fst snd] in Ht, Hr. rewrite Ht, Hr.
  split; [by repeat apply silent_app|].
  by exists XferDone, file'.
Qed.

(** X10: the frames of a call carry, in order, the offset of the call and
    then the offset advanced by the bytes of each chunk moved so far,
    wrapped to 32 bits, all with the one chunk size and bank of the call;
    a call that gives up has written one more frame, for the chunk that
    failed, at the offset it stopped at. *)
Theorem X10_frame_offsets (dir : direction) (fuel : nat) (file : FILE)
    (size off bank : Z) (d : sixtyfourDrive F) (e : transfer_exit)
    (l' : locals) :
  let run := device_transfer_exit dir verbosity fuel file size off bank d in
  let size' := transfer_size dir file size in
  result run = Some (e, l') ->
  frames_written (trace run)
  = map (fun o => cmd_frame host_order (transfer_cmd dir) 2
                    [o; size_and_bank (chunk_size size') bank])
      (offsets_from off (chunk_bytes (trace run))
       ++ match e with
          | XferAborted _ => [offset l']
          | _ => []
          end).
Proof.
  intros run size' Hres.
  destruct (transfer_split dir fuel file size off bank d)
    as [((Hs1 & _ & Hs3) & e1 & file' & Hr & He)
       |(failmsg & chunk & d1 & pre & post & file' & Hok & Hpre & Hpost
         & Ht & Hr)]; fold run in Hr.
  { fold run in Hs1, Hs3. rewrite Hres in Hr. injection Hr as -> _.
    rewrite Hs3, (chunk_bytes_quiet _ Hs1). by destruct e1. }
  fold run in Ht. fold size' in Hok, Ht, Hr.
  destruct (observed_inside pre
              (trace (chunk_loop chunk fuel size'
                        (mkLocals off 0 file') d1)) post Hpre Hpost)
    as (Hb & _ & Hf).
  rewrite Ht, Hb, Hf.
  destruct (chunk_loop_walk _ _ _ _ chunk Hok fuel size'
              (mkLocals off 0 file') d1) as (Hfr & _).
  rewrite Hfr, <- Hr, Hres, map_app. cbn [offset].
  by destruct e.
Qed.

End Transfer.

Lemma X8_transfer_total_witness :
  let run := device_transfer_exit Upload 0 8 (mkFile 0 100) 100 0
               BANK_CARTROM (drive0 (mkLink [60] [])) in
  chunk_bytes (trace run) = [60; 100]
  /\ length (frames_written (trace run)) = 2%nat.
Proof.
  intros run. split; [reflexivity|].
  refine (proj1 (proj2 (X8_transfer_total 0 Upload 8 (mkFile 0 100) 100 0
                          BANK_CARTROM (drive0 (mkLink [60] []))
                          (mkLocals 160 160 (mkFile 100 100)) _ _)));
    [reflexivity|vm_compute; reflexivity].
Defined.

Lemma X9_nothing_to_move_witness :
  let run := device_transfer_exit Upload 0 0 (mkFile 100 100) (-1) 0
               BANK_CARTROM (drive0 (mkLink [] [])) in
  silent (trace run).
Proof.
  intros run.
  refine (proj1 (X9_nothing_to_move 0 Upload 0 (mkFile 100 100) (-1) 0
                   BANK_CARTROM (drive0 (mkLink [] [])) _)).
  vm_compute. discriminate.
Defined.

Lemma X10_frame_offsets_witness :
  let run := device_transfer_exit Download 0 8 (mkFile 0 0) 100 4096
               BANK_CARTROM
               (drive0 (mkLink [] [(60, []); (0, []); (0, []); (0, []);
                                   (0, []); (0, [])])) in
  frames_written (trace run)
  = map (fun o => cmd_frame LittleEndian DEV_CMD_DUMPRAM 2
                    [o; size_and_bank 100 BANK_CARTROM])
      [4096; 4156].
Proof.
  intros run.
  refine (X10_frame_offsets 0 Download 8 (mkFile 0 0) 100 4096 BANK_CARTROM
            (drive0 (mkLink [] [(60, []); (0, []); (0, []); (0, []);
                                (0, []); (0, [])]))
            (XferAborted 0) (mkLocals 4156 60 (mkFile 60 60)) _).
  reflexivity.
Defined.

(** ** The file of a transfer *)

Lemma fread_iter (k : nat) (f : FILE) (n : Z) :
  0 <= n ->
  Nat.iter k (fun f => fread f n) f
  = mkStream (fpos f + Z.min (Z.of_nat k * n) (Z.max 0 (fsize f - fpos f)))
      (fsize f) (seekable f).
Proof.
  intros Hn. induction k as [|k IH].
  - destruct f as [p s k]. cbn. f_equal. lia.
  - rewrite Nat.iter_succ, IH. unfold fread. cbn [fpos fsize]. f_equal.
    rewrite Nat2Z.inj_succ, Z.mul_succ_l.
    assert (0 <= Z.of_nat k * n) by (apply Z.mul_nonneg_nonneg; lia).
    set (kn := Z.of_nat k * n) in *. clearbody kn. lia.
Qed.

Section Files.
Context {F : Type} `{Platform F}.
Variable verbosity : Z.

Lemma upload_chunk_file chunkSize size bank l d :
  match result (upload_chunk verbosity chunkSize size bank l d) with
  | Return _ l1 | Next l1 => file l1 = fread (file l) chunkSize
  end.
Proof.
  unfold upload_chunk. rewrite !result_bind.
  destruct (_ <=? 0); by rewrite !result_bind.
Qed.

Lemma download_chunk_file chunkSize size bank l d :
  match result (download_chunk verbosity chunkSize size bank l d) with
  | Return _ l1 => l1 = l
  | Next l1 => file l1 = fwrite (file l) (readPos l1 - readPos l)
  end.
Proof.
  unfold download_chunk. rewrite !result_bind.
  destruct (_ <=? 0); rewrite !result_bind; cbn; [done|].
  f_equal. lia.
Qed.

Lemma upload_loop_file fuel chunkSize size bank l d e l' :
  let run := chunk_loop (upload_chunk verbosity chunkSize size bank) fuel
               size l d in
  result run = Some (e, l') ->
  file l' = Nat.iter (length (frames_written (trace run)))
              (fun f => fread f chunkSize) (file l).
Proof.
  revert l d. induction fuel as [|fuel IH]; intros l d run; subst run;
    cbn [chunk_loop];
    destruct (Z.ltb_spec (readPos l) size) as [Hlt|Hge]; cbn;
    try (by intros [= <- <-]); try done.
  rewrite result_bind, trace_bind, frames_written_app, length_app.
  pose proof (upload_chunk_file chunkSize size bank l d) as Hfile.
  destruct (chunk_outcome_read _ _ _ _ _ _ _ _
              (upload_chunk_outcome verbosity chunkSize size bank l d))
    as (Hfr & _).
  rewrite Hfr.
  destruct (result (upload_chunk _ _ _ _ l d)) as [n l1|l1].
  - intros [= <- <-]. by rewrite Hfile.
  - intros Hres. rewrite (IH l1 _ Hres), Hfile.
    change (length [_] + ?k)%nat with (S k).
    by rewrite Nat.iter_succ_r.
Qed.

Lemma download_loop_file fuel chunkSize size bank l d e l' :
  let run := chunk_loop (download_chunk verbosity chunkSize size bank) fuel
               size l d in
  result run = Some (e, l') ->
  readPos l <= readPos l'
  /\ fpos (file l') = fpos (file l) + (readPos l' - readPos l)
  /\ fsize (file l')
     = if readPos l' =? readPos l then fsize (file l)
       else Z.max (fsize (file l)) (fpos (file l')).
Proof.
  revert l d. induction fuel as [|fuel IH]; intros l d run; subst run;
    cbn [chunk_loop];
    destruct (Z.ltb_spec (readPos l) size) as [Hlt|Hge]; cbn;
    try (intros [= <- <-]; rewrite Z.eqb_refl; lia); try done.
  rewrite result_bind.
  pose proof (download_chunk_file chunkSize size bank l d) as Hfile.
  pose proof (chunk_progress _ _ _ _ _ _ _ _
                (download_chunk_outcome verbosity chunkSize size bank l d))
    as Hprog.
  destruct (result (download_chunk _ _ _ _ l d)) as [n l1|l1].
  - intros [= <- <-]. rewrite Hfile, Z.eqb_refl. lia.
  - intros Hres. destruct (IH l1 _ Hres) as (Hle & Hpos & Hsize).
    rewrite Hfile in Hpos, Hsize. unfold fwrite in Hpos, Hsize.
    cbn [fpos fsize] in Hpos, Hsize.
    destruct (Z.eqb_spec (readPos l') (readPos l1));
      destruct (Z.eqb_spec (readPos l') (readPos l)); lia.
Qed.

(** X11: the file of a transfer.  An upload reads the file a chunk at a
    time, once per frame it writes, whether the chunk was then sent in
    full, in part or not at all: at the exit the position has advanced by
    the number of frames times the chunk size, or to the end of the file.
    A download writes what it received: at the exit the position has
    advanced by [readPos], and the file, when anything was received, is as
    long as needed for that. *)
Theorem X11_file_of_a_transfer (fuel : nat) (f : FILE)
    (size off bank : Z) (d : sixtyfourDrive F) (e : transfer_exit)
    (l' : locals) :
  let up := device_upload_exit verbosity fuel f size off bank d in
  let down := device_download_exit verbosity fuel f size off bank d in
  (result up = Some (e, l') ->
   let n := Z.of_nat (length (frames_written (trace up)))
            * chunk_size (fst (upload_size f size)) in
   file l' = mkStream (fpos f + Z.min n (Z.max 0 (fsize f - fpos f)))
               (fsize f) (seekable f))
  /\ (result down = Some (e, l') ->
      fpos (file l') = fpos f + readPos l'
      /\ fsize (file l')
         = if readPos l' =? 0 then fsize f
           else Z.max (fsize f) (fpos f + readPos l')).
Proof.
  intros up down. split.
  - intros Hres n. subst n.
    assert (Hfile : snd (upload_size f size)
                    = mkStream (fpos f) (fsize f) (seekable f)).
    { unfold upload_size. destruct f as [p s [|]]; by destruct (size <? 0). }
    assert (Hcs : 0 <= chunk_size (fst (upload_size f size))).
    { generalize (fst (upload_size f size)). intros s.
      unfold chunk_size, u32.
      destruct (_ <? _); apply Z.mod_pos_bound; lia. }
    destruct (device_upload_exit_split verbosity fuel f size off bank d)
      as [((_ & _ & Hs3) & e1 & Hr & He)
         |(d1 & pre & post & Hpre & Hpost & Ht & Hr & _)];
      fold up in Hr.
    + fold up in Hs3. rewrite Hres in Hr. injection Hr as -> ->.
      rewrite Hs3, Hfile. cbn. f_equal. lia.
    + fold up in Ht. rewrite Hres in Hr. symmetry in Hr.
      apply upload_loop_file in Hr.
      rewrite Ht, !frames_written_app.
      destruct Hpre as (_ & _ & ->). destruct Hpost as (_ & _ & ->).
      rewrite app_nil_r. cbn [app].
      rewrite Hr, fread_iter by done. cbn [file]. by rewrite Hfile.
  - intros Hres.
    destruct (device_download_exit_split verbosity fuel f size off bank d)
      as [(_ & e1 & Hr & He)
         |(d1 & pre & post & Hpre & Hpost & Ht & Hr & _)];
      fold down in Hr.
    + rewrite Hres in Hr. injection Hr as -> ->. cbn. lia.
    + rewrite Hres in Hr. symmetry in Hr.
      apply download_loop_file in Hr. cbn [readPos file] in Hr.
      destruct Hr as (Hle & Hpos & Hsize).
      rewrite Hsize, Hpos, Z.sub_0_r. done.
Qed.

End Files.

Lemma X11_file_of_a_transfer_witness :
  let f := mkFile 0 300 in
  let d := drive0 (mkLink [60; 0; 0; 0; 0; 0] []) in
  let l' := mkLocals 60 60 (mkFile 200 300) in
  result (device_upload_exit 0 8 f 100 0 BANK_CARTROM d)
  = Some (XferAborted 0, l')
  /\ file l' = mkFile 200 300.
Proof.
  intros f d l'. split; [reflexivity|].
  refine (proj1 (X11_file_of_a_transfer 0 8 f 100 0 BANK_CARTROM d
                   (XferAborted 0) l') _).
  reflexivity.
Defined.

(** ** Giving up on a chunk *)

Lemma backed_off_app t1 t2 :
  backed_off t1 -> backed_off t2 -> backed_off (t1 ++ t2).
Proof.
  induction t1 as [|e t1 IH]; [done|].
  intros (He & H1) H2. split; [|by apply IH].
  intros Hf. destruct (He Hf) as (t' & ->). by eexists.
Qed.

Lemma quiet_backed_off t : payload_returns t = [] -> backed_off t.
Proof.
  induction t as [|e t IH]; [done|].
  destruct e as [[bs|] ? r|? r ?| | | | | |]; cbn; try done;
    intros Hq; split; try done; by apply IH.
Qed.

Lemma chunks_end_well chunks :
  Forall chunk_returns chunks ->
  concat chunks = []
  \/ exists init n, concat chunks = init ++ [n] /\ 0 < n.
Proof.
  induction chunks as [|seg chunks IH] using rev_ind; [by left|].
  intros Hall. apply Forall_app in Hall as (_ & Hseg).
  apply Forall_inv in Hseg. destruct Hseg as (fails & n & -> & _ & _ & Hn).
  right. exists (concat chunks ++ fails), n.
  rewrite concat_app. cbn. by rewrite app_nil_r, app_assoc.
Qed.

Lemma gave_up_iff chunks tail :
  Forall chunk_returns chunks ->
  tail = [] \/ (length tail = 5%nat /\ Forall (fun r => r <= 0) tail) ->
  tail <> []
  <-> exists before fails,
        concat chunks ++ tail = before ++ fails
        /\ length fails = 5%nat /\ Forall (fun r => r <= 0) fails.
Proof.
  intros Hchunks Htail. split.
  - intros Hne. destruct Htail as [?|(Hlen & Hall)]; [done|].
    by exists (concat chunks), tail.
  - intros (before & fails & Heq & Hlen & Hall) ->.
    rewrite app_nil_r in Heq.
    destruct (chunks_end_well _ Hchunks) as [Hnil|(init & n & Hc & Hn)].
    + rewrite Hnil in Heq. symmetry in Heq.
      apply app_eq_nil in Heq as (_ & ->). done.
    + rewrite Hc in Heq.
      destruct fails as [|r fails _] using rev_ind; [done|].
      rewrite app_assoc in Heq. apply app_inj_tail in Heq as (_ & <-).
      apply Forall_app in Hall as (_ & Hr). apply Forall_inv in Hr. lia.
Qed.

Section GivingUp.
Context {F : Type} `{Platform F}.
Variable verbosity : Z.

Lemma retry_loop_returns (xfer : M F Z) (chunkSize : Z) :
  (forall d, exists e, trace (xfer d) = [e]
                       /\ is_attempt chunkSize (result (xfer d)) e) ->
  forall tries n d, n <= 0 ->
  let run := retry_loop xfer tries n d in
  let rets := payload_returns (trace run) in
  backed_off (trace run)
  /\ ((length rets = tries /\ Forall (fun r => r <= 0) rets
       /\ result run <= 0
       /\ (tries <> 0%nat -> last rets = Some (result run)))
      \/ (exists fails,
            rets = fails ++ [result run]
            /\ Forall (fun r => r <= 0) fails
            /\ (length fails < tries)%nat /\ 0 < result run)).
Proof.
  intros Hx tries. induction tries as [|tries IH]; intros n d Hn run rets.
  { subst rets run. cbn. split; [done|]. left. by repeat split. }
  subst rets run. cbn [retry_loop].
  rewrite result_bind, trace_bind.
  destruct (Hx d) as (e & Hte & He).
  destruct (attempt_observed _ _ _ He) as (Hret & _).
  assert (Hfailed : is_failed e = (result (xfer d) <=? 0))
    by (by destruct He as [->|[data ->]]).
  destruct (Z.ltb_spec 0 (result (xfer d))) as [Hpos|Hneg].
  - cbn [ret result trace fst snd]. rewrite app_nil_r, Hte, Hret.
    split.
    + cbn. split; [|done]. rewrite Hfailed.
      destruct (Z.leb_spec (result (xfer d)) 0); [lia|done].
    + right. exists []. repeat split; try done. cbn. lia.
  - unfold usleep.
    rewrite !result_bind, !trace_bind.
    cbn [emit ftdi_usb_purge_buffers result final trace fst snd].
    set (d' := mkDrive _ _ _).
    destruct (IH (result (xfer d)) d' Hneg) as (Hback & Hcase).
    set (rest := retry_loop xfer tries (result (xfer d)) d') in *.
    rewrite Hte. cbn [app].
    split.
    { split; [by eexists|]. cbn. split; [done|]. split; [done|]. done. }
    change (e :: EvUsleep 10000 :: EvPurge :: trace rest)
      with ([e] ++ [EvUsleep 10000; EvPurge] ++ trace rest).
    rewrite !payload_returns_app, Hret. cbn [payload_returns app].
    destruct Hcase as [(Hlen & Hall & Hres & Hlast)
                      |(fails & Hrets & Hall & Hlen & Hres)].
    + left. cbn [length]. rewrite Hlen. split; [done|].
      split; [by constructor|]. split; [done|]. intros _.
      destruct tries as [|tries].
      * destruct (payload_returns (trace rest)); [|done]. by cbn.
      * rewrite <- (Hlast ltac:(done)).
        destruct (payload_returns (trace rest)) as [|r rs] eqn:Hrs; [done|].
        done.
    + right. exists (result (xfer d) :: fails). rewrite Hrets.
      repeat split; try done; [by constructor|cbn; lia].
Qed.


Lemma chunk_bytes_of_returns t fails n :
  payload_returns t = fails ++ [n] -> Forall (fun r => r <= 0) fails ->
  0 < n -> chunk_bytes t = [n].
Proof.
  intros Hr Hf Hn. unfold chunk_bytes. rewrite Hr, filter_app.
  assert (Hnone : filter (fun r => 0 < r) fails = []).
  { clear Hr. induction Hf as [|r fails Hle _ IH]; [done|].
    rewrite filter_cons_False by lia. done. }
  rewrite Hnone. cbn. rewrite decide_True by lia. done.
Qed.

Lemma chunk_bytes_of_failures t :
  Forall (fun r => r <= 0) (payload_returns t) -> chunk_bytes t = [].
Proof.
  unfold chunk_bytes. induction 1 as [|r rs Hle _ IH]; [done|].
  rewrite filter_cons_False by lia. done.
Qed.

Lemma upload_chunk_returns chunkSize size bank l d :
  let run := upload_chunk verbosity chunkSize size bank l d in
  let rets := payload_returns (trace run) in
  backed_off (trace run)
  /\ match result run with
     | Return n l1 =>
         length rets = 5%nat /\ Forall (fun r => r <= 0) rets
         /\ last rets = Some n /\ readPos l1 = readPos l
         /\ exists t0,
              trace run = t0 ++ [EvStderr (UploadWriteFailed (readPos l))]
     | Next l1 =>
         chunk_returns rets
         /\ sum (chunk_bytes (trace run)) = readPos l1 - readPos l
         /\ readPos l < readPos l1
     end.
Proof.
  intros run rets. subst rets run. unfold upload_chunk.
  set (params := [offset l; size_and_bank chunkSize bank]).
  rewrite result_bind, trace_bind.
  destruct (send_cmd_frame_only verbosity DEV_CMD_LOADRAM params d)
    as (Hret & _ & _).
  set (cmd := device_send_cmd _ _ _ _ _ _ d) in *.
  rewrite result_bind, trace_bind.
  set (xfer := ftdi_write_data Payload chunkSize).
  assert (Hx : forall d, exists e, trace (xfer d) = [e]
                 /\ is_attempt chunkSize (result (xfer d)) e).
  { intros d0. unfold xfer, ftdi_write_data.
    destruct (usb_write _ _ _) as [f r]. eexists. split; [done|by left]. }
  destruct (retry_loop_returns xfer chunkSize Hx 5 (-1) (final cmd)
              ltac:(lia)) as (Hback & Hcase).
  set (retry := retry_loop xfer 5 (-1) (final cmd)) in *.
  destruct Hcase as [(Hlen & Hall & Hres & Hlast)
                    |(fails & Hrets & Hall & Hlen & Hres)].
  - destruct (Z.leb_spec (result retry) 0) as [_|?]; [|lia].
    rewrite result_bind, trace_bind.
    cbn [fprintf_stderr emit ret result final trace fst snd].
    rewrite !payload_returns_app, Hret, app_nil_r. cbn [app payload_returns].
    rewrite app_nil_r.
    split.
    { apply backed_off_app; [by apply quiet_backed_off|].
      apply backed_off_app; [done|]. by apply quiet_backed_off. }
    repeat split; try done; [by apply Hlast|].
    exists (trace cmd ++ trace retry). by rewrite <- app_assoc.
  - destruct (Z.leb_spec (result retry) 0) as [?|_]; [lia|].
    rewrite result_bind, trace_bind, trace_when. unfold printf.
    rewrite final_when_emit.
    cbn [emit ret result final trace fst snd readPos].
    set (post := if 0 <=? verbosity then _ else _).
    assert (Hpost : payload_returns post = [])
      by (unfold post; by destruct (0 <=? verbosity)).
    split.
    { apply backed_off_app; [by apply quiet_backed_off|].
      apply backed_off_app; [done|].
      apply backed_off_app; by apply quiet_backed_off. }
    assert (Hall_rets : payload_returns
                          (trace cmd ++ trace retry ++ post ++ [])
                        = fails ++ [result retry])
      by (by rewrite !payload_returns_app, Hret, Hrets, Hpost, !app_nil_r).
    rewrite Hall_rets.
    split; [by exists fails, (result retry)|].
    rewrite (chunk_bytes_of_returns _ _ _ Hall_rets Hall Hres).
    change (sum [result retry]) with (result retry + 0). lia.
Qed.

Lemma download_chunk_returns chunkSize size bank l d :
  let run := download_chunk verbosity chunkSize size bank l d in
  let rets := payload_returns (trace run) in
  backed_off (trace run)
  /\ match result run with
     | Return n l1 =>
         length rets = 5%nat /\ Forall (fun r => r <= 0) rets
         /\ last rets = Some n /\ readPos l1 = readPos l
         /\ exists t0,
              trace run = t0 ++ [EvStderr (DownloadReadFailed (readPos l))]
     | Next l1 =>
         chunk_returns rets
         /\ sum (chunk_bytes (trace run)) = readPos l1 - readPos l
         /\ readPos l < readPos l1
     end.
Proof.
  intros run rets. subst rets run. unfold download_chunk.
  set (params := [offset l; size_and_bank chunkSize bank]).
  rewrite result_bind, trace_bind.
  destruct (send_cmd_frame_only verbosity DEV_CMD_DUMPRAM params d)
    as (Hret & _ & _).
  set (cmd := device_send_cmd _ _ _ _ _ _ d) in *.
  rewrite result_bind, trace_bind.
  set (xfer := bind (ftdi_read_data chunkSize) (fun r => ret (fst r))).
  assert (Hx : forall d, exists e, trace (xfer d) = [e]
                 /\ is_attempt chunkSize (result (xfer d)) e).
  { intros d0. unfold xfer, ftdi_read_data, bind.
    destruct (usb_read _ _) as [f [r data]]. eexists.
    split; [done|]. right. by exists data. }
  destruct (retry_loop_returns xfer chunkSize Hx 5 (-1) (final cmd)
              ltac:(lia)) as (Hback & Hcase).
  set (retry := retry_loop xfer 5 (-1) (final cmd)) in *.
  destruct Hcase as [(Hlen & Hall & Hres & Hlast)
                    |(fails & Hrets & Hall & Hlen & Hres)].
  - destruct (Z.leb_spec (result retry) 0) as [_|?]; [|lia].
    rewrite result_bind, trace_bind.
    cbn [fprintf_stderr emit ret result final trace fst snd].
    rewrite !payload_returns_app, Hret, app_nil_r. cbn [app payload_returns].
    rewrite app_nil_r.
    split.
    { apply backed_off_app; [by apply quiet_backed_off|].
      apply backed_off_app; [done|]. by apply quiet_backed_off. }
    repeat split; try done; [by apply Hlast|].
    exists (trace cmd ++ trace retry). by rewrite <- app_assoc.
  - destruct (Z.leb_spec (result retry) 0) as [?|_]; [lia|].
    rewrite result_bind, trace_bind, trace_when. unfold printf.
    rewrite final_when_emit.
    cbn [emit ret result final trace fst snd readPos].
    set (post := if 0 <=? verbosity then _ else _).
    assert (Hpost : payload_returns post = [])
      by (unfold post; by destruct (0 <=? verbosity)).
    split.
    { apply backed_off_app; [by apply quiet_backed_off|].
      apply backed_off_app; [done|].
      apply backed_off_app; by apply quiet_backed_off. }
    assert (Hall_rets : payload_returns
                          (trace cmd ++ trace retry ++ post ++ [])
                        = fails ++ [result retry])
      by (by rewrite !payload_returns_app, Hret, Hrets, Hpost, !app_nil_r).
    rewrite Hall_rets.
    split; [by exists fails, (result retry)|].
    rewrite (chunk_bytes_of_returns _ _ _ Hall_rets Hall Hres).
    change (sum [result retry]) with (result retry + 0). lia.
Qed.

End GivingUp.

Section RetryLoop.
Context {F : Type} `{Platform F}.
Variable failmsg : Z -> message.
Variable chunk : locals -> M F step.
Hypothesis chunk_returns_ok : forall l d,
  let run := chunk l d in
  let rets := payload_returns (trace run) in
  backed_off (trace run)
  /\ match result run with
     | Return n l1 =>
         length rets = 5%nat /\ Forall (fun r => r <= 0) rets
         /\ last rets = Some n /\ readPos l1 = readPos l
         /\ exists t0, trace run = t0 ++ [EvStderr (failmsg (readPos l))]
     | Next l1 =>
         chunk_returns rets
         /\ sum (chunk_bytes (trace run)) = readPos l1 - readPos l
         /\ readPos l < readPos l1
     end.

Lemma chunk_loop_account fuel size l d :
  (Z.to_nat (size - readPos l) <= fuel)%nat ->
  let run := chunk_loop chunk fuel size l d in
  exists e l' chunks tail,
    result run = Some (e, l')
    /\ backed_off (trace run)
    /\ payload_returns (trace run) = concat chunks ++ tail
    /\ Forall chunk_returns chunks
    /\ readPos l' = readPos l + sum (chunk_bytes (trace run))
    /\ match e with
       | XferAborted n =>
           length tail = 5%nat /\ Forall (fun r => r <= 0) tail
           /\ last tail = Some n
           /\ exists t0, trace run = t0 ++ [EvStderr (failmsg (readPos l'))]
       | XferDone => tail = []
       | _ => False
       end.
Proof.
  revert l d. induction fuel as [|fuel IH]; intros l d Hfuel run; subst run;
    cbn [chunk_loop];
    destruct (Z.ltb_spec (readPos l) size) as [Hlt|Hge]; try lia;
    try (exists XferDone, l, [], []; cbn; repeat split; try done; lia).
  rewrite result_bind, trace_bind.
  destruct (chunk_returns_ok l d) as (Hback & Hres).
  destruct (result (chunk l d)) as [n l1|l1].
  - destruct Hres as (Hlen & Hall & Hlast & Hpos & t0 & Ht).
    exists (XferAborted n), l1, [], (payload_returns (trace (chunk l d))).
    cbn [ret result trace fst snd]. rewrite app_nil_r.
    rewrite (chunk_bytes_of_failures _ Hall), Hpos.
    repeat split; try done; [cbn; lia|]. by exists t0.
  - destruct Hres as (Hseg & Hsum & Hprog).
    destruct (IH l1 (final (chunk l d)) ltac:(lia))
      as (e & l' & chunks & tail & Hr & Hback' & Hrets & Hchunks & Hpos
          & He).
    set (rest := chunk_loop chunk fuel size l1 (final (chunk l d))) in *.
    exists e, l', (payload_returns (trace (chunk l d)) :: chunks), tail.
    rewrite payload_returns_app, chunk_bytes_app, sum_app, Hrets.
    split; [done|]. split; [by apply backed_off_app|].
    split; [cbn; by rewrite app_assoc|].
    split; [by constructor|]. split; [lia|].
    destruct e as [|err|n|]; try done.
    destruct He as (Hlen & Hall & Hlast & t0 & Ht).
    repeat split; try done.
    exists (trace (chunk l d) ++ t0). by rewrite Ht, app_assoc.
Qed.

End RetryLoop.

Lemma retry_account_call dir e l' pre mid post chunks tail :
  silent pre -> silent post ->
  (forall n, e = XferAborted n -> post = []) ->
  backed_off mid ->
  payload_returns mid = concat chunks ++ tail ->
  Forall chunk_returns chunks ->
  readPos l' = 0 + sum (chunk_bytes mid) ->
  match e with
  | XferAborted n =>
      length tail = 5%nat /\ Forall (fun r => r <= 0) tail
      /\ last tail = Some n
      /\ exists t0,
           mid = t0 ++ [EvStderr (transfer_failmsg dir (readPos l'))]
  | XferDone => tail = []
  | _ => False
  end ->
  retry_account dir e l' (Some (transfer_status e)) (pre ++ mid ++ post).
Proof.
  intros Hpre Hpost Hab Hback Hrets Hchunks Hpos He.
  destruct (observed_inside pre mid post Hpre Hpost) as (Hb & _ & _).
  split.
  { destruct Hpre as (Hp & _). destruct Hpost as (Hq & _).
    apply backed_off_app; [by apply quiet_backed_off|].
    apply backed_off_app; [done|]. by apply quiet_backed_off. }
  exists chunks, tail.
  destruct Hpre as (Hp & _). destruct Hpost as (Hq & _).
  rewrite !payload_returns_app, Hp, Hq, app_nil_r. cbn [app].
  split; [done|]. split; [done|].
  destruct e as [|err|n|]; try done.
  destruct He as (Hlen & Hall & Hlast & t0 & Ht).
  assert (Hsum : sum (chunk_bytes mid) = readPos l') by lia.
  rewrite Hb, (Hab n eq_refl), app_nil_r, Hsum.
  repeat split; try done.
  by rewrite Ht, app_assoc, last_snoc.
Qed.

Lemma retry_account_early dir e l' t :
  silent t ->
  match e with
  | XferNoMemory | XferChunksizeError _ => True
  | _ => False
  end ->
  retry_account dir e l' (Some (transfer_status e)) t.
Proof.
  intros (Hq & _) He. split; [by apply quiet_backed_off|].
  exists [], []. rewrite Hq. by destruct e.
Qed.

Section GivingUpCalls.
Context {F : Type} `{Platform F}.
Variable verbosity : Z.

(** C5 (as amended): in every iteration of either chunk loop the raw
    transfer is attempted at most five times, each failed attempt (a
    return of zero or less) being followed by [usleep(10000)] and a purge;
    see [chunk_outcome].  A whole call returns, and it gives up exactly
    when the returns of its raw transfers end with five failures: it then
    returns the result of the fifth attempt, which is zero or less and no
    count of bytes, after the complaint on stderr that tells the bytes
    moved by the chunks before; see [retry_account]. *)
Theorem C5_bounded_retry_and_abort :
  (forall chunkSize size bank l d,
     let up := upload_chunk verbosity chunkSize size bank l d in
     let down := download_chunk verbosity chunkSize size bank l d in
     chunk_outcome host_order UploadWriteFailed DEV_CMD_LOADRAM chunkSize
       bank l (result up) (trace up)
     /\ chunk_outcome host_order DownloadReadFailed DEV_CMD_DUMPRAM chunkSize
          bank l (result down) (trace down))
  /\ (forall dir fuel file size off bank d,
        (Z.to_nat (transfer_size dir file size) <= fuel)%nat ->
        let run :=
          device_transfer_exit dir verbosity fuel file size off bank d in
        let status :=
          result (device_transfer dir verbosity fuel file size off bank d) in
        exists e l',
          result run = Some (e, l')
          /\ status = Some (transfer_status e)
          /\ retry_account dir e l' status (trace run)
          /\ ((exists n, e = XferAborted n /\ n <= 0 /\ status = Some n)
              <-> exists before fails,
                    payload_returns (trace run) = before ++ fails
                    /\ length fails = 5%nat
                    /\ Forall (fun r => r <= 0) fails)).
Proof.
  split.
  { intros chunkSize size bank l d up down. split.
    - apply upload_chunk_outcome.
    - apply download_chunk_outcome. }
  intros dir fuel file size off bank d Hfuel run status.
  assert (Hstatus : status = option_map (fun x => transfer_status (fst x))
                               (result run)).
  { subst status run. destruct dir;
      cbn [device_transfer device_transfer_exit];
      unfold device_upload, device_download; by rewrite result_bind. }
  assert (Hacc : exists e l',
            result run = Some (e, l')
            /\ retry_account dir e l' (Some (transfer_status e)) (trace run)).
  { subst run. destruct dir;
      cbn [device_transfer_exit transfer_size] in *.
    - destruct (device_upload_exit_split verbosity fuel file size off bank d)
        as [(Hs & e & Hr & He)
           |(d1 & pre & post & Hpre & Hpost & Ht & Hr & Hab)].
      { exists e, (mkLocals off 0 (snd (upload_size file size))).
        split; [done|]. by apply retry_account_early. }
      destruct (chunk_loop_account UploadWriteFailed _
                  (upload_chunk_returns verbosity
                     (chunk_size (fst (upload_size file size)))
                     (fst (upload_size file size)) bank)
                  fuel (fst (upload_size file size))
                  (mkLocals off 0 (snd (upload_size file size))) d1
                  ltac:(cbn [readPos]; lia))
        as (e & l' & chunks & tail & Hres & Hback & Hrets & Hchunks & Hpos
            & He).
      exists e, l'. rewrite Hr, Ht. split; [done|].
      apply (retry_account_call Upload _ _ _ _ _ chunks tail); try done.
      intros n ->. by apply (Hab n l').
    - destruct (device_download_exit_split verbosity fuel file size off bank
                  d)
        as [(Hs & e & Hr & He)
           |(d1 & pre & post & Hpre & Hpost & Ht & Hr & Hab)].
      { exists e, (mkLocals off 0 file).
        split; [done|]. by apply retry_account_early. }
      destruct (chunk_loop_account DownloadReadFailed _
                  (download_chunk_returns verbosity
                     (chunk_size (download_size size))
                     (download_size size) bank)
                  fuel (download_size size) (mkLocals off 0 file) d1
                  ltac:(cbn [readPos]; lia))
        as (e & l' & chunks & tail & Hres & Hback & Hrets & Hchunks & Hpos
            & He).
      exists e, l'. rewrite Hr, Ht. split; [done|].
      apply (retry_account_call Download _ _ _ _ _ chunks tail); try done.
      intros n ->. by apply (Hab n l'). }
  destruct Hacc as (e & l' & Hres & Hacc).
  exists e, l'. rewrite Hstatus, Hres. cbn [option_map fst].
  split; [done|]. split; [done|]. split; [done|].
  destruct Hacc as (_ & chunks & tail & Hrets & Hchunks & He).
  rewrite Hrets.
  assert (Htail : tail = []
                  \/ (length tail = 5%nat /\ Forall (fun r => r <= 0) tail))
    by (destruct e as [|err|n|]; [by left|by left| |by left];
        right; by destruct He as (? & ? & _)).
  rewrite <- (gave_up_iff chunks tail Hchunks Htail).
  split.
  - intros (n & -> & _). destruct He as (Hlen & _). by destruct tail.
  - intros Hne. destruct e as [|err|n|]; try done.
    exists n. split; [done|]. split; [|done].
    destruct He as (Hlen & Hall & Hlast & _).
    rewrite Forall_forall in Hall. apply Hall.
    apply last_Some_elem_of in Hlast. done.
Qed.

End GivingUpCalls.

Lemma C5_bounded_retry_and_abort_witness :
  let d := drive0 (mkLink [60; -1; -1; -1; -1; -1] []) in
  let run := device_transfer_exit Upload 0 100 (mkFile 0 100) 100 0
               BANK_CARTROM d in
  let status := result (device_transfer Upload 0 100 (mkFile 0 100) 100 0
                          BANK_CARTROM d) in
  exists e l',
    result run = Some (e, l')
    /\ status = Some (transfer_status e)
    /\ retry_account Upload e l' status (trace run)
    /\ ((exists n, e = XferAborted n /\ n <= 0 /\ status = Some n)
        <-> exists before fails,
              payload_returns (trace run) = before ++ fails
              /\ length fails = 5%nat
              /\ Forall (fun r => r <= 0) fails).
Proof.
  intros d.
  exact (proj2 (C5_bounded_retry_and_abort 0) Upload 100%nat (mkFile 0 100)
           100 0 BANK_CARTROM d ltac:(vm_compute; lia)).
Defined.

(** C5 as stated fails.  An upload that moved 60 bytes and then gave up
    on its second chunk returns -1, the result of its last attempt, not
    60.  An upload that gave up on its first chunk, the link reporting no
    progress, returns 0, as a call that succeeded does, and the number it
    tells on stderr is 0.  A download does the same. *)
Lemma C5_counterexample :
  (let d := drive0 (mkLink [60; -1; -1; -1; -1; -1] []) in
   let run := device_upload 0 100 (mkFile 0 100) 100 0 BANK_CARTROM d in
   sum (chunk_bytes (trace run)) = 60
   /\ result run = Some (-1) /\ result run <> Some 60)
  /\ (let d := drive0 (mkLink [0; 0; 0; 0; 0] []) in
      let run := device_upload 0 100 (mkFile 0 100) 100 0 BANK_CARTROM d in
      result run = Some 0
      /\ last (trace run) = Some (EvStderr (UploadWriteFailed 0))
      /\ result (device_upload 0 100 (mkFile 0 100) 100 0 BANK_CARTROM
                   (drive0 (mkLink [] []))) = Some 0)
  /\ (let d := drive0 (mkLink [] [(60, []); (-1, []); (-1, []); (-1, []);
                                  (-1, []); (-1, [])]) in
      let run := device_download 0 100 (mkFile 0 0) 100 0 BANK_CARTROM d in
      sum (chunk_bytes (trace run)) = 60
      /\ result run = Some (-1) /\ result run <> Some 60).
Proof. vm_compute. repeat split; discriminate. Qed.

(** ** An unspecified size *)

Section UnspecifiedSize.
Context {F : Type} `{Platform F}.
Variable verbosity : Z.

Lemma upload_done_size fuel file size off bank d l' :
  result (device_upload_exit verbosity fuel file size off bank d)
  = Some (XferDone, l') ->
  fst (upload_size file size) <= readPos l'.
Proof.
  intros Hres.
  destruct (device_upload_exit_split verbosity fuel file size off bank d)
    as [(_ & e & Hr & He)|(d1 & pre & post & _ & _ & _ & Hr & _)].
  { rewrite Hres in Hr. injection Hr as <- _. done. }
  rewrite Hres in Hr. symmetry in Hr.
  destruct (chunk_loop_walk _ _ _ _ _
              (upload_chunk_outcome verbosity
                 (chunk_size (fst (upload_size file size)))
                 (fst (upload_size file size)) bank)
              fuel (fst (upload_size file size))
              (mkLocals off 0 (snd (upload_size file size))) d1)
    as (_ & Hwalk).
  by destruct (Hwalk _ _ Hr) as (_ & Hge & _).
Qed.

(** C8: with a negative size [device_download] does what it does with the
    size 256 MiB, and [device_upload] asks the file for its position and
    its end.  Of a file that can seek it then transfers the length from
    the position to the end, the position being where it was: it does what
    the call with that length does, asks for chunks of the size that goes
    with that length and, when it runs to its end, has moved at least that
    length.  Of a stream that cannot seek, [ftell] gives -1 both times:
    the size is 0 whatever the stream holds, no frame is written, no
    payload moved and nothing read from the stream, and the call ends as
    one that succeeded. *)
Theorem C8_unspecified_size (fuel : nat) (file : FILE) (size off bank : Z)
    (d : sixtyfourDrive F) :
  size < 0 ->
  let up := device_upload_exit verbosity fuel file size off bank d in
  let down := device_download_exit verbosity fuel file size off bank d in
  let remaining := fsize file - fpos file in
  (seekable file = true -> fpos file <= fsize file ->
     upload_size file size = (remaining, file)
     /\ up = device_upload_exit verbosity fuel file remaining off bank d
     /\ device_upload verbosity fuel file size off bank d
        = device_upload verbosity fuel file remaining off bank d
     /\ Forall (eq (chunk_size remaining)) (payload_requests (trace up))
     /\ (forall l', result up = Some (XferDone, l') -> remaining <= readPos l'))
  /\ (seekable file = false ->
      upload_size file size = (0, file)
      /\ silent (trace up)
      /\ (exists e, result up = Some (e, mkLocals off 0 file)
                    /\ forall n, e <> XferAborted n)
      /\ (malloc_ok 0 = true -> snd (usb_write_chunksize (ftdi d) 0) = 0 ->
          result up = Some (XferDone, mkLocals off 0 file)
          /\ result (device_upload verbosity fuel file size off bank d)
             = Some 0))
  /\ (download_size size = 268435456
      /\ down = device_download_exit verbosity fuel file 268435456 off bank d
      /\ device_download verbosity fuel file size off bank d
         = device_download verbosity fuel file 268435456 off bank d
      /\ Forall (eq 4194304) (payload_requests (trace down))).
Proof.
  intros Hs up down remaining. split; [|split].
  - intros Hseek Hpos.
    assert (Hsize : upload_size file size = (remaining, file))
      by (by apply upload_size_derived).
    assert (Hup : up = device_upload_exit verbosity fuel file remaining off
                         bank d).
    { subst up. unfold device_upload_exit.
      by rewrite Hsize, upload_size_given by (subst remaining; lia). }
    split; [done|]. split; [done|].
    split; [unfold device_upload, bind; fold up; by rewrite Hup|].
    split.
    + rewrite Hup.
      apply (device_upload_exit_requests verbosity fuel file remaining off
               bank d).
      subst remaining. lia.
    + intros l' Hres. apply upload_done_size in Hres.
      by rewrite Hsize in Hres.
  - intros Hseek.
    assert (Hsize : upload_size file size = (0, file))
      by (by apply upload_size_pipe).
    split; [done|].
    assert (Hok : malloc_ok 0 = true ->
              snd (usb_write_chunksize (ftdi d) 0) = 0 ->
              result up = Some (XferDone, mkLocals off 0 file)).
    { intros Hm Hc. subst up. unfold device_upload_exit. rewrite Hsize.
      unfold printf, fprintf_stderr.
      rewrite result_bind, final_when_emit.
      change (chunk_size 0) with 0. rewrite Hm. cbn [negb].
      rewrite result_bind.
      unfold ftdi_write_data_set_chunksize at 1 2.
      destruct (usb_write_chunksize (ftdi d) 0) as [f1 r].
      cbn [snd] in Hc. subst r. cbn [result final fst snd Z.eqb negb].
      rewrite result_bind, final_when_emit, result_bind.
      assert (Hloop : forall d1,
                upload_loop verbosity fuel 0 0 bank (mkLocals off 0 file) d1
                = (Some (XferDone, mkLocals off 0 file), d1, []))
        by (intros d1; by destruct fuel).
      rewrite Hloop. cbn [result final fst snd].
      by rewrite result_bind. }
    destruct (device_upload_exit_split verbosity fuel file size off bank d)
      as [(Hsil & e & Hr & He)
         |(d1 & pre & post & Hpre & Hpost & Ht & Hr & _)].
    + fold up in Hsil, Hr. rewrite Hsize in Hr. cbn [snd] in Hr.
      split; [done|]. split; [exists e; split; [done|by destruct e]|].
      intros Hm Hc. split; [by apply Hok|].
      unfold device_upload. rewrite result_bind. fold up.
      by rewrite (Hok Hm Hc).
    + fold up in Ht, Hr. rewrite Hsize in Ht, Hr. cbn [fst snd] in Ht, Hr.
      rewrite chunk_loop_done in Ht, Hr by (cbn; lia).
      cbn [result trace fst snd] in Ht, Hr. rewrite Ht, Hr.
      split; [by repeat apply silent_app|].
      split; [by exists XferDone|].
      intros _ _. split; [done|].
      unfold device_upload. rewrite result_bind. fold up. by rewrite Hr.
  - assert (Hsize : download_size size = 268435456).
    { unfold download_size. by destruct (Z.ltb_spec size 0) as [_|?]; [|lia]. }
    assert (Hdown : down = device_download_exit verbosity fuel file 268435456
                             off bank d).
    { subst down. unfold device_download_exit. by rewrite Hsize. }
    split; [done|]. split; [done|].
    split; [unfold device_download, bind; fold down; by rewrite Hdown|].
    rewrite Hdown.
    apply (device_download_exit_requests verbosity fuel file 268435456 off
             bank d).
    lia.
Qed.

End UnspecifiedSize.

Lemma C8_unspecified_size_witness :
  let pipe := mkPipe 0 100 in
  let file := mkFile 512 3145728 in
  let d := drive0 (mkLink [] []) in
  (upload_size pipe (-1) = (0, pipe)
   /\ result (device_upload 0 8 pipe (-1) 0 BANK_CARTROM d) = Some 0
   /\ silent (trace (device_upload_exit 0 8 pipe (-1) 0 BANK_CARTROM d)))
  /\ upload_size file (-1) = (3145216, file)
  /\ download_size (-1) = 268435456.
Proof.
  intros pipe file d.
  destruct (C8_unspecified_size 0 8 pipe (-1) 0 BANK_CARTROM d ltac:(lia))
    as (_ & Hpipe & _).
  destruct (C8_unspecified_size 0 8 file (-1) 0 BANK_CARTROM d ltac:(lia))
    as (Hfile & _ & Hdown & _).
  destruct (Hpipe eq_refl) as (H1 & H2 & _ & H4).
  split; [|split].
  - split; [exact H1|]. split; [|exact H2].
    exact (proj2 (H4 eq_refl eq_refl)).
  - exact (proj1 (Hfile eq_refl ltac:(simpl; lia))).
  - exact Hdown.
Defined.

(** ** Finding and setting up the device *)

Section SetupRuns.
Context {F : Type}.

Lemma sresult_sbind {A B} (c : SM F A) (k : A -> SM F B) d :
  sresult (sbind c k d) = sresult (k (sresult (c d)) (sfinal (c d))).
Proof.
  unfold sbind, sresult, sfinal.
  destruct (c d) as [[a d1] t1]. simpl. by destruct (k a d1) as [[b d2] t2].
Qed.

Lemma sfinal_sbind {A B} (c : SM F A) (k : A -> SM F B) d :
  sfinal (sbind c k d) = sfinal (k (sresult (c d)) (sfinal (c d))).
Proof.
  unfold sbind, sresult, sfinal.
  destruct (c d) as [[a d1] t1]. simpl. by destruct (k a d1) as [[b d2] t2].
Qed.

Lemma strace_sbind {A B} (c : SM F A) (k : A -> SM F B) d :
  strace (sbind c k d)
  = strace (c d) ++ strace (k (sresult (c d)) (sfinal (c d))).
Proof.
  unfold sbind, sresult, sfinal, strace.
  destruct (c d) as [[a d1] t1]. simpl. by destruct (k a d1) as [[b d2] t2].
Qed.

Lemma device_run {A} (c : M F A) d :
  sresult (device c d) = result (c d)
  /\ sfinal (device c d) = final (c d)
  /\ strace (device c d) = map SeDevice (trace (c d)).
Proof. unfold device. by destruct (c d) as [[a d1] t]. Qed.

End SetupRuns.

Lemma device_events_app t1 t2 :
  device_events (t1 ++ t2) = device_events t1 ++ device_events t2.
Proof.
  induction t1 as [|e t1 IH]; [done|]. destruct e; simpl; by rewrite ?IH.
Qed.

Lemma setup_returns_app t1 t2 :
  setup_returns (t1 ++ t2) = setup_returns t1 ++ setup_returns t2.
Proof.
  induction t1 as [|e t1 IH]; [done|]. destruct e; simpl; by rewrite ?IH.
Qed.

Lemma setup_stderr_lines_app t1 t2 :
  setup_stderr_lines (t1 ++ t2)
  = setup_stderr_lines t1 ++ setup_stderr_lines t2.
Proof.
  induction t1 as [|e t1 IH]; [done|]. destruct e; simpl; by rewrite ?IH.
Qed.

Lemma opens_app t1 t2 : opens (t1 ++ t2) = opens t1 ++ opens t2.
Proof.
  induction t1 as [|e t1 IH]; [done|]. destruct e; simpl; by rewrite ?IH.
Qed.

Lemma device_events_map t : device_events (map SeDevice t) = t.
Proof. induction t as [|e t IH]; [done|]. simpl. by rewrite IH. Qed.

Section SetupProperties.
Context {F : Type} `{Platform F} `{Driver F}.
Variable verbosity : Z.



Lemma device_open_prepares (d : sixtyfourDrive F) :
  let run := device_open d in
  Forall preparation_event (strace run)
  /\ Forall (fun e => forall msg, e <> SeStderr (FailFtdi msg)) (strace run)
  /\ (sresult run = 0
      \/ (version (sfinal run) = sresult run
          /\ (sresult run = 1 \/ sresult run = 2))).
Proof.
  intros run. subst run.
  unfold device_open, devices, device_open_from, ftdi_usb_open_desc,
    set_version_field, get_version_field, setup_stderr, swhen, semit, sbind,
    sret.
  destruct (usb_open_desc (ftdi d) 1027 24596 "64drive USB device")
    as [f2 r2].
  assert (Hall : forall t : list setup_event,
            Forall (fun e => preparation_event e
                             /\ forall msg, e <> SeStderr (FailFtdi msg)) t ->
            Forall preparation_event t
            /\ Forall (fun e => forall msg, e <> SeStderr (FailFtdi msg)) t).
  { intros t Ht. split; eapply Forall_impl; try exact Ht; by intros e []. }
  destruct (r2 =? 0).
  { cbn. destruct (Hall [SeOpenDesc 1027 24596 "64drive USB device" r2])
      as (? & ?); [by repeat constructor|].
    repeat split; try done. right. split; [done|by right]. }
  destruct (r2 =? -3); cbn;
    destruct (usb_open_desc f2 1027 24592 "64drive USB device A")
      as [f1 r1];
    destruct (r1 =? 0); cbn; try destruct (r1 =? -3); cbn;
    match goal with
    | |- Forall _ ?t /\ _ =>
        destruct (Hall t) as (? & ?); [by repeat constructor|]
    end;
    (split; [done|split; [done|]]);
    first [ by left | right; split; [done|by left] ].
Qed.

Lemma device_init_prepares (d : sixtyfourDrive F) :
  let run := device_init verbosity d in
  Forall preparation_event (strace run)
  /\ sresult run = 1
  /\ version (sfinal run) = version d.
Proof.
  intros run. subst run.
  unfold device_init, device_init_latency_and_purge, fail_ftdi,
    ftdi_usb_reset, ftdi_set_bitmode, ftdi_set_latency_timer,
    ftdi_usb_purge_buffers_result, get_version_field, setup_stderr,
    setup_printf, swhen, semit, sbind, sret.
  destruct d as [f0 v0 var0]. cbn [ftdi version variant].
  destruct (v0 =? 2) eqn:Hv;
    destruct (1 <? verbosity);
    repeat (cbn;
      match goal with
      | |- context [v0 =? 2] => rewrite Hv
      | |- context [usb_reset ?f] => destruct (usb_reset f) as [? ?]
      | |- context [usb_set_bitmode ?f ?a ?b] =>
          destruct (usb_set_bitmode f a b) as [? ?]
      | |- context [usb_set_latency_timer ?f ?a] =>
          destruct (usb_set_latency_timer f a) as [? ?]
      | |- context [usb_purge_result ?f] =>
          generalize (usb_purge_result f); intros ?
      | |- context [?x =? 0] => destruct (x =? 0)
      end);
    cbn; (split; [|done]); repeat constructor.
Qed.

Lemma handshake_run_facts response d :
  let run := device_get_version verbosity response d in
  exists status,
    result run = Some status
    /\ frames_written (trace run) <> []
    /\ (0 < status ->
        (2 <= length (frames_written (trace run)) <= 5)%nat)
    /\ version (final run) = version d.
Proof.
  intros run. subst run. unfold device_get_version.
  rewrite result_bind, trace_bind, final_bind.
  cbn [ret result final trace fst snd]. rewrite app_nil_r.
  pose proof (device_get_version_exit_run verbosity response d) as Hout.
  cbn zeta in Hout. unfold handshake_outcome in Hout.
  assert (Hfv : frames_written
                  (trace (device_get_version_exit verbosity response d))
                <> []
                /\ version (final (device_get_version_exit verbosity
                                     response d)) = version d).
  { unfold device_get_version_exit.
    rewrite trace_bind, final_bind.
    destruct (getver_exchange_events verbosity response d)
      as (_ & _ & Hver & _).
    destruct (getver_exchange verbosity response d) as (Hfr & _).
    set (ex := device_send_cmd _ _ _ _ _ _ d) in *. clearbody ex.
    rewrite frames_written_app, Hfr. split; [done|].
    destruct (fst (result ex) <=? 0); [done|].
    rewrite final_bind.
    destruct (get_version_loop_events verbosity 4 0 (snd (result ex))
                (final ex) ltac:(lia)) as (_ & _ & L3 & _).
    set (loop := get_version_loop _ _ _ _ _) in *. clearbody loop.
    rewrite <- Hver, <- L3.
    by destruct (result loop) as [[err| |r]|]. }
  destruct Hfv as (Hfr & Hver).
  destruct (result (device_get_version_exit verbosity response d))
    as [e|]; [|done].
  exists (version_status e). split; [done|]. split; [done|].
  split; [|done].
  destruct e as [err| |r]; cbn [version_status]; [lia|lia|].
  intros _. destruct Hout as (first & mism & _ & Hlen & _ & _ & -> & _).
  lia.
Qed.

Lemma preparation_only t :
  Forall preparation_event t ->
  device_events t = []
  /\ ~ In SeFree t /\ ~ In SeDeinit t /\ ~ In (SeStderr DeviceNotFound) t.
Proof.
  induction 1 as [|e t He _ (IH1 & IH2 & IH3 & IH4)];
    [repeat split; by intros []|].
  destruct e as [| | | | | | | |[]| |]; try done; cbn;
    (split; [done|]); repeat split; intros [?|?]; done.
Qed.

Lemma setup_device_opened_run response d :
  let run := setup_device_opened verbosity response d in
  exists prep,
    Forall preparation_event prep
    /\ ((sresult run = Some EXIT_FAILURE
         /\ strace run = prep ++ [SeStderr DeviceNotFound; SeFree]
         /\ Forall (fun e => forall msg, e <> SeStderr (FailFtdi msg)) prep)
        \/ (exists handshake status,
              strace run
              = prep ++ map SeDevice handshake
                ++ (if status <=? 0 then [SeDeinit] else [])
              /\ sresult run
                 = Some (if status <=? 0 then EXIT_FAILURE else EXIT_SUCCESS)
              /\ frames_written handshake <> []
              /\ (0 < status ->
                  (2 <= length (frames_written handshake) <= 5)%nat)
              /\ (version (sfinal run) = 1 \/ version (sfinal run) = 2))).
Proof.
  intros run. subst run. unfold setup_device_opened.
  rewrite sresult_sbind, strace_sbind, sfinal_sbind.
  destruct (device_open_prepares d) as (Hp & Hnf & Hres).
  set (op := device_open d) in *. clearbody op.
  destruct Hres as [Hzero|(Hv & H12)].
  { rewrite Hzero. cbn. exists (strace op). split; [done|]. by left. }
  destruct (Z.ltb_spec (sresult op) 1) as [?|_]; [lia|].
  rewrite sresult_sbind, strace_sbind, sfinal_sbind.
  cbn [get_version_field sresult sfinal strace fst snd].
  rewrite sresult_sbind, strace_sbind, sfinal_sbind.
  set (found := swhen _ _ (sfinal op)).
  assert (Hfound : Forall preparation_event (strace found)
                   /\ sfinal found = sfinal op).
  { unfold found, swhen, setup_printf, semit, sret.
    destruct (0 <? verbosity); cbn; split; repeat constructor. }
  destruct Hfound as (Hfp & Hfs). rewrite Hfs. clearbody found.
  rewrite sresult_sbind, strace_sbind, sfinal_sbind.
  destruct (device_init_prepares (sfinal op)) as (Hip & Hir & Hiv).
  set (init := device_init verbosity (sfinal op)) in *. clearbody init.
  rewrite Hir. cbn [Z.eqb].
  rewrite sresult_sbind, strace_sbind, sfinal_sbind.
  destruct (device_run (device_get_version verbosity response) (sfinal init))
    as (-> & -> & ->).
  destruct (handshake_run_facts response (sfinal init))
    as (status & Hst & Hfr & Hlen & Hver).
  set (hs := device_get_version verbosity response (sfinal init)) in *.
  clearbody hs. rewrite Hst.
  exists (strace op ++ strace found ++ strace init).
  split; [by rewrite !Forall_app|].
  right. exists (trace hs), status.
  assert (Hversion : version (final hs) = 1 \/ version (final hs) = 2)
    by (rewrite Hver, Hiv; lia).
  destruct (status <=? 0); cbn; rewrite <- ?app_assoc, ?app_nil_r; done.
Qed.


End SetupProperties.



(** ** The option [-b] *)

Lemma find_bank_cases (optarg : string) :
  (forall bank, In (optarg, bank) banks -> find_bank banks optarg = bank)
  /\ (~ In optarg (map fst banks) -> find_bank banks optarg = -1)
  /\ (find_bank banks optarg = -1
      \/ (1 <= find_bank banks optarg < BANK_LAST
          /\ In optarg (map fst banks))).
Proof.
  unfold banks, find_bank.
  repeat match goal with
  | |- context [String.eqb optarg ?name] =>
      destruct (String.eqb_spec optarg name) as [->|?]
  end; cbn;
    (split; [intros bank Hin;
             repeat destruct Hin as [[= <-]|Hin]; try done|]);
    (split; [intros Hno; try done; exfalso; apply Hno; tauto|]);
    first [ by left | right; split; [done|tauto] ].
Qed.

(** X15: the option [-b].  A name of the table [banks] selects its bank.
    Any other argument is handed to [atoi]: it is accepted when the number
    is from 0 to [BANK_LAST - 1] and refused otherwise.  So whatever is
    selected is below [BANK_LAST], and an argument that is no name of a
    bank and for which [atoi] gives 0 selects [BANK_INVALID] without a
    complaint. *)
Theorem X15_bank_option (atoi : string -> Z) (optarg : string) :
  (forall bank, bank_option atoi optarg = Some bank -> 0 <= bank < BANK_LAST)
  /\ (forall bank,
        In (optarg, bank) banks -> bank_option atoi optarg = Some bank)
  /\ (~ In optarg (map fst banks) ->
      bank_option atoi optarg
      = if (0 <=? atoi optarg) && (atoi optarg <? BANK_LAST)
        then Some (atoi optarg) else None)
  /\ (~ In optarg (map fst banks) -> atoi optarg = 0 ->
      bank_option atoi optarg = Some BANK_INVALID).
Proof.
  destruct (find_bank_cases optarg) as (Hin & Hout & Hrange).
  assert (Hother : ~ In optarg (map fst banks) ->
            bank_option atoi optarg
            = if (0 <=? atoi optarg) && (atoi optarg <? BANK_LAST)
              then Some (atoi optarg) else None).
  { intros Hno. unfold bank_option. rewrite (Hout Hno). cbn [Z.ltb Z.compare].
    unfold BANK_LAST.
    destruct (Z.ltb_spec (atoi optarg) 0), (Z.leb_spec 7 (atoi optarg)),
      (Z.leb_spec 0 (atoi optarg)), (Z.ltb_spec (atoi optarg) 7);
      try done; lia. }
  split; [|split; [|split; [done|]]].
  - intros bank. unfold bank_option.
    destruct Hrange as [->|(Hr & _)].
    + cbn [Z.ltb Z.compare]. unfold BANK_LAST.
      destruct (Z.ltb_spec (atoi optarg) 0), (Z.leb_spec 7 (atoi optarg));
        cbn; try done; intros [= <-]; lia.
    + destruct (Z.ltb_spec (find_bank banks optarg) 0); [lia|].
      intros Heq.
      assert (bank = find_bank banks optarg) as -> by congruence. lia.
  - intros bank Hb. unfold bank_option. rewrite (Hin _ Hb).
    assert (1 <= bank) by (repeat destruct Hb as [[= <- <-]|Hb]; done).
    by destruct (Z.ltb_spec bank 0); [lia|].
  - intros Hno Hzero. by rewrite Hother, Hzero.
Qed.

Lemma X15_bank_option_witness :
  bank_option decimal "sram" = Some BANK_INVALID
  /\ bank_option decimal "pokemon" = Some BANK_FLASHPKM1M
  /\ 0 <= 6 < BANK_LAST.
Proof.
  destruct (X15_bank_option decimal "sram") as (_ & _ & _ & Hinvalid).
  destruct (X15_bank_option decimal "pokemon") as (_ & Hname & _).
  destruct (X15_bank_option decimal "6") as (Hrange & _).
  split; [|split].
  - apply Hinvalid; [|reflexivity].
    cbn. intros Hin. repeat destruct Hin as [Hin|Hin]; discriminate || done.
  - apply Hname. cbn. tauto.
  - apply Hrange. reflexivity.
Defined.

(** ** The option loop of [main] *)

Lemma bank_option_range atoi optarg bank :
  bank_option atoi optarg = Some bank -> 0 <= bank < BANK_LAST.
Proof.
  unfold bank_option.
  destruct (find_bank_cases optarg) as (_ & _ & [->|(Hr & _)]).
  - cbn [Z.ltb Z.compare]. unfold BANK_LAST.
    destruct (Z.ltb_spec (atoi optarg) 0), (Z.leb_spec 7 (atoi optarg));
      cbn; try done; intros [= <-]; lia.
  - destruct (Z.ltb_spec (find_bank banks optarg) 0); [lia|].
    intros Heq.
    assert (bank = find_bank banks optarg) as -> by congruence. lia.
Qed.

Lemma getopt_never_returns_z c : Main.getopt_returns c -> c <> char "z".
Proof.
  intros Hc ->. vm_compute in Hc. intuition discriminate.
Qed.

Lemma option_case_arguments env i c optarg st :
  c <> char "z" ->
  Main.fileSize st = -1 -> 0 <= Main.bank st < BANK_LAST ->
  let run := Main.option_case env i c optarg st in
  Forall (fun e => forall size off bank,
            Main.transfer_arguments e = Some (size, off, bank) ->
            size = -1 /\ is_u32 off /\ 0 <= bank < BANK_LAST) (fst run)
  /\ match snd run with
     | inl st' => Main.fileSize st' = -1 /\ 0 <= Main.bank st' < BANK_LAST
     | inr _ => True
     end.
Proof.
  intros Hz Hsize Hbank run. subst run.
  assert (Hu32 : forall z, is_u32 (u32 z))
    by (intros z; apply Z.mod_pos_bound; lia).
  unfold Main.option_case, Main.setup_or_die, Main.transfer.
  repeat match goal with
  | |- context [c =? ?k] => destruct (Z.eqb_spec c k) as [?|?]
  end; try done;
  repeat match goal with
  | |- context [bank_option ?a ?o] =>
      pose proof (bank_option_range a o);
      destruct (bank_option a o) as [b|]
  | |- context [find_cic ?t ?i ?n] => destruct (find_cic t i n)
  | |- context [Main.is_setup st] => destruct (Main.is_setup st)
  | |- context [negb (?x =? 0)] => destruct (x =? 0)
  | |- context [String.eqb ?a ?b] => destruct (String.eqb a b)
  | |- context [Main.fopen ?e ?i ?o] => destruct (Main.fopen e i o)
  end; cbn;
  (split;
   [repeat (apply List.Forall_cons;
            [cbn; try done; intros size off bank [= <- <- <-]; auto|]);
    apply List.Forall_nil|]);
  auto.
Qed.

Lemma option_loop_arguments env options :
  Forall (fun o => Main.getopt_returns (fst o)) options ->
  forall i st,
    Main.fileSize st = -1 -> 0 <= Main.bank st < BANK_LAST ->
    Forall (fun e => forall size off bank,
              Main.transfer_arguments e = Some (size, off, bank) ->
              size = -1 /\ is_u32 off /\ 0 <= bank < BANK_LAST)
      (fst (Main.option_loop env i options st)).
Proof.
  induction 1 as [|[c optarg] options Hc _ IH]; intros i st Hsize Hbank.
  { cbn. by repeat constructor. }
  cbn [Main.option_loop].
  destruct (option_case_arguments env i c optarg st
              (getopt_never_returns_z _ Hc) Hsize Hbank) as (Ht & Hst).
  destruct (Main.option_case env i c optarg st) as [t [st'|code]];
    cbn [fst snd] in *; [|done].
  destruct Hst as (Hsize' & Hbank').
  specialize (IH (S i) st' Hsize' Hbank').
  destruct (Main.option_loop env (S i) options st') as [t' code].
  cbn [fst] in *. by apply Forall_app.
Qed.

(** X16: what [main] hands to the transfers.  [getopt_long], for the
    option string and the long options of the program, never returns
    ['z'], the one case that sets the size; so every call of
    [device_upload] and [device_download] is made with the size -1, the
    offset of 32 bits and a bank from 0 to [BANK_LAST - 1].  What
    [getopt_long] returns for [-s] and [--size] is reported as unknown and
    changes nothing. *)
Theorem X16_main_transfer_arguments (env : Main.environment) (argc : Z)
    (options : list (Z * string)) :
  Forall (fun o => Main.getopt_returns (fst o)) options ->
  Forall (fun e => forall size off bank,
            Main.transfer_arguments e = Some (size, off, bank) ->
            size = -1 /\ is_u32 off /\ 0 <= bank < BANK_LAST)
    (fst (Main.main env argc options))
  /\ Main.getopt_returns (char "s")
  /\ forall i optarg st,
       Main.option_case env i (char "s") optarg st
       = ([Main.GetoptReturned (char "s")], inl st).
Proof.
  intros Hopts. split; [|split].
  - unfold Main.main. destruct (argc <? 2); [by repeat constructor|].
    apply option_loop_arguments; [done|done|].
    unfold Main.initial, BANK_CARTROM, BANK_LAST. cbn. lia.
  - right. right. cbn. tauto.
  - done.
Qed.

Lemma X16_main_transfer_arguments_witness :
  let env := Main.mkEnvironment decimal decimal (fun _ _ => true) 0 in
  let options := [(char "s", "512"); (char "o", "4096");
                  (char "l", "game.z64")] in
  fst (Main.main env 6 options)
  = [Main.GetoptReturned (char "s"); Main.SetupDevice 0;
     Main.DeviceUpload 0 "game.z64" (-1) 4096 BANK_CARTROM;
     Main.ShutdownDevice]
  /\ Main.getopt_returns (char "s").
Proof.
  intros env options. split; [reflexivity|].
  refine (proj1 (proj2 (X16_main_transfer_arguments env 6 options _))).
  repeat constructor; vm_compute; tauto.
Defined.

Lemma setups_app t1 t2 :
  Main.setups (t1 ++ t2) = Main.setups t1 ++ Main.setups t2.
Proof.
  induction t1 as [|e t1 IH]; [done|]. destruct e; simpl; by rewrite ?IH.
Qed.

Lemma option_case_setup env i c optarg st :
  let run := Main.option_case env i c optarg st in
  let t := fst run in
  if Main.is_setup st then
    Main.setups t = []
    /\ match snd run with
       | inl st' => Main.is_setup st' = true
       | inr _ => True
       end
  else
    (Main.setups t = []
     /\ Forall (fun e => Main.uses_device e = false) t
     /\ match snd run with
        | inl st' => Main.is_setup st' = false
        | inr _ => True
        end)
    \/ (exists rest st',
          t = Main.SetupDevice 0 :: rest /\ Main.setups rest = []
          /\ snd run = inl st' /\ Main.is_setup st' = true)
    \/ (exists err,
          err <> 0 /\ t = [Main.SetupDevice err] /\ snd run = inr err).
Proof.
  intros run t. subst t run.
  unfold Main.option_case, Main.setup_or_die, Main.transfer.
  destruct st as [b fs fo v [|]]; cbn [Main.is_setup Main.bank Main.fileSize
    Main.fileOffset Main.verbosity];
  repeat match goal with
  | |- context [c =? ?k] => destruct (Z.eqb_spec c k) as [?|?]
  end;
  repeat match goal with
  | |- context [bank_option ?a ?o] => destruct (bank_option a o)
  | |- context [find_cic ?t ?i ?n] => destruct (find_cic t i n)
  | |- context [negb (?x =? 0)] => destruct (Z.eqb_spec x 0) as [Herr|Herr]
  | |- context [String.eqb ?a ?b] => destruct (String.eqb a b)
  | |- context [Main.fopen ?e ?i ?o] => destruct (Main.fopen e i o)
  end; cbn; try done;
  first
    [ left; split; [done|]; split; [by repeat constructor|done]
    | right; left; rewrite Herr; do 2 eexists;
      split; [reflexivity|]; split; [done|]; split; [reflexivity|done]
    | right; right; eexists; split; [exact Herr|done] ].
Qed.

Lemma option_loop_setup env options i st :
  let run := Main.option_loop env i options st in
  let t := fst run in
  if Main.is_setup st then Main.setups t = []
  else
    (Main.setups t = [] /\ Forall (fun e => Main.uses_device e = false) t)
    \/ (exists t1 t2,
          t = t1 ++ Main.SetupDevice 0 :: t2
          /\ Forall (fun e => Main.uses_device e = false) t1
          /\ Main.setups t1 = [] /\ Main.setups t2 = [])
    \/ (exists t1 err,
          err <> 0 /\ t = t1 ++ [Main.SetupDevice err]
          /\ Forall (fun e => Main.uses_device e = false) t1
          /\ Main.setups t1 = [] /\ snd run = err).
Proof.
  revert i st. induction options as [|[c optarg] options IH]; intros i st.
  { cbn. destruct (Main.is_setup st); [done|]. left.
    split; [done|]. by repeat constructor. }
  cbn [Main.option_loop].
  pose proof (option_case_setup env i c optarg st) as Hstep.
  cbn zeta in Hstep.
  destruct (Main.option_case env i c optarg st) as [t [st'|code]];
    cbn [fst snd] in Hstep.
  - specialize (IH (S i) st'). cbn zeta in IH.
    destruct (Main.option_loop env (S i) options st') as [t' code].
    cbn [fst snd] in *.
    destruct (Main.is_setup st).
    + destruct Hstep as (Ht & Hs). rewrite Hs in IH.
      by rewrite setups_app, Ht, IH.
    + destruct Hstep as [(Ht & Hnd & Hs)
                        |[(rest & st2 & -> & Hrest & [= <-] & Hs)
                         |(err & _ & _ & [=])]].
      * rewrite Hs in IH.
        destruct IH as [(Ht' & Hnd')
                       |[(t1 & t2 & -> & H1 & H2 & H3)
                        |(t1 & err & Herr & -> & H1 & H2 & H3)]].
        -- left. rewrite setups_app, Ht, Ht'. split; [done|].
           by apply Forall_app.
        -- right. left. exists (t ++ t1), t2.
           rewrite setups_app, Ht, H2, <- app_assoc.
           repeat split; try done. by apply Forall_app.
        -- right. right. exists (t ++ t1), err.
           rewrite setups_app, Ht, H2, <- app_assoc.
           repeat split; try done. by apply Forall_app.
      * rewrite Hs in IH. right. left. exists [], (rest ++ t').
        rewrite setups_app, Hrest, IH. by repeat split.
  - cbn [fst snd].
    destruct (Main.is_setup st).
    + by destruct Hstep as (Ht & _).
    + destruct Hstep as [(Ht & Hnd & _)
                        |[(rest & st2 & _ & _ & [=] & _)
                         |(err & Herr & -> & [= ->])]].
      * by left.
      * right. right. exists [], err. by repeat split.
Qed.

(** X17: the device is set up at most once in a run of [main], and
    before anything is asked of it.  Either nothing needs the device and
    [setup_device] is not called; or it is called once, returns 0, and
    nothing before that call needs the device; or it is called once,
    returns something else, and [main] ends there with that value, before
    anything is asked of the device. *)
Theorem X17_main_sets_up_once (env : Main.environment) (argc : Z)
    (options : list (Z * string)) :
  let run := Main.main env argc options in
  let t := fst run in
  (Main.setups t = [] /\ Forall (fun e => Main.uses_device e = false) t)
  \/ (exists t1 t2,
        t = t1 ++ Main.SetupDevice 0 :: t2
        /\ Forall (fun e => Main.uses_device e = false) t1
        /\ Main.setups t1 = [] /\ Main.setups t2 = [])
  \/ (exists t1 err,
        err <> 0 /\ t = t1 ++ [Main.SetupDevice err]
        /\ Forall (fun e => Main.uses_device e = false) t1
        /\ Main.setups t1 = [] /\ snd run = err).
Proof.
  intros run t. subst t run. unfold Main.main.
  destruct (argc <? 2).
  { left. split; [done|]. by repeat constructor. }
  apply (option_loop_setup env options 0 Main.initial).
Qed.

(** ** [list_devices] *)

Section ListDevices.
Context {F : Type} `{Enumerator F}.

(** Past index 0 the loop stops at once, in the read outside the node. *)
Lemma list_devices_from_past (n : nat) (i : Z) (ftdi : F) :
  i <> 0 ->
  list_devices_from (S n) i ftdi = (false, ftdi, [LeReadPastNode i]).
Proof.
  intros Hi. cbn [list_devices_from].
  by destruct (Z.eqb_spec i 0) as [?|_].
Qed.

(** X18: [list_devices] prints one line and returns what
    [ftdi_usb_find_all] returned when that is negative, asking for no
    strings and freeing no list.  When no device or one device was found it
    returns that number: it asks once for the strings of the device of the
    first node, when there is one, prints one line for it after the line
    that tells the number, and frees the list once, as the last thing it
    does.  With two or more devices it indexes the linked list as an array:
    after the line of device 0 it reads [devices[1]], outside the first
    node, and the list has not been freed. *)
Theorem X18_list_devices (ftdi : F) :
  let run := list_devices ftdi in
  let e := fst (fst run) in
  let t := snd run in
  let nDevices := snd (usb_find_all ftdi) in
  let err := fst (snd (usb_get_strings (fst (usb_find_all ftdi)))) in
  (nDevices < 0 ->
   e = ListReturned nDevices
   /\ t = [LeFindAll nDevices; LeStderr FindAllFailed])
  /\ (nDevices = 0 ->
      e = ListReturned 0
      /\ t = [LeFindAll 0; LeStdout (FoundDevices 0); LeListFree])
  /\ (nDevices = 1 ->
      e = ListReturned 1
      /\ (exists line,
            t = [LeFindAll 1; LeStdout (FoundDevices 1);
                 LeGetStrings 0 err; line; LeListFree]
            /\ lines_printed [line] <> []))
  /\ (2 <= nDevices ->
      e = ListUndefined
      /\ (exists line,
            t = [LeFindAll nDevices; LeStdout (FoundDevices nDevices);
                 LeGetStrings 0 err; line; LeReadPastNode 1]
            /\ lines_printed [line] <> [])
      /\ lists_freed t = 0%nat).
Proof.
  intros run e t nDevices err. subst err nDevices t e run.
  unfold list_devices.
  destruct (usb_find_all ftdi) as [f1 n]. cbn [fst snd].
  destruct (Z.ltb_spec n 0) as [Hneg|Hpos]; cbn [fst snd].
  { split; [done|]. repeat split; lia. }
  split; [lia|]. split; [|split].
  - intros ->. done.
  - intros ->. change (Z.to_nat 1) with 1%nat. cbn [list_devices_from].
    change (0 =? 0) with true. cbv iota.
    destruct (usb_get_strings f1) as [f2 [r [[m d] s]]]. cbn [fst snd app].
    split; [done|]. eexists. split; [done|].
    by destruct (negb (r =? 0)).
  - intros Hn.
    assert (Hm : exists m, Z.to_nat n = S (S m)).
    { exists (Z.to_nat n - 2)%nat. lia. }
    destruct Hm as (m & ->).
    cbn [list_devices_from]. change (0 =? 0) with true. cbv iota.
    destruct (usb_get_strings f1) as [f2 [r [[mf ds] sr]]].
    change (0 + 1) with 1. change (1 =? 0) with false. cbv iota.
    cbn [fst snd].
    split; [done|]. split.
    + eexists. split; [done|]. by destruct (negb (r =? 0)).
    + by destruct (negb (r =? 0)).
Qed.

End ListDevices.

Lemma X18_list_devices_witness :
  let run := @list_devices unit (enumerator_of 3 0) tt in
  fst (fst run) = ListUndefined
  /\ snd run
     = [LeFindAll 3; LeStdout (FoundDevices 3); LeGetStrings 0 0;
        LeStdout (DeviceLine 0 "64drive USB device" "FTDI" "A0001");
        LeReadPastNode 1].
Proof.
  intros run.
  destruct (proj2 (proj2 (proj2
              (@X18_list_devices unit (enumerator_of 3 0) tt)))
              ltac:(cbn; lia)) as (He & _ & _).
  split; [exact He|]. by vm_compute.
Defined.

(** ** The CIC option, down to the bytes written *)

Section CicOnTheWire.
Context {F : Type} `{Platform F}.
Variable verbosity : Z.

Lemma set_cic_frame cic d :
  fst (fst (variant d)) <> char "A" -> 0 <= cic < 2 ^ 31 ->
  frames_written (trace (device_set_cic verbosity cic d))
  = [cmd_frame host_order DEV_CMD_SETCIC 1 [Z.lor (Z.shiftl 1 31) cic]].
Proof.
  intros HA Hc. unfold device_set_cic, get_variant.
  rewrite trace_bind. cbn [result final trace fst snd].
  destruct (Z.eqb_spec (fst (fst (variant d))) (char "A")) as [|_]; [done|].
  unfold printf.
  rewrite !trace_bind, !final_when_emit, trace_when.
  rewrite cic_param by done.
  rewrite send_cmd_no_response by lia.
  cbn [result final trace fst snd ret].
  rewrite !frames_written_app, !app_nil_r.
  destruct (2 <? verbosity), (0 <? verbosity), (_ <=? 0); reflexivity.
Qed.

(** X19: the option [-c], down to the bytes written.  On a host of
    little-endian byte order and a device whose variant does not start
    with [A], for every number that the search of [cic_types] accepts,
    [device_set_cic] of what was found writes the one frame
    72 'C' 'M' 'D' 80 00 00 cic, where cic is the internal id, from 0 to
    7. *)
Theorem X19_cic_option_on_the_wire (num cic : Z) (d : sixtyfourDrive F) :
  host_order = LittleEndian ->
  find_cic cic_types 0 num = Some cic ->
  fst (fst (variant d)) <> char "A" ->
  0 <= cic < CIC_LAST
  /\ frames_written (trace (device_set_cic verbosity cic d))
     = [[DEV_CMD_SETCIC; char "C"; char "M"; char "D"; 0x80; 0; 0; cic]].
Proof.
  intros Hhost Hfind HA.
  destruct (find_cic_sound _ _ Hfind) as (Hc & _).
  split; [done|]. unfold CIC_LAST in Hc.
  rewrite set_cic_frame, Hhost by (try done; lia).
  assert (Hcases : cic = 0 \/ cic = 1 \/ cic = 2 \/ cic = 3 \/ cic = 4
                   \/ cic = 5 \/ cic = 6 \/ cic = 7) by lia.
  repeat destruct Hcases as [->|Hcases]; try subst cic; reflexivity.
Qed.

End CicOnTheWire.

Lemma X19_cic_option_on_the_wire_witness :
  let d := mkDrive (mkLink [] []) 2 (char "B", 0, 0) in
  frames_written (trace (device_set_cic 0 CIC_7102 d))
  = [[DEV_CMD_SETCIC; char "C"; char "M"; char "D"; 0x80; 0; 0; CIC_7102]].
Proof.
  intros d.
  refine (proj2 (X19_cic_option_on_the_wire 0 7102 CIC_7102 d _ _ _)).
  - reflexivity.
  - reflexivity.
  - vm_compute. discriminate.
Defined.

(** ** What the verbosity changes *)

Section Verbosity.
Context {F : Type} `{Platform F}.

Lemma actions_app t1 t2 : actions (t1 ++ t2) = actions t1 ++ actions t2.
Proof. apply List.filter_app. Qed.

Lemma same_refl {A} (r : A * sixtyfourDrive F * list event) :
  same_outcome r r.
Proof. done. Qed.

Lemma same_bind {A B} (c1 c2 : M F A) (k1 k2 : A -> M F B) d :
  same_outcome (c1 d) (c2 d) ->
  (forall a d', same_outcome (k1 a d') (k2 a d')) ->
  same_outcome (bind c1 k1 d) (bind c2 k2 d).
Proof.
  unfold same_outcome. intros (Hr & Hf & Ht) Hk.
  rewrite !result_bind, !final_bind, !trace_bind, !actions_app, Hr, Hf, Ht.
  destruct (Hk (result (c2 d)) (final (c2 d))) as (-> & -> & ->). done.
Qed.

Lemma same_prints (b1 b2 : bool) (e1 e2 : event) (d : sixtyfourDrive F) :
  is_print e1 = true -> is_print e2 = true ->
  same_outcome (when b1 (emit e1) d) (when b2 (emit e2) d).
Proof.
  intros H1 H2. unfold same_outcome, actions.
  destruct b1, b2; cbn; rewrite ?H1, ?H2; done.
Qed.

Ltac same_step :=
  first
    [ apply same_refl
    | apply same_prints; reflexivity
    | apply same_bind; [|intros ? ?]
    | match goal with
      | |- same_outcome ((if ?b then _ else _) _) ((if ?b then _ else _) _) =>
          destruct b
      | |- same_outcome (match ?e with _ => _ end _)
             (match ?e with _ => _ end _) =>
          destruct e
      end ].

Lemma send_cmd_same v1 v2 cmd nParams params resp respLen d :
  same_outcome (device_send_cmd v1 cmd nParams params resp respLen d)
    (device_send_cmd v2 cmd nParams params resp respLen d).
Proof.
  unfold device_send_cmd, printf. repeat same_step.
Qed.

Lemma get_version_loop_same v1 v2 fuel tries response d :
  same_outcome (get_version_loop v1 fuel tries response d)
    (get_version_loop v2 fuel tries response d).
Proof.
  revert tries response d.
  induction fuel as [|fuel IH]; intros tries response d; [done|].
  cbn [get_version_loop]. unfold fprintf_stderr.
  apply same_bind; [apply send_cmd_same|]. intros r d'.
  repeat first [apply IH | same_step].
Qed.

Lemma get_version_same v1 v2 response d :
  same_outcome (device_get_version v1 response d)
    (device_get_version v2 response d).
Proof.
  unfold device_get_version, device_get_version_exit, fprintf_stderr.
  apply same_bind; [|intros; apply same_refl].
  apply same_bind; [apply send_cmd_same|]. intros r d'.
  destruct (_ <=? 0); [apply same_refl|].
  apply same_bind; [apply get_version_loop_same|]. intros e d''.
  apply same_refl.
Qed.

Lemma upload_loop_same v1 v2 fuel chunkSize size bank l d :
  same_outcome (upload_loop v1 fuel chunkSize size bank l d)
    (upload_loop v2 fuel chunkSize size bank l d).
Proof.
  revert l d. induction fuel as [|fuel IH]; intros l d;
    cbn [upload_loop]; destruct (readPos l <? size); try done.
  apply same_bind; [|intros [n l'|l'] d'; [done|apply IH]].
  unfold upload_chunk, printf, fprintf_stderr.
  apply same_bind; [apply send_cmd_same|]. intros r d'.
  repeat same_step.
Qed.

Lemma download_loop_same v1 v2 fuel chunkSize size bank l d :
  same_outcome (download_loop v1 fuel chunkSize size bank l d)
    (download_loop v2 fuel chunkSize size bank l d).
Proof.
  revert l d. induction fuel as [|fuel IH]; intros l d;
    cbn [download_loop]; destruct (readPos l <? size); try done.
  apply same_bind; [|intros [n l'|l'] d'; [done|apply IH]].
  unfold download_chunk, printf, fprintf_stderr.
  apply same_bind; [apply send_cmd_same|]. intros r d'.
  repeat same_step.
Qed.

(** X20: the verbosity changes what is printed and nothing else: with
    two verbosities, each device function returns the same, leaves the
    device structure the same and makes the same calls of libftdi and the
    same waits, in the same order. *)
Theorem X20_verbosity_only_prints (v1 v2 : Z) (d : sixtyfourDrive F) :
  (forall cmd nParams params resp respLen,
     same_outcome (device_send_cmd v1 cmd nParams params resp respLen d)
       (device_send_cmd v2 cmd nParams params resp respLen d))
  /\ (forall response,
        same_outcome (device_get_version v1 response d)
          (device_get_version v2 response d))
  /\ (forall fuel file size off bank,
        same_outcome (device_upload v1 fuel file size off bank d)
          (device_upload v2 fuel file size off bank d))
  /\ (forall fuel file size off bank,
        same_outcome (device_download v1 fuel file size off bank d)
          (device_download v2 fuel file size off bank d))
  /\ (forall cic,
        same_outcome (device_set_cic v1 cic d) (device_set_cic v2 cic d)).
Proof.
  split; [intros; apply send_cmd_same|].
  split; [intros; apply get_version_same|].
  split; [|split].
  - intros fuel file size off bank.
    unfold device_upload, device_upload_exit, printf, fprintf_stderr.
    destruct (upload_size file size) as [size' file'].
    apply same_bind; [|intros; apply same_refl].
    apply same_bind; [apply same_prints; reflexivity|]. intros _ d1.
    destruct (negb _); [apply same_refl|].
    apply same_bind; [apply same_refl|]. intros err d2.
    destruct (negb _); [apply same_refl|].
    apply same_bind; [apply same_prints; reflexivity|]. intros _ d3.
    apply same_bind; [apply upload_loop_same|]. intros r d4.
    destruct r as [[[| | |] l']|]; try apply same_refl.
    repeat same_step.
  - intros fuel file size off bank.
    unfold device_download, device_download_exit, printf, fprintf_stderr.
    apply same_bind; [|intros; apply same_refl].
    apply same_bind; [apply same_prints; reflexivity|]. intros _ d1.
    destruct (negb _); [apply same_refl|].
    apply same_bind; [apply same_refl|]. intros err d2.
    destruct (negb _); [apply same_refl|].
    apply same_bind; [apply same_prints; reflexivity|]. intros _ d3.
    apply same_bind; [apply download_loop_same|]. intros r d4.
    destruct r as [[[| | |] l']|]; try apply same_refl.
    repeat same_step.
  - intros cic. unfold device_set_cic, printf.
    apply same_bind; [apply same_refl|]. intros v d1.
    destruct (_ =? _); [apply same_refl|].
    apply same_bind; [apply same_prints; reflexivity|]. intros _ d2.
    apply same_bind; [apply send_cmd_same|]. intros r d3. apply same_refl.
Qed.

End Verbosity.
